(** * Moderation bot: the decision pipeline of [bot.js], embedded and verified

    Part one is the program, in the order of the source file: texts and
    regular expressions, configuration, the rate window and the
    classification cache, the classification gateway
    ([performOpenAICall]), the adjudication step ([verifyStrikeDecision],
    [decideAndApplyStrike]), the policy prefilter ([shouldCheckByPolicy]),
    the strike store and the mutes, flood detection, the [messageCreate]
    handler and ticket creation ([createTicketChannel]); then the timer
    of a timed mute, the DM queue, quarantine by account age, the small
    helpers, the reading of a channel and the closing of a ticket.  Part
    two names what the properties talk about; part three proves the
    properties the specification states, part four further ones.

    Texts are strings of 8-bit code units, read as the characters U+0000
    to U+00FF.  Case mapping and the character classes are those of
    JavaScript on that range: the letters above 127 change case with
    their neighbours 32 places away, [toUpperCase] writes SS for the
    sharp s, and no code unit above 127 is a word character or, U+00A0
    apart, white space.  The capitals of the micro sign and of the y with
    diaeresis lie outside the range; the two are left as they are.
    Numbers read from the environment are integers ([parseInt]) or
    rationals ([parseFloat]); a variable that does not parse is not
    modelled. *)

From Stdlib Require Import ZArith QArith Bool List Ascii String Lia.
From Stdlib Require Import Sorted.
From stdpp Require Import base gmap strings list.
Import ListNotations.

#[local] Open Scope string_scope.
#[local] Open Scope Z_scope.

(** ** JavaScript strings *)

Module Js.

Definition code (c : ascii) : N := N_of_ascii c.

Definition in_range (lo hi : N) (c : ascii) : bool :=
  ((lo <=? code c) && (code c <=? hi))%N.

Definition is_upper (c : ascii) : bool := in_range 65 90 c.
Definition is_lower (c : ascii) : bool := in_range 97 122 c.
Definition is_digit (c : ascii) : bool := in_range 48 57 c.

(** [\w] *)
Definition is_word (c : ascii) : bool :=
  is_upper c || is_lower c || is_digit c || (code c =? 95)%N.

(** [\s], which is also what [trim] strips. *)
Definition is_space (c : ascii) : bool :=
  in_range 9 13 c || (code c =? 32)%N || (code c =? 160)%N.

(** The letters above 127: U+00E0 to U+00FE without the division sign,
    and their capitals U+00C0 to U+00DE without the multiplication sign. *)
Definition is_lower_high (c : ascii) : bool :=
  in_range 224 254 c && negb (code c =? 247)%N.
Definition is_upper_high (c : ascii) : bool :=
  in_range 192 222 c && negb (code c =? 215)%N.

Definition upper_char (c : ascii) : ascii :=
  if is_lower c || is_lower_high c then ascii_of_N (code c - 32) else c.

Definition lower_char (c : ascii) : ascii :=
  if is_upper c || is_upper_high c then ascii_of_N (code c + 32) else c.

Fixpoint map_chars (f : ascii -> ascii) (s : string) : string :=
  match s with
  | EmptyString => EmptyString
  | String c s' => String (f c) (map_chars f s')
  end.

(** [s.toUpperCase()]: one capital for each letter, and SS for the sharp
    s (code unit 223), the one character of the range whose capital form
    is longer and the one whose capital form is made of ASCII letters. *)
Fixpoint toUpperCase (s : string) : string :=
  match s with
  | EmptyString => EmptyString
  | String c s' =>
      if (code c =? 223)%N then String "S" (String "S" (toUpperCase s'))
      else String (upper_char c) (toUpperCase s')
  end.

Definition toLowerCase : string -> string := map_chars lower_char.

Fixpoint trimStart (s : string) : string :=
  match s with
  | String c s' => if is_space c then trimStart s' else s
  | EmptyString => EmptyString
  end.

(** [trimEnd] keeps a character when it is not white space or when
    something is left after it. *)
Fixpoint trimEnd (s : string) : string :=
  match s with
  | EmptyString => EmptyString
  | String c s' =>
      match trimEnd s' with
      | EmptyString => if is_space c then EmptyString else String c EmptyString
      | t => String c t
      end
  end.

Definition trim (s : string) : string := trimEnd (trimStart s).

Fixpoint startsWith (s p : string) : bool :=
  match p, s with
  | EmptyString, _ => true
  | String a p', String b s' => if Ascii.eqb a b then startsWith s' p' else false
  | String _ _, EmptyString => false
  end.

(** [s.includes(p)] *)
Fixpoint includes (s p : string) : bool :=
  startsWith s p ||
  match s with
  | EmptyString => false
  | String _ s' => includes s' p
  end.

(** [s.slice(0, n)] for [0 <= n]. *)
Fixpoint take (n : nat) (s : string) : string :=
  match n, s with
  | S n', String c s' => String c (take n' s')
  | _, _ => EmptyString
  end.

Definition length (s : string) : Z := Z.of_nat (String.length s).

(** Truthiness of a string: [!!s]. *)
Definition truthy (s : string) : bool :=
  match s with EmptyString => false | _ => true end.

(** [raw.split(/\r?\n/)]: the pieces between line breaks. *)
Fixpoint split_lines_aux (cur : string) (s : string) : list string :=
  match s with
  | EmptyString => [cur]
  | String c s' =>
      if (code c =? 10)%N then cur :: split_lines_aux EmptyString s'
      else if (code c =? 13)%N then
        match s' with
        | String d s'' =>
            if (code d =? 10)%N then cur :: split_lines_aux EmptyString s''
            else split_lines_aux (cur ++ String c EmptyString) s'
        | EmptyString => [cur ++ String c EmptyString]
        end
      else split_lines_aux (cur ++ String c EmptyString) s'
  end.

Definition split_lines (s : string) : list string := split_lines_aux EmptyString s.

Fixpoint join (sep : string) (l : list string) : string :=
  match l with
  | [] => EmptyString
  | [x] => x
  | x :: l' => x ++ sep ++ join sep l'
  end.

End Js.

(** ** Regular expressions

    The program only ever calls [RegExp.prototype.test] on expressions
    without the [g] flag, so what matters is whether some match exists.  The
    matcher below explores every alternative with a continuation; a star is
    unrolled at most once per remaining character, an iteration that
    consumes nothing being useless for existence. *)

Module Re.

Inductive regex : Type :=
| Eps
| Chr (p : ascii -> bool)
| Cat (r1 r2 : regex)
| Alt (r1 r2 : regex)
| Star (r : regex)
| Bos
| Eos
| WordB.

Definition word_before (prev : option ascii) : bool :=
  match prev with Some c => Js.is_word c | None => false end.

Definition word_after (s : list ascii) : bool :=
  match s with c :: _ => Js.is_word c | [] => false end.

Fixpoint run (r : regex) (prev : option ascii) (s : list ascii)
    (k : option ascii -> list ascii -> bool) {struct r} : bool :=
  match r with
  | Eps => k prev s
  | Chr p =>
      match s with
      | c :: s' => p c && k (Some c) s'
      | [] => false
      end
  | Cat r1 r2 => run r1 prev s (fun p' s' => run r2 p' s' k)
  | Alt r1 r2 => run r1 prev s k || run r2 prev s k
  | Star r' =>
      (fix loop (fuel : nat) (pv : option ascii) (t : list ascii) {struct fuel} : bool :=
         k pv t ||
         match fuel with
         | O => false
         | S f =>
             run r' pv t
               (fun p' t' => (List.length t' <? List.length t)%nat && loop f p' t')
         end) (List.length s) prev s
  | Bos => match prev with None => k prev s | Some _ => false end
  | Eos => match s with [] => k prev s | _ :: _ => false end
  | WordB => xorb (word_before prev) (word_after s) && k prev s
  end.

Fixpoint search (r : regex) (prev : option ascii) (s : list ascii) : bool :=
  run r prev s (fun _ _ => true) ||
  match s with
  | [] => false
  | c :: s' => search r (Some c) s'
  end.

(** [r.test(s)] *)
Definition test (r : regex) (s : string) : bool :=
  search r None (list_ascii_of_string s).

(** Building blocks. *)
Definition chr (c : ascii) : regex := Chr (Ascii.eqb c).
Definition chri (c : ascii) : regex :=
  Chr (fun x => Ascii.eqb (Js.lower_char x) (Js.lower_char c)).

Fixpoint lit_with (one : ascii -> regex) (s : string) : regex :=
  match s with
  | EmptyString => Eps
  | String c EmptyString => one c
  | String c s' => Cat (one c) (lit_with one s')
  end.

Definition lit : string -> regex := lit_with chr.
Definition liti : string -> regex := lit_with chri.

Fixpoint cats (l : list regex) : regex :=
  match l with
  | [] => Eps
  | [r] => r
  | r :: l' => Cat r (cats l')
  end.

Fixpoint alts (l : list regex) : regex :=
  match l with
  | [] => Chr (fun _ => false)
  | [r] => r
  | r :: l' => Alt r (alts l')
  end.

Definition opt (r : regex) : regex := Alt r Eps.
Definition plus (r : regex) : regex := Cat r (Star r).

(** [r{lo,hi}] with [hi = lo + extra] *)
Fixpoint upto (extra : nat) (r : regex) : regex :=
  match extra with
  | O => Eps
  | S n => opt (Cat r (upto n r))
  end.

Fixpoint exactly (n : nat) (r : regex) : regex :=
  match n with
  | O => Eps
  | S n' => Cat r (exactly n' r)
  end.

Definition rep (lo extra : nat) (r : regex) : regex :=
  Cat (exactly lo r) (upto extra r).

Definition space : regex := Chr Js.is_space.
Definition nonspace : regex := Chr (fun c => negb (Js.is_space c)).
Definition digit : regex := Chr Js.is_digit.

End Re.

(** ** The expressions of the configuration block *)

Module Pattern.
Import Re.

Definition word_bounded (body : regex) : regex := cats [WordB; body; WordB].

Definition sp1 : regex := plus space.

(** [/^(?:bet|alright bet|bet!|bet\.*|bett+|bet rn|bet bro|bet fam|facts|ok|okie|yep|yup|ya|yah|betty)$/i] *)
Definition AFFIRMATION_REGEX : regex :=
  cats [Bos;
        alts [liti "bet"; liti "alright bet"; liti "bet!";
              Cat (liti "bet") (Star (chr "."));
              Cat (liti "bet") (plus (chri "t"));
              liti "bet rn"; liti "bet bro"; liti "bet fam"; liti "facts";
              liti "ok"; liti "okie"; liti "yep"; liti "yup"; liti "ya";
              liti "yah"; liti "betty"];
        Eos].

(** The high-signal betting phrases, [/\b(?:...)\b/i]. *)
Definition BETTING_SIGNAL_REGEX : regex :=
  word_bounded (alts [
    cats [liti "dm"; sp1; opt (Cat (liti "for") sp1); liti "picks"];
    cats [liti "pm"; sp1; opt (Cat (liti "for") sp1); liti "picks"];
    cats [liti "dmme"; sp1; liti "for"; sp1; liti "picks"];
    cats [liti "dm"; sp1; liti "for"; sp1; liti "pick"];
    cats [liti "sell"; opt (liti "ing"); sp1; liti "picks"];
    cats [liti "picks"; sp1; liti "for"; sp1; liti "sale"];
    cats [liti "parlay"; opt (liti "s")];
    liti "sportsbook";
    cats [liti "bookie"; opt (liti "s")];
    liti "parlaytip";
    cats [liti "parlay"; sp1; liti "tips"];
    liti "tipster";
    cats [liti "selling"; sp1; liti "picks"];
    cats [liti "dm"; sp1; liti "for"; sp1; liti "picks"];
    cats [liti "nba"; sp1; liti "picks"];
    cats [liti "nba"; sp1; liti "pick"];
    liti "nbapicks";
    cats [liti "nba"; sp1; liti "parlay"];
    cats [liti "mlb"; sp1; liti "picks"];
    cats [liti "nba"; sp1; liti "parlays"]]).

(** The pound sign is code unit 163; the euro sign (U+20AC) has no 8-bit
    code unit, so its alternative never matches a modelled text. *)
Definition pound : regex := chr (ascii_of_N 163).
Definition euro : regex := Chr (fun _ => false).

(** The money and odds shapes, [/\b(?:...)\b/] (case sensitive). *)
Definition BETTING_LIKELY_REGEX : regex :=
  word_bounded (alts [
    cats [chr "$"; opt space; rep 1 5 digit;
          opt (cats [chr "."; rep 1 1 digit])];
    cats [rep 1 5 digit; opt space;
          alts [lit "USD"; lit "usd"; chr "$"; euro; pound]];
    lit "moneyline"; lit "ml"; lit "odds"; lit "spread"; lit "over";
    lit "under"; lit "o/u"; lit "parlay"; lit "vig"; lit "juice";
    cats [chr "+"; rep 1 2 digit];
    cats [chr "-"; rep 1 2 digit]]).

Definition NSFW_KEYWORDS : list string :=
  ["porn"; "pornography"; "xxx"; "nsfw"; "camgirl"; "cams"; "nude"; "nudes";
   "sex"; "pornhub"; "xvideos"; "xhamster"; "adult"; "explicit"; "breast";
   "cock"; "pussy"].

(** [new RegExp(`\\b(${KEYWORDS.join('|')})\\b`, 'i')]; no keyword holds a
    character that the escaping step would change. *)
Definition keyword_regex (kws : list string) : regex :=
  word_bounded (alts (map liti kws)).

Definition NSFW_REGEX : regex := keyword_regex NSFW_KEYWORDS.

(** [/\bhttps?:\/\/\S+\b/i] *)
Definition SPAM_LINKS_REGEX : regex :=
  cats [WordB; liti "http"; opt (liti "s"); lit "://"; plus nonspace; WordB].

Definition HATE_KEYWORDS : list string :=
  ["nigger"; "chink"; "kike"; "spic"; "wetback"; "gook"; "raghead"; "honky";
   "faggot"; "fag"; "coon"; "paki"].

Definition HATE_REGEX : regex := keyword_regex HATE_KEYWORDS.

Definition HATE_ALLOWLIST : list string :=
  ["nigga"; "sweats"; "sweat"; "sweaties"; "sweaty"].

(** [/^\s*(?:code(?:s)?\b|code\?|5(?:\.|\b)|s(?:\.|\b))/i] *)
Definition MATCH_ALLOWED_PREFIX_REGEX : regex :=
  cats [Bos; Star space;
        alts [cats [liti "code"; opt (liti "s"); WordB];
              liti "code?";
              Cat (chr "5") (Alt (chr ".") WordB);
              Cat (chri "s") (Alt (chr ".") WordB)]].

(** The matchmaking heuristic, [/\b(?:lf5|lfg|...)\b/i]. *)
Definition MATCH_HEURISTIC_REGEX : regex :=
  word_bounded (alts [
    liti "lf5"; liti "lfg"; liti "looking for 5v5"; liti "looking for 5";
    liti "looking for players"; liti "looking for a team";
    cats [liti "need"; sp1; plus digit; sp1; opt (Cat (liti "more") sp1);
          alts [liti "players"; liti "people"; liti "people"]];
    cats [liti "need"; sp1; plus digit; WordB];
    cats [liti "need"; sp1; plus digit; sp1; liti "more"];
    liti "5v5"; liti "5v5s";
    cats [liti "team"; sp1; liti "of"; sp1; chr "5"];
    cats [liti "need"; sp1; chr "4"]; cats [liti "need"; sp1; chr "3"];
    cats [liti "need"; sp1; chr "2"]; cats [liti "need"; sp1; chr "1"];
    cats [liti "need"; sp1; chr "4"; sp1; liti "more"];
    cats [liti "want"; sp1; liti "5v5"]]).

End Pattern.

(** ** Computations with state and exceptions

    A JavaScript function body reads and writes the module's globals and
    may throw.  What was written before a [throw] stays written, so the
    state is returned on both outcomes. *)

Inductive outcome (A : Type) : Type :=
| Returned (a : A)
| Thrown (e : string).

Arguments Returned {A} a.
Arguments Thrown {A} e.

Definition M (St A : Type) : Type := St -> outcome A * St.

Definition ret {St A} (a : A) : M St A := fun s => (Returned a, s).

Definition throw {St A} (e : string) : M St A := fun s => (Thrown e, s).

Definition bind {St A B} (m : M St A) (k : A -> M St B) : M St B :=
  fun s =>
    match m s with
    | (Returned a, s') => k a s'
    | (Thrown e, s') => (Thrown e, s')
    end.

(** [try { m } catch (e) { h e }] *)
Definition try_catch {St A} (m : M St A) (h : string -> M St A) : M St A :=
  fun s =>
    match m s with
    | (Returned a, s') => (Returned a, s')
    | (Thrown e, s') => h e s'
    end.

(** [try { m } finally { f }], for a [finally] block that does not throw. *)
Definition try_finally {St A} (m : M St A) (f : St -> St) : M St A :=
  fun s => let '(o, s') := m s in (o, f s').

Definition gets {St A} (f : St -> A) : M St A := fun s => (Returned (f s), s).

Definition modify {St} (f : St -> St) : M St unit := fun s => (Returned tt, f s).

Declare Scope js_scope.
Delimit Scope js_scope with js.
Notation "x <- m ;; k" := (bind m (fun x => k))
  (at level 100, m at next level, right associativity) : js_scope.
Notation "m ;; k" := (bind m (fun _ => k))
  (at level 100, right associativity) : js_scope.
#[local] Open Scope js_scope.

Definition when {St} (b : bool) (m : M St unit) : M St unit :=
  if b then m else ret tt.

(** ** The closed category set and the records that travel through the pipeline *)

Inductive Category : Type := OK | FLAG_HATE | FLAG_NSFW | FLAG_BET | FLAG_SPAM.

Definition Category_eqb (a b : Category) : bool :=
  match a, b with
  | OK, OK | FLAG_HATE, FLAG_HATE | FLAG_NSFW, FLAG_NSFW
  | FLAG_BET, FLAG_BET | FLAG_SPAM, FLAG_SPAM => true
  | _, _ => false
  end.

Definition Category_name (c : Category) : string :=
  match c with
  | OK => "OK" | FLAG_HATE => "FLAG_HATE" | FLAG_NSFW => "FLAG_NSFW"
  | FLAG_BET => "FLAG_BET" | FLAG_SPAM => "FLAG_SPAM"
  end.

(** [{ flagged, category }] *)
Record Result : Type := mkResult { flagged : bool; category : Category }.

(** [{ flagged, category, ts }] *)
Record CacheEntry : Type := mkEntry { e_flagged : bool; e_category : Category; e_ts : Z }.

(** [{ strike, reason }] *)
Record Verification : Type := mkVerification { strike : bool; reason : string }.

(** Modelled from the spec: the declaration of the strike table
    (schema.prisma) is missing; a row carries what [createStrike] passes,
    a created timestamp, set when the row is created, and a pardoned flag,
    false at creation. *)
Record Strike : Type := mkStrike {
  s_guildId : string; s_userId : string; s_category : Category;
  s_reason : string; s_messageId : string; s_actorId : string;
  s_createdAt : Z; s_pardoned : bool }.

(** [{ content, ts }] of [recentMessages] *)
Record Recent : Type := mkRecent { r_content : string; r_ts : Z }.

(** The two shapes of request sent to the classification service. *)
Inductive Request : Type :=
| Classify (content : string)
| Verify (content : string) (category : Category).

(** What [openai.chat.completions.create] can do: throw, or return a response
    whose [choices?.[0]?.message?.content] is a string or is missing. *)
Inductive ChatReply : Type :=
| ChatThrows (e : string)
| ChatContent (c : option string).

(** What [openai.responses.create] can do: throw; return a response whose
    [output?.[0]?.content?.[0]?.text || output?.[0]?.content] is a string;
    return one where that value is an array or object, on which [.trim] is
    not a function; or return one where both are missing. *)
Inductive RespReply : Type :=
| RespThrows (e : string)
| RespText (t : string)
| RespNotAString
| RespNothing.

Record Service : Type := mkService {
  chat_completions_create : Request -> ChatReply;
  responses_create : Request -> RespReply }.

Inductive ChannelType : Type :=
| GuildText | GuildForum | PublicThread | PrivateThread | AnnouncementThread | OtherChannel.

Definition is_forum (t : ChannelType) : bool :=
  match t with GuildForum => true | _ => false end.

Definition is_thread (t : ChannelType) : bool :=
  match t with PublicThread | PrivateThread | AnnouncementThread => true | _ => false end.

(** One inbound message, with the facts the handler reads from the platform
    objects hanging off it. *)
Record Message : Type := mkMessage {
  m_id : string;
  m_guild : option string;          (* message.guild?.id *)
  m_author : string;                (* message.author.id *)
  m_author_bot : bool;              (* message.author.bot *)
  m_channel : string;               (* message.channel.id *)
  m_channel_type : ChannelType;
  m_content : string;               (* message.content || '' *)
  m_has_member : bool;              (* message.member is not null *)
  m_is_mod : bool;                  (* the member holds the moderator role *)
  m_is_manager : bool;              (* the member has ManageGuild *)
  m_attachment_urls : list string }.

(** What the handler did to the outside world, in order.  [Log] is a call of
    [logDetailed] with its [event], [action] and [reason] fields. *)
Inductive Effect : Type :=
| Log (event action reason : string)
| ConsoleWarn (text : string)
| ConsoleError (text : string)
| CallChat (req : Request)
| CallResponses (req : Request)
| MessageDelete (id : string)
| SendDM (user : string)
| StrikeInsert (guildId userId : string) (category : Category)
| StrikeCount (guildId userId : string)
| RoleAdd (member role : string)
| RoleRemove (member role : string)
| SetTimeout (delay : Z) (member : string)
| SetupGuild (guildId : string).

(** ** Configuration (the environment variables, parsed) *)

Record Config : Type := mkConfig {
  ADMIN_USER_ID : string;
  SAMPLE_RATE : Q;
  MAX_OPENAI_PER_MIN : Z;
  CONCURRENCY : Z;
  CACHE_TTL_MS : Z;
  PERM_MUTE_THRESHOLD : Z;
  STRIKE_DECAY_DAYS : Z;
  MATCH_CHANNEL_ID : string;
  AD_CHANNEL_ID : string;
  QUARANTINED_ROLE_NAME : string;
  MUTED_ROLE_NAME : string }.

Definition default_config : Config := {|
  ADMIN_USER_ID := "637758147330572349";
  SAMPLE_RATE := 2 # 100;
  MAX_OPENAI_PER_MIN := 600;
  CONCURRENCY := 3;
  CACHE_TTL_MS := 10 * 60 * 1000;
  PERM_MUTE_THRESHOLD := 5;
  STRIKE_DECAY_DAYS := 30;
  MATCH_CHANNEL_ID := "1031429142538895380";
  AD_CHANNEL_ID := "1120271059262906368";
  QUARANTINED_ROLE_NAME := "Quarantined";
  MUTED_ROLE_NAME := "Muted" |}.

(** ** The collaborators: classification service, platform, datastore

    Their behaviour during one run is an input of the model. *)

Record World : Type := mkWorld {
  openai : option Service;          (* null when OPENAI_API_KEY is unset *)
  random : Q;                       (* Math.random() *)
  message_delete_ok : bool;         (* message.delete() succeeds *)
  strike_create_ok : bool;          (* prisma.strike.create succeeds *)
  strike_count_ok : bool;           (* prisma.strike.count succeeds *)
  ensure_muted_role_ok : bool;      (* ensureMutedRole succeeds *)
  roles_add_ok : bool;              (* member.roles.add succeeds *)
  roles_remove_ok : bool;           (* member.roles.remove succeeds *)
  dm_ok : bool;                     (* message.author.send succeeds *)
  has_quarantined_role : bool;      (* the guild has the quarantine role *)
  log_channel_known : bool }.       (* logChannels.has(guild.id) *)

(** ** The module's mutable state

    The globals of the module, the strike table and the roles of the
    members, with the trace of what was done to the outside world.  One
    event is followed to its end: [clock] is what [Date.now()] returns
    throughout, and what other events in flight have done shows only in the
    state the event starts from. *)

Record State : Type := mkState {
  clock : Z;                                    (* what Date.now() returns *)
  windowStart : Z;
  callsThisWindow : Z;
  activeCalls : Z;
  messageCache : gmap string CacheEntry;
  recentMessages : gmap string (list Recent);
  quarantineMap : gmap string Z;
  strikes : list Strike;                        (* the strike table *)
  memberRoles : gset (string * string);         (* (member key, role name) *)
  trace : list Effect }.

Definition set_window (w c : Z) (s : State) : State :=
  mkState (clock s) w c (activeCalls s) (messageCache s) (recentMessages s)
          (quarantineMap s) (strikes s) (memberRoles s) (trace s).

Definition set_activeCalls (a : Z) (s : State) : State :=
  mkState (clock s) (windowStart s) (callsThisWindow s) a (messageCache s)
          (recentMessages s) (quarantineMap s) (strikes s) (memberRoles s) (trace s).

Definition set_messageCache (m : gmap string CacheEntry) (s : State) : State :=
  mkState (clock s) (windowStart s) (callsThisWindow s) (activeCalls s) m
          (recentMessages s) (quarantineMap s) (strikes s) (memberRoles s) (trace s).

Definition set_recentMessages (m : gmap string (list Recent)) (s : State) : State :=
  mkState (clock s) (windowStart s) (callsThisWindow s) (activeCalls s)
          (messageCache s) m (quarantineMap s) (strikes s) (memberRoles s) (trace s).

Definition set_quarantineMap (m : gmap string Z) (s : State) : State :=
  mkState (clock s) (windowStart s) (callsThisWindow s) (activeCalls s)
          (messageCache s) (recentMessages s) m (strikes s) (memberRoles s) (trace s).

Definition set_strikes (l : list Strike) (s : State) : State :=
  mkState (clock s) (windowStart s) (callsThisWindow s) (activeCalls s)
          (messageCache s) (recentMessages s) (quarantineMap s) l (memberRoles s) (trace s).

Definition set_memberRoles (r : gset (string * string)) (s : State) : State :=
  mkState (clock s) (windowStart s) (callsThisWindow s) (activeCalls s)
          (messageCache s) (recentMessages s) (quarantineMap s) (strikes s) r (trace s).

Definition set_trace (t : list Effect) (s : State) : State :=
  mkState (clock s) (windowStart s) (callsThisWindow s) (activeCalls s)
          (messageCache s) (recentMessages s) (quarantineMap s) (strikes s)
          (memberRoles s) t.

Definition emit (e : Effect) : M State unit :=
  modify (fun s => set_trace (trace s ++ [e]) s).

Definition Date_now : M State Z := gets clock.

(** [logDetailed] wraps its whole body in [try]/[catch] and never throws. *)
Definition logDetailed (event action reason : string) : M State unit :=
  emit (Log event action reason).

Definition SPAM_WINDOW_MS : Z := 10 * 1000.
Definition SPAM_THRESHOLD : Z := 5.
Definition REPEAT_THRESHOLD : Z := 3.
Definition AUTO_MUTE_MINUTES : Z := 10.

Definition ok_result : Result := mkResult false OK.

Section Bot.

Variable cfg : Config.
Variable world : World.

(** ** Rate window and cache *)

Definition cacheGet (content : string) : M State (option CacheEntry) :=
  e <- gets (fun s => messageCache s !! content) ;;
  match e with
  | None => ret None
  | Some e =>
      now <- Date_now ;;
      if CACHE_TTL_MS cfg <? now - e_ts e then
        modify (fun s => set_messageCache (delete content (messageCache s)) s) ;;
        ret None
      else ret (Some e)
  end.

Definition cacheSet (content : string) (flagged : bool) (category : Category)
  : M State unit :=
  now <- Date_now ;;
  modify (fun s =>
    set_messageCache (<[content := mkEntry flagged category now]> (messageCache s)) s).

Definition allowOpenAICall : M State bool :=
  now <- Date_now ;;
  ws <- gets windowStart ;;
  when (60000 <=? now - ws) (modify (set_window now 0)) ;;
  calls <- gets callsThisWindow ;;
  if MAX_OPENAI_PER_MIN cfg <=? calls then ret false
  else
    modify (fun s => set_window (windowStart s) (callsThisWindow s + 1) s) ;;
    ret true.

(** ** Talking to the classification service

    Both callers try [chat.completions] first and [responses] second, each
    inside its own [try]; [None] is the case where the second attempt
    threw as well, which each caller turns into its early return. *)

Definition requestRaw (svc : Service) (req : Request) (complaint : string)
  : M State (option string) :=
  emit (CallChat req) ;;
  match chat_completions_create svc req with
  | ChatContent (Some c) => ret (Some (Js.trim c))
  | ChatContent None => ret (Some "")
  | ChatThrows _ =>
      emit (CallResponses req) ;;
      match responses_create svc req with
      | RespText t => ret (Some (Js.trim t))
      | RespNothing => ret (Some "")
      | RespNotAString | RespThrows _ =>
          emit (ConsoleError complaint) ;;
          ret None
      end
  end.

(** ** The classification gateway *)

(** The ladder of [includes] tests on the upper-cased reply; the second
    component tells which warning, if any, is printed. *)
Definition mapCategory (raw : string) : Category * option string :=
  let out := Js.toUpperCase raw in
  if Js.includes out "FLAG_HATE" then (FLAG_HATE, None)
  else if Js.includes out "FLAG_NSFW" then (FLAG_NSFW, None)
  else if Js.includes out "FLAG_BET" then (FLAG_BET, None)
  else if Js.includes out "FLAG_SPAM" then (FLAG_SPAM, None)
  else if String.eqb out "OK" || Js.includes out " OK" then (OK, None)
  else if Js.includes out "FLAG" then
    (FLAG_SPAM, Some "OpenAI returned ambiguous FLAG token:")
  else (OK, Some "Unexpected moderation output (no token recognized):").

Definition classify (content : string) (svc : Service) : M State Result :=
  raw <- requestRaw svc (Classify content) "OpenAI both API attempts failed:" ;;
  match raw with
  | None => cacheSet content false OK ;; ret ok_result
  | Some raw =>
      let '(category, warning) := mapCategory raw in
      match warning with Some w => emit (ConsoleWarn w) | None => ret tt end ;;
      let flagged := negb (Category_eqb category OK) in
      cacheSet content flagged category ;;
      ret (mkResult flagged category)
  end.

(** [performOpenAICall] with the body of its [try] block left open, so
    that the [catch] can be studied against any body. *)
Definition performOpenAICall_with (body : string -> Service -> M State Result)
    (content : string) : M State Result :=
  cached <- cacheGet content ;;
  match cached with
  | Some e => ret (mkResult (e_flagged e) (e_category e))
  | None =>
      allowed <- allowOpenAICall ;;
      if negb allowed then
        emit (ConsoleWarn "OpenAI rate cap reached; skipping check for content.") ;;
        cacheSet content false OK ;;
        ret ok_result
      else
        match openai world with
        | None => cacheSet content false OK ;; ret ok_result
        | Some svc =>
            try_catch (body content svc)
              (fun err =>
                 emit (ConsoleError "OpenAI call error:") ;;
                 cacheSet content false OK ;;
                 ret ok_result)
        end
  end.

Definition performOpenAICall : string -> M State Result :=
  performOpenAICall_with classify.

(** ** The adjudication step *)

Definition nonempty_lines (raw : string) : list string :=
  filter (fun l => Js.truthy l = true) (map Js.trim (Js.split_lines raw)).

Definition parseVerification (raw : string) : Verification :=
  let lines := nonempty_lines raw in
  let first := Js.toUpperCase (hd "" lines) in
  let joined := Js.take 200 (Js.join " " (tl lines)) in
  let second := if Js.truthy joined then joined else "No reason provided" in
  if Js.includes first "STRIKE" then mkVerification true second
  else if Js.includes first "NO_STRIKE" then mkVerification false second
  else mkVerification false
         ("ambiguous_verification_response_lenient: " ++ Js.take 200 raw).

Definition verifyStrikeDecision (content : string) (category : Category)
  : M State Verification :=
  match openai world with
  | None => ret (mkVerification false "verification_unavailable_no_openai_lenient")
  | Some svc =>
      allowed <- allowOpenAICall ;;
      if negb allowed then
        ret (mkVerification false "verification_unavailable_rate_limited_lenient")
      else
        try_catch
          (raw <- requestRaw svc (Verify content category)
                    "OpenAI verification both API attempts failed:" ;;
           match raw with
           | None => ret (mkVerification false "verification_failed_both_calls_lenient")
           | Some raw => ret (parseVerification raw)
           end)
          (fun err =>
             emit (ConsoleError "verifyStrikeDecision error") ;;
             ret (mkVerification false "verification_exception_lenient"))
  end.

(** ** Strike store and mutes *)

Definition member_key (guildId userId : string) : string := guildId ++ ":" ++ userId.

Definition createStrike (guildId userId : string) (category : Category)
    (reason messageId actorId : string) : M State unit :=
  emit (StrikeInsert guildId userId category) ;;
  if strike_create_ok world then
    now <- Date_now ;;
    modify (fun s =>
      set_strikes (strikes s ++
        [mkStrike guildId userId category reason messageId actorId now false]) s)
  else throw "prisma.strike.create failed".

Definition is_active (guildId userId : string) (cutoff : Z) (k : Strike) : bool :=
  String.eqb (s_guildId k) guildId && String.eqb (s_userId k) userId &&
  negb (s_pardoned k) && (cutoff <? s_createdAt k).

Definition active_count (guildId userId : string) (cutoff : Z) (l : list Strike) : Z :=
  Z.of_nat (List.length (List.filter (is_active guildId userId cutoff) l)).

Definition countActiveStrikes (guildId userId : string) : M State Z :=
  now <- Date_now ;;
  let cutoff := now - STRIKE_DECAY_DAYS cfg * 24 * 60 * 60 * 1000 in
  emit (StrikeCount guildId userId) ;;
  if strike_count_ok world then
    gets (fun s => active_count guildId userId cutoff (strikes s))
  else throw "prisma.strike.count failed".

Definition ensureMutedRole : M State string :=
  if ensure_muted_role_ok world then ret (MUTED_ROLE_NAME cfg)
  else throw "ensureMutedRole failed".

Definition roles_add (member role : string) : M State unit :=
  emit (RoleAdd member role) ;;
  if roles_add_ok world then
    modify (fun s => set_memberRoles ({[ (member, role) ]} ∪ memberRoles s) s)
  else throw "member.roles.add failed".

Definition roles_has (member role : string) : M State bool :=
  gets (fun s => bool_decide ((member, role) ∈ memberRoles s)).

(** [member] is [None] when [message.member] is null: reading
    [member.guild] then throws. *)
Definition muteMember (member : option string) (minutes : Z) (reason : string)
  : M State unit :=
  match member with
  | None => throw "TypeError: Cannot read properties of null (reading 'guild')"
  | Some m =>
      role <- ensureMutedRole ;;
      try_catch
        (roles_add m role ;;
         logDetailed "member.muted" "" reason ;;
         emit (SetTimeout (minutes * 60 * 1000) m))
        (fun e => logDetailed "member.mute_failed" "" "")
  end.

Definition muteMemberForever (member : option string) (reason : string)
  : M State unit :=
  match member with
  | None => throw "TypeError: Cannot read properties of null (reading 'guild')"
  | Some m =>
      try_catch
        (role <- ensureMutedRole ;;
         has <- roles_has m role ;;
         if negb has then
           roles_add m role ;;
           logDetailed "member.muted_forever" "" ""
         else logDetailed "member.already_muted_forever" "" "")
        (fun e => logDetailed "member.mute_forever_failed" "" "")
  end.

Definition msg_guild (msg : Message) : string := default "" (m_guild msg).

Definition msg_member (msg : Message) : option string :=
  if m_has_member msg then Some (member_key (msg_guild msg) (m_author msg)) else None.

Definition decideAndApplyStrike (msg : Message) (category : Category)
  : M State unit :=
  let guildId := msg_guild msg in
  try_catch
    (verification <- verifyStrikeDecision (m_content msg) category ;;
     logDetailed "openai.verification" "" (reason verification) ;;
     if strike verification then
       try_catch
         (createStrike guildId (m_author msg) category
            "auto-moderation - message flagged (verified)" (m_id msg) "bot" ;;
          count <- countActiveStrikes guildId (m_author msg) ;;
          logDetailed "strike.recorded" "" (reason verification) ;;
          if PERM_MUTE_THRESHOLD cfg <=? count then
            muteMemberForever (msg_member msg) "Reached strikes (permanent mute)"
          else if Category_eqb category FLAG_HATE || Category_eqb category FLAG_NSFW then
            muteMember (msg_member msg) (AUTO_MUTE_MINUTES * 3) "Auto-mute"
          else ret tt)
         (fun e => logDetailed "strike.create_failed" "" "")
     else
       logDetailed "strike.skipped_by_verification" "" (reason verification))
    (fun e => logDetailed "verification_flow_failed_lenient" "" "").

(** ** The policy prefilter *)

Definition Qlt_bool (a b : Q) : bool := negb (Qle_bool b a).

Definition Qmax (a b : Q) : Q := if Qle_bool a b then b else a.

Definition shouldCheckByPolicy (content : string) (channelType : ChannelType) : bool :=
  if negb (Js.truthy content) || negb (Js.truthy (Js.trim content)) then false
  else
    let c := Js.trim content in
    if (Js.length c <=? 20) && Re.test Pattern.AFFIRMATION_REGEX c then false
    else if Re.test Pattern.BETTING_SIGNAL_REGEX c then true
    else if Re.test Pattern.BETTING_LIKELY_REGEX c then true
    else if Re.test Pattern.NSFW_REGEX c || Re.test Pattern.HATE_REGEX c then true
    else if (120 <? Js.length c) && Re.test Pattern.SPAM_LINKS_REGEX c then true
    else if is_forum channelType then
      Qlt_bool (random world) (Qmax (1 # 1000) (SAMPLE_RATE cfg / 4))
    else Qlt_bool (random world) (SAMPLE_RATE cfg).

(** The allowlist test that every consumer of a hate flag repeats:
    [hasAllow && !hasSevere] on the lower-cased text. *)
Definition allowlisted_only (content : string) : bool :=
  let low := Js.toLowerCase content in
  let hasAllow := existsb (Js.includes low) Pattern.HATE_ALLOWLIST in
  let hasSevere := Re.test Pattern.HATE_REGEX low in
  hasAllow && negb hasSevere.

(** ** Flood detection *)

Fixpoint drop_old (now : Z) (arr : list Recent) : list Recent :=
  match arr with
  | x :: arr' => if SPAM_WINDOW_MS <? now - r_ts x then drop_old now arr' else arr
  | [] => []
  end.

Definition addRecentMessage (guildId userId content : string) : M State (list Recent) :=
  let key := member_key guildId userId in
  now <- Date_now ;;
  old <- gets (fun s => default [] (recentMessages s !! key)) ;;
  let arr := drop_old now (old ++ [mkRecent content now]) in
  modify (fun s => set_recentMessages (<[key := arr]> (recentMessages s)) s) ;;
  ret arr.

(** [freq] is a plain object: for a key that [Object.prototype] already
    answers, [(freq[k] || 0) + 1] is a string and never compares [>= 3]. *)
Definition inherited_keys : list string :=
  ["constructor"; "toString"; "valueOf"; "hasOwnProperty"; "isPrototypeOf";
   "propertyIsEnumerable"; "toLocaleString"; "__proto__"; "__defineGetter__";
   "__defineSetter__"; "__lookupGetter__"; "__lookupSetter__"].

Fixpoint repeat_loop (freq : gmap string Z) (arr : list Recent) : bool :=
  match arr with
  | [] => false
  | m :: arr' =>
      if existsb (String.eqb (r_content m)) inherited_keys then repeat_loop freq arr'
      else
        let n := default 0 (freq !! r_content m) + 1 in
        if REPEAT_THRESHOLD <=? n then true
        else repeat_loop (<[r_content m := n]> freq) arr'
  end.

Definition checkSpam (arr : list Recent) : bool :=
  if SPAM_THRESHOLD <=? Z.of_nat (List.length arr) then true
  else repeat_loop ∅ arr.

(** ** The [messageCreate] handler *)

Definition message_delete (msg : Message) : M State unit :=
  emit (MessageDelete (m_id msg)) ;;
  if message_delete_ok world then ret tt else throw "Unknown Message".

Definition sendDM (msg : Message) : M State unit := emit (SendDM (m_author msg)).

(** [try { await message.delete(); } catch (e) { log delete_failed }] *)
Definition delete_or_log (msg : Message) : M State unit :=
  try_catch (message_delete msg)
    (fun e => logDetailed "message.process" "delete_failed" "").

(** [try { await message.delete(); log deleted } catch (e) { log delete_failed }] *)
Definition delete_and_log (msg : Message) (reason : string) : M State unit :=
  try_catch (message_delete msg ;; logDetailed "message.process" "deleted" reason)
    (fun e => logDetailed "message.process" "delete_failed" "").

(** The matchmaking channel block; [true] when the handler returns inside it. *)
Definition matchChannelGate (msg : Message) : M State bool :=
  if String.eqb (m_channel msg) (MATCH_CHANNEL_ID cfg) then
    if m_is_mod msg || m_is_manager msg || String.eqb (m_author msg) (ADMIN_USER_ID cfg) then
      logDetailed "match_channel.bypass_mod" "" "" ;; ret false
    else
      let txt := Js.trim (m_content msg) in
      if Re.test Pattern.MATCH_ALLOWED_PREFIX_REGEX txt then
        logDetailed "match_channel.allowed" "" "" ;; ret false
      else if Re.test Pattern.MATCH_HEURISTIC_REGEX txt then
        logDetailed "match_channel.allowed_heuristic" "" "" ;; ret false
      else
        delete_and_log msg "match_channel.non_matchmaking" ;;
        sendDM msg ;;
        ret true
  else ret false.

Definition SEVENTY_TWO_HOURS : Z := 72 * 60 * 60 * 1000.

(** What the quarantine branch does with a flagged result. *)
Definition quarantineEnforce (msg : Message) (c : Category) (reason : string)
  : M State unit :=
  delete_or_log msg ;;
  decideAndApplyStrike msg c ;;
  logDetailed "message.process" "deleted" reason ;;
  sendDM msg.

Definition quarantineBranch (msg : Message) : M State unit :=
  let guildId := msg_guild msg in
  let key := member_key guildId (m_author msg) in
  now <- Date_now ;;
  stored <- gets (fun s => quarantineMap s !! key) ;;
  let ts := match stored with
            | Some t => if t =? 0 then now else t
            | None => now
            end in
  if now - ts <? SEVENTY_TWO_HOURS then
    logDetailed "quarantine.monitor" "" "" ;;
    cached <- cacheGet (m_content msg) ;;
    match cached with
    | Some e =>
        if e_flagged e && Category_eqb (e_category e) FLAG_HATE
           && allowlisted_only (m_content msg) then
          logDetailed "hate_allowlist_quarantine" "" ""
        else if e_flagged e then
          quarantineEnforce msg (e_category e) ("cache_" ++ Category_name (e_category e))
        else ret tt
    | None =>
        allowed <- allowOpenAICall ;;
        if allowed then
          try_catch
            (res <- performOpenAICall (m_content msg) ;;
             logDetailed "openai.call.end" "" "Quarantine monitoring" ;;
             if flagged res && Category_eqb (category res) FLAG_HATE
                && allowlisted_only (m_content msg) then
               logDetailed "hate_allowlist_quarantine" "" ""
             else if flagged res then
               quarantineEnforce msg (category res) (Category_name (category res))
             else ret tt)
            (fun e => logDetailed "quarantine.openai_error" "" "")
        else logDetailed "openai.rate_limited" "" ""
    end
  else
    try_catch
      (has <- roles_has key (QUARANTINED_ROLE_NAME cfg) ;;
       when has
         (emit (RoleRemove key (QUARANTINED_ROLE_NAME cfg)) ;;
          (if roles_remove_ok world then
             modify (fun s =>
               set_memberRoles (memberRoles s ∖ {[ (key, QUARANTINED_ROLE_NAME cfg) ]}) s)
           else throw "member.roles.remove failed") ;;
          modify (fun s => set_quarantineMap (delete key (quarantineMap s)) s) ;;
          logDetailed "role.remove" "" "Quarantine expired (message triggered)"))
      (fun e => logDetailed "role.remove_failed" "" "").

(** The flood branch: delete, timed mute, and a strike without adjudication. *)
Definition spamBranch (msg : Message) : M State unit :=
  let guildId := msg_guild msg in
  delete_or_log msg ;;
  logDetailed "message.process" "deleted" "spam_detection" ;;
  muteMember (msg_member msg) AUTO_MUTE_MINUTES "Auto-mute: spam/flooding" ;;
  try_catch
    (createStrike guildId (m_author msg) FLAG_SPAM "spam_detection" (m_id msg) "bot" ;;
     count <- countActiveStrikes guildId (m_author msg) ;;
     logDetailed "strike.recorded" "" "" ;;
     if PERM_MUTE_THRESHOLD cfg <=? count then
       muteMemberForever (msg_member msg) "Reached strikes (permanent mute)"
     else ret tt)
    (fun e => logDetailed "strike.error" "" "").

(** What the regular branch does with a flagged result. *)
Definition enforce (msg : Message) (c : Category) (reason : string) : M State unit :=
  delete_and_log msg reason ;;
  sendDM msg ;;
  decideAndApplyStrike msg c.

(** A call that found no free slot is queued; [processQueue] runs it when
    a slot is free again, taking and giving back the slot, and resolves to
    OK when the call rejects.  One event is followed to its end here, so
    the wait itself does not appear. *)
Definition enqueueOpenAICall (content : string) : M State Result :=
  modify (fun s => set_activeCalls (activeCalls s + 1) s) ;;
  try_finally
    (try_catch (performOpenAICall content) (fun e => ret ok_result))
    (fun s => set_activeCalls (activeCalls s - 1) s).

(** The call itself: through a free slot, or through the queue. *)
Definition obtainResult (content : string) : M State Result :=
  active <- gets activeCalls ;;
  if active <? CONCURRENCY cfg then
    modify (fun s => set_activeCalls (activeCalls s + 1) s) ;;
    logDetailed "openai.call.start" "" "Starting OpenAI call" ;;
    r <- try_finally (performOpenAICall content)
           (fun s => set_activeCalls (activeCalls s - 1) s) ;;
    logDetailed "openai.call.end" "" "OpenAI call finished" ;;
    ret r
  else
    logDetailed "openai.enqueue" "" "Enqueuing OpenAI call" ;;
    r <- enqueueOpenAICall content ;;
    logDetailed "openai.enqueue_result" "" "Enqueue result" ;;
    ret r.

Definition precheck_reason (msg : Message) (shouldCheck : bool) : string :=
  let content := m_content msg in
  let hasAttachment := negb (Nat.eqb (List.length (m_attachment_urls msg)) 0) in
  let nsfwPrefilter :=
    Re.test Pattern.NSFW_REGEX content ||
    (hasAttachment && Re.test Pattern.SPAM_LINKS_REGEX (Js.join " " (m_attachment_urls msg))) in
  let hatePrefilter := Re.test Pattern.HATE_REGEX content in
  let bettingPrefilter :=
    Re.test Pattern.BETTING_SIGNAL_REGEX content ||
    Re.test Pattern.BETTING_LIKELY_REGEX content in
  if negb shouldCheck then
    if is_forum (m_channel_type msg) then "skipped_by_sampling_forum"
    else "skipped_by_sampling"
  else if bettingPrefilter || nsfwPrefilter || hatePrefilter
          || Re.test Pattern.SPAM_LINKS_REGEX content then "keyword_matched"
  else "sampled".

Definition classifyBranch (msg : Message) : M State unit :=
  let content := m_content msg in
  cached <- cacheGet content ;;
  match cached with
  | Some e =>
      logDetailed "cache.hit" "" "cache hit" ;;
      if e_flagged e && Category_eqb (e_category e) FLAG_HATE
         && allowlisted_only content then
        logDetailed "hate_allowlist_cache" "" ""
      else if e_flagged e then
        enforce msg (e_category e) ("cache_" ++ Category_name (e_category e))
      else ret tt
  | None =>
      let shouldCheck := shouldCheckByPolicy content (m_channel_type msg) in
      logDetailed "precheck" "" (precheck_reason msg shouldCheck) ;;
      if negb shouldCheck then ret tt
      else
        match openai world with
        | None => logDetailed "openai.missing" "" "OpenAI missing - skip moderation"
        | Some _ =>
            allowed <- allowOpenAICall ;;
            if negb allowed then
              logDetailed "rate_limit" "" "Rate limit reached - skip moderation"
            else
              try_catch
                (result <- obtainResult content ;;
                 let downgrade :=
                   flagged result && Category_eqb (category result) FLAG_HATE
                   && allowlisted_only content in
                 when downgrade (logDetailed "hate_allowlist" "" "") ;;
                 let result := if downgrade then mkResult false OK else result in
                 if flagged result then
                   enforce msg (category result) (Category_name (category result))
                 else
                   logDetailed "message.allowed" "" "Message allowed by moderation")
                (fun e => logDetailed "moderation_error" "" "")
        end
  end.

(** Everything after the matchmaking block, for a member who is not
    quarantined: flood detection first, unless the channel is a forum or
    a thread, then cache and classification. *)
Definition regularBranch (msg : Message) : M State unit :=
  let t := m_channel_type msg in
  if negb (is_forum t) && negb (is_thread t) then
    arr <- addRecentMessage (msg_guild msg) (m_author msg)
             (if Js.truthy (m_content msg) then m_content msg else "<embed/attachment>") ;;
    if checkSpam arr then spamBranch msg else classifyBranch msg
  else
    logDetailed "spam_check.skipped" "" "forum_or_thread" ;;
    classifyBranch msg.

Definition onMessageCreate (msg : Message) : M State unit :=
  match m_guild msg with
  | None => ret tt
  | Some guildId =>
      if m_author_bot msg then ret tt
      else if String.eqb (m_author msg) (ADMIN_USER_ID cfg) then
        logDetailed "message.bypass_admin" "" ""
      else
        when (negb (log_channel_known world)) (emit (SetupGuild guildId)) ;;
        isQuarantined <-
          (if has_quarantined_role world && m_has_member msg then
             roles_has (member_key guildId (m_author msg)) (QUARANTINED_ROLE_NAME cfg)
           else ret false) ;;
        logDetailed "message.received" "" "" ;;
        if String.eqb (m_channel msg) (AD_CHANNEL_ID cfg) then
          logDetailed "ad_channel.allowed" "" ""
        else
          stop <- matchChannelGate msg ;;
          if stop then ret tt
          else if isQuarantined then quarantineBranch msg
          else regularBranch msg
  end.

End Bot.

(** The state right after the module is loaded at time [now]. *)
Definition initial_state (now : Z) : State :=
  mkState now now 0 0 ∅ ∅ ∅ [] ∅ [].


(** ** Ticket creation *)

Module Ticket.

(** A row of the ticket table, as [createTicketRow] writes it. *)
Record Row : Type := mkRow {
  channelId : string; guildId : string; ownerId : string;
  subject : string; closedAt : option Z }.

(** What [prisma.ticket.create] can do.  An error carries its [code] and
    whether [meta.target] is an array. *)
Inductive InsertOutcome : Type :=
| Inserted
| DbError (code : string) (target_is_array : bool).

Inductive Event : Type :=
| TLog (event : string)
| ChannelCreate (id : string)
| ChannelDelete (id : string)
| ChannelSend (id : string)
| RowInsert (channel : string)
| RowClose (channel : string)
| LockSet (key : string)
| LockRelease (key : string)
| LockTimer (key : string) (delay : Z).

Record TState : Type := mkTState {
  ticketCreationLocks : gset string;          (* keys with a live lock *)
  rows : list Row;                            (* the ticket table *)
  channels : gset string;                     (* channels of the guild *)
  categoryOf : gmap string string;            (* guildConfig.ticketCategoryId *)
  events : list Event }.

Definition set_locks (l : gset string) (s : TState) : TState :=
  mkTState l (rows s) (channels s) (categoryOf s) (events s).
Definition set_rows (r : list Row) (s : TState) : TState :=
  mkTState (ticketCreationLocks s) r (channels s) (categoryOf s) (events s).
Definition set_channels (c : gset string) (s : TState) : TState :=
  mkTState (ticketCreationLocks s) (rows s) c (categoryOf s) (events s).
Definition set_categoryOf (c : gmap string string) (s : TState) : TState :=
  mkTState (ticketCreationLocks s) (rows s) (channels s) c (events s).
Definition set_events (e : list Event) (s : TState) : TState :=
  mkTState (ticketCreationLocks s) (rows s) (channels s) (categoryOf s) e.

(** The collaborators during one call.  Other requests make progress while
    this one awaits: [lock_holder] is what the holder of the lock does to
    the table and the channels before it releases, [meanwhile] what other
    writers do to them while the platform creates the channel. *)
Record TWorld : Type := mkTWorld {
  new_channel : string;
  new_category : string;
  channel_create_ok : bool;
  channel_delete_ok : bool;
  channel_send_ok : bool;
  mod_notice_ok : bool;             (* modLogCh.send succeeds, when it is called *)
  find_ok : bool;
  insert : list Row -> Row -> InsertOutcome;
  lock_holder : list Row * gset string -> list Row * gset string;
  meanwhile : list Row * gset string -> list Row * gset string;
  row_close_ok : bool;              (* the update of the pre-check succeeds *)
  config_upsert_ok : bool }.        (* prisma.guildConfig.upsert succeeds *)

Definition TICKET_CREATION_LOCK_TTL_MS : Z := 30 * 1000.

Section Create.

Variable w : TWorld.

Definition note (e : Event) : M TState unit :=
  modify (fun s => set_events (events s ++ [e]) s).

Definition interfere (f : list Row * gset string -> list Row * gset string)
  : M TState unit :=
  modify (fun s =>
    let '(r, c) := f (rows s, channels s) in set_channels c (set_rows r s)).

Definition is_open_of (g o : string) (r : Row) : bool :=
  String.eqb (guildId r) g && String.eqb (ownerId r) o &&
  match closedAt r with None => true | Some _ => false end.

(** [prisma.ticket.findFirst({ where: { guildId, ownerId, closedAt: null } })] *)
Definition getOpenTicketByOwner (g o : string) : M TState (option Row) :=
  if find_ok w then gets (fun s => List.find (is_open_of g o) (rows s))
  else throw "prisma.ticket.findFirst failed".

(** [getOpenTicketByOwner(...).catch(() => null)] *)
Definition getOpenTicketByOwner_or_null (g o : string) : M TState (option Row) :=
  try_catch (getOpenTicketByOwner g o) (fun _ => ret None).

(** [guild.channels.cache.get(id) || await guild.channels.fetch(id).catch(() => null)] *)
Definition resolveChannel (id : string) : M TState (option string) :=
  gets (fun s => if bool_decide (id ∈ channels s) then Some id else None).

Definition createTicketRow (r : Row) : M TState InsertOutcome :=
  note (RowInsert (channelId r)) ;;
  table <- gets rows ;;
  match insert w table r with
  | Inserted => modify (fun s => set_rows (rows s ++ [r]) s) ;; ret Inserted
  | DbError c t => ret (DbError c t)
  end.

Definition closeTicketRow (id : string) (now : Z) : M TState unit :=
  note (RowClose id) ;;
  modify (fun s =>
    set_rows (map (fun r => if String.eqb (channelId r) id
                            then mkRow (channelId r) (guildId r) (ownerId r)
                                       (subject r) (Some now)
                            else r) (rows s)) s).

Definition channels_create (id : string) : M TState string :=
  note (ChannelCreate id) ;;
  if channel_create_ok w then
    modify (fun s => set_channels ({[ id ]} ∪ channels s) s) ;; ret id
  else throw "guild.channels.create failed".

Definition channel_delete (id : string) : M TState unit :=
  note (ChannelDelete id) ;;
  if channel_delete_ok w then
    modify (fun s => set_channels (channels s ∖ {[ id ]}) s)
  else throw "channel.delete failed".

(** Sending into a channel that is gone fails like any other send failure. *)
Definition channel_send (id : string) : M TState unit :=
  note (ChannelSend id) ;;
  present <- gets (fun s => bool_decide (id ∈ channels s)) ;;
  if channel_send_ok w && present then ret tt else throw "Unknown Channel".

Definition isUniqueErr (code : string) (target_is_array : bool) : bool :=
  String.eqb code "P2002" || String.eqb code "23505" || target_is_array.

(** The part of [createTicketChannel] before the lock is taken: wait for
    a lock that is held, then look for the ticket its holder made. *)
Definition waitForLock (lockKey g o : string) : M TState (option string) :=
  held <- gets (fun s => bool_decide (lockKey ∈ ticketCreationLocks s)) ;;
  if held then
    interfere (lock_holder w) ;;
    modify (fun s => set_locks (ticketCreationLocks s ∖ {[ lockKey ]}) s) ;;
    existingAfter <- getOpenTicketByOwner_or_null g o ;;
    match existingAfter with
    | Some r =>
        if Js.truthy (channelId r) then resolveChannel (channelId r) else ret None
    | None => ret None
    end
  else ret None.

(** The [catch (dbErr)] of the insert; [Some c] is an early [return c]. *)
Definition onInsertError (g o subj channel code : string) (target : bool)
  : M TState (option string) :=
  if isUniqueErr code target then
    note (TLog "ticket.db_unique_violation") ;;
    existing <- getOpenTicketByOwner_or_null g o ;;
    found <-
      match existing with
      | Some r =>
          if Js.truthy (channelId r) && negb (String.eqb (channelId r) channel) then
            try_catch (channel_delete channel)
              (fun e => note (TLog "ticket.channel_delete_failed")) ;;
            resolveChannel (channelId r)
          else ret None
      | None => ret None
      end ;;
    match found with
    | Some c => ret (Some c)
    | None =>
        again <- createTicketRow (mkRow channel g o subj None) ;;
        match again with
        | Inserted => ret None
        | DbError _ _ => note (TLog "ticket.create_after_unique_failed") ;; ret None
        end
    end
  else
    note (TLog "ticket.create_db_error") ;;
    throw ("db error " ++ code).

(** The [try] block of [createTicketChannel].  [getGuildConfig] is a
    look-up in the state; the update of the pre-check, whose failure the
    source swallows, and [upsertGuildConfig] fail when the world says
    so. *)
Definition createBody (g o subj : string) (now : Z) : M TState string :=
  open <- getOpenTicketByOwner g o ;;
  early <-
    match open with
    | Some r =>
        if Js.truthy (channelId r) then
          ch <- resolveChannel (channelId r) ;;
          match ch with
          | Some c => note (TLog "ticket.open_exists") ;; ret (Some c)
          | None =>
              try_catch
                (if row_close_ok w then closeTicketRow (channelId r) now
                 else throw "prisma.ticket.update failed")
                (fun e => ret tt) ;;
              ret None
          end
        else ret None
    | None => ret None
    end ;;
  match early with
  | Some c => ret c
  | None =>
      cfgCategory <- gets (fun s => categoryOf s !! g) ;;
      category <-
        match cfgCategory with
        | Some c => resolveChannel c
        | None => ret None
        end ;;
      match category with
      | Some _ => ret tt
      | None =>
          c <- channels_create (new_category w) ;;
          if config_upsert_ok w then
            modify (fun s => set_categoryOf (<[g := c]> (categoryOf s)) s)
          else throw "prisma.guildConfig.upsert failed"
      end ;;
      channel <- channels_create (new_channel w) ;;
      interfere (meanwhile w) ;;
      res <- createTicketRow (mkRow channel g o subj None) ;;
      recovered <-
        match res with
        | Inserted => ret None
        | DbError code target => onInsertError g o subj channel code target
        end ;;
      match recovered with
      | Some c => ret c
      | None =>
          channel_send channel ;;
          note (TLog "ticket.opened") ;;
          (if mod_notice_ok w then ret tt else throw "modLogCh.send failed") ;;
          ret channel
      end
  end.

Definition createTicketChannel (g o subj : string) (now : Z) : M TState string :=
  let lockKey := g ++ ":" ++ o in
  waited <- waitForLock lockKey g o ;;
  match waited with
  | Some c => ret c
  | None =>
      note (LockTimer lockKey TICKET_CREATION_LOCK_TTL_MS) ;;
      note (LockSet lockKey) ;;
      modify (fun s => set_locks ({[ lockKey ]} ∪ ticketCreationLocks s) s) ;;
      try_finally
        (try_catch (createBody g o subj now)
           (fun e => note (TLog "ticket.create_failed") ;; throw e))
        (fun s =>
           if bool_decide (lockKey ∈ ticketCreationLocks s) then
             set_events (events s ++ [LockRelease lockKey])
               (set_locks (ticketCreationLocks s ∖ {[ lockKey ]}) s)
           else s)
  end.

End Create.

End Ticket.

(** ** The timer of a timed mute *)

(** The callback [muteMember] hands to [setTimeout]: remove the muted
    role, a failure of the removal being swallowed, and log. *)
Definition muteTimerFires (cfg : Config) (world : World) (member : string)
  : M State unit :=
  try_catch
    (emit (RoleRemove member (MUTED_ROLE_NAME cfg)) ;;
     (if roles_remove_ok world then
        modify (fun s =>
          set_memberRoles (memberRoles s ∖ {[ (member, MUTED_ROLE_NAME cfg) ]}) s)
      else ret tt) ;;
     logDetailed "member.unmuted" "" "")
    (fun e => logDetailed "member.unmute_failed" "" "").

(** ** The DM queue *)

Module Dm.

(** What a rejected [target.send] carries: the text
    [e?.message || String(e)], and [e?.code] and [e?.status] when they
    are numbers. *)
Record SendError : Type := mkSendError {
  e_message : string; e_code : option Z; e_status : option Z }.

Inductive SendOutcome : Type :=
| Sent
| Rejected (e : SendError).

Inductive DmEvent : Type :=
| Sleep (ms : Z)
| Send (target : string) (at_time : Z)
| DmLog (event : string).

Record DmState : Type := mkDmState {
  now : Z;
  lastDmToUser : gmap string Z;
  done : list DmEvent }.

(** [await new Promise((r) => setTimeout(r, ms))] *)
Definition sleep (ms : Z) : M DmState unit :=
  modify (fun s => mkDmState (now s + ms) (lastDmToUser s) (done s ++ [Sleep ms])).

Definition record (e : DmEvent) : M DmState unit :=
  modify (fun s => mkDmState (now s) (lastDmToUser s) (done s ++ [e])).

(** How an item of the queue ends: [item.resolve] is called with a
    boolean, or the loop is left without calling it. *)
Inductive Ending : Type :=
| Resolved (ok : bool)
| NeverResolved.

Definition DM_BACKOFF_BASE_MS : Z := 800.

Definition isRate (e : SendError) : bool :=
  Js.includes (e_message e) "You are opening direct messages too fast" ||
  match e_code e with Some c => c =? 50007 | None => false end ||
  match e_status e with Some c => c =? 429 | None => false end.

Section Queue.

(** What the [n]th attempt for the item does, and how long it takes. *)
Variable attempt : nat -> Z * SendOutcome.

(** [target.send(payload)]: time passes, then it returns or throws. *)
Definition target_send (target : string) (tries : nat) : M DmState SendOutcome :=
  t <- gets now ;;
  record (Send target t) ;;
  modify (fun s => mkDmState (now s + fst (attempt tries)) (lastDmToUser s) (done s)) ;;
  ret (snd (attempt tries)).

(** The inner [while (tries <= item.maxRetries)] of [processDmQueue];
    [None] when [fuel] iterations were not enough. *)
Fixpoint attempts (fuel : nat) (target : string) (maxRetries tries : nat)
  : M DmState (option Ending) :=
  match fuel with
  | O => ret None
  | S fuel' =>
      if (tries <=? maxRetries)%nat then
        t <- gets now ;;
        last <- gets (fun s => default 0 (lastDmToUser s !! target)) ;;
        when (t - last <? 700) (sleep (700 - (t - last))) ;;
        res <- target_send target tries ;;
        match res with
        | Sent =>
            modify (fun s => mkDmState (now s) (<[target := now s]> (lastDmToUser s))
                                       (done s)) ;;
            record (DmLog "dm.sent") ;;
            ret (Some (Resolved true))
        | Rejected e =>
            let tries := S tries in
            if negb (isRate e) || (maxRetries <? tries)%nat then
              record (DmLog "dm.failed") ;;
              ret (Some (Resolved false))
            else
              sleep (DM_BACKOFF_BASE_MS * 2 ^ Z.of_nat tries) ;;
              attempts fuel' target maxRetries tries
        end
      else ret (Some NeverResolved)
  end.

(** One item of the queue, from [dmQueue.shift()] to the pause of 250 ms
    that follows it. *)
Definition processItem (target : string) (maxRetries : nat) : M DmState (option Ending) :=
  r <- attempts (S maxRetries) target maxRetries 0 ;;
  sleep 250 ;;
  ret r.

End Queue.

(** The first attempt that is not rejected for rate. *)
Fixpoint first_final (attempt : nat -> Z * SendOutcome) (n : nat) (from : nat) : option nat :=
  match n with
  | O => None
  | S n' =>
      match snd (attempt from) with
      | Sent => Some from
      | Rejected e => if isRate e then first_final attempt n' (S from) else Some from
      end
  end.

(** A send that happens 700 ms or more after [last]. *)
Definition spaced (last : Z) (e : DmEvent) : Prop :=
  match e with
  | Send _ t => 700 <= t - last
  | _ => True
  end.

Definition is_send (e : DmEvent) : bool :=
  match e with Send _ _ => true | _ => false end.

Definition sends (l : list DmEvent) : nat := List.length (List.filter is_send l).

End Dm.

(** ** Quarantine by account age *)

(** A member as the quarantine code sees it; [createdAt] is [None] when
    [user.createdAt] is missing. *)
Record Account : Type := mkAccount {
  a_id : string; a_bot : bool; a_createdAt : option Z }.

Section Quarantine.

Variable cfg : Config.
Variable world : World.

(** [parseInt(process.env.ACCOUNT_AGE_LIMIT_DAYS || '30', 10)] *)
Variable ACCOUNT_AGE_LIMIT_DAYS : Z.

(** [guild.members.fetch(uId).catch(()=>null)] finds the member. *)
Variable member_known : string -> bool.

Definition isNewAccount (acct : Account) : M State bool :=
  match a_createdAt acct with
  | None => ret false
  | Some created =>
      now <- Date_now ;;
      ret (now - created <? ACCOUNT_AGE_LIMIT_DAYS * 24 * 60 * 60 * 1000)
  end.

Definition roles_remove (member role : string) : M State unit :=
  emit (RoleRemove member role) ;;
  if roles_remove_ok world then
    modify (fun s => set_memberRoles (memberRoles s ∖ {[ (member, role) ]}) s)
  else throw "member.roles.remove failed".

(** The map in memory; the copy in [quarantine_map.json] is written
    after each change and read at start only. *)
Definition setQuarantineTimestamp (guildId userId : string) : M State unit :=
  ts <- Date_now ;;
  modify (fun s => set_quarantineMap (<[member_key guildId userId := ts]> (quarantineMap s)) s).

Definition clearQuarantineTimestamp (guildId userId : string) : M State unit :=
  modify (fun s => set_quarantineMap (delete (member_key guildId userId) (quarantineMap s)) s).

(** The body of the loop over the members in [scanGuildsForQuarantine]. *)
Definition scanMember (guildId : string) (acct : Account) : M State unit :=
  if a_bot acct then ret tt
  else
    let key := member_key guildId (a_id acct) in
    isQuarantine <- roles_has key (QUARANTINED_ROLE_NAME cfg) ;;
    isNew <- isNewAccount acct ;;
    when (isNew && negb isQuarantine)
      (try_catch
         (roles_add world key (QUARANTINED_ROLE_NAME cfg) ;;
          setQuarantineTimestamp guildId (a_id acct) ;;
          logDetailed "role.assign.quarantine" "" "Hourly re-check assigned quarantine")
         (fun e => logDetailed "role.assign_failed" "" "")) ;;
    when (isQuarantine && negb isNew)
      (try_catch
         (roles_remove key (QUARANTINED_ROLE_NAME cfg) ;;
          clearQuarantineTimestamp guildId (a_id acct) ;;
          logDetailed "role.remove" "" "")
         (fun e => logDetailed "role.remove_failed" "" "")).

(** The body of the loop over the keys of the map, for the key of
    [userId] in the guild that is being scanned. *)
Definition scanKey (guildId userId : string) : M State unit :=
  let key := member_key guildId userId in
  stored <- gets (fun s => quarantineMap s !! key) ;;
  match stored with
  | None => ret tt
  | Some ts =>
      if ts =? 0 then ret tt
      else
        now <- Date_now ;;
        if SEVENTY_TWO_HOURS <=? now - ts then
          try_catch
            (has <- roles_has key (QUARANTINED_ROLE_NAME cfg) ;;
             if member_known userId && has then
               roles_remove key (QUARANTINED_ROLE_NAME cfg) ;;
               clearQuarantineTimestamp guildId userId ;;
               logDetailed "role.remove" "" "Quarantine expired (72h)"
             else clearQuarantineTimestamp guildId userId)
            (fun e => logDetailed "role.remove_failed" "" "")
        else ret tt
  end.

End Quarantine.

(** ** Small helpers *)

(** [safeTruncate(s, n)]; a missing [s] is the empty string here. *)
Definition safeTruncate (s : string) (n : nat) : string :=
  if negb (Js.truthy s) then ""
  else if (String.length s <=? n)%nat then s
  else Js.take n s ++ "...".

Module TicketName.

Definition hyphen : ascii := ascii_of_N 45.

(** [.replace(/[^a-z0-9-]/g, '-')] *)
Definition replace_others (s : string) : string :=
  Js.map_chars
    (fun c => if Js.is_lower c || Js.is_digit c || Ascii.eqb c hyphen then c else hyphen) s.

(** [.replace(/-+/g, '-')] *)
Fixpoint collapse_hyphens (s : string) : string :=
  match s with
  | EmptyString => EmptyString
  | String c s' =>
      if Ascii.eqb c hyphen then
        match s' with
        | String d _ =>
            if Ascii.eqb d hyphen then collapse_hyphens s'
            else String c (collapse_hyphens s')
        | EmptyString => String c EmptyString
        end
      else String c (collapse_hyphens s')
  end.

Definition slug (s : string) : string :=
  Js.take 20 (collapse_hyphens (replace_others (Js.toLowerCase s))).

(** The decimal digits of [n], most significant first. *)
Fixpoint digits (fuel n : nat) (acc : string) : string :=
  match fuel with
  | O => acc
  | S fuel' =>
      let acc := String (ascii_of_nat (48 + n mod 10)) acc in
      if (n <? 10)%nat then acc else digits fuel' (n / 10) acc
  end.

(** [`${z}`] for an integer [z]. *)
Definition decimal (z : Z) : string :=
  let n := Z.to_nat (Z.abs z) in
  let d := digits (S n) n "" in
  if z <? 0 then String hyphen d else d.

(** [displayName || username || 'ticket'], likewise [subject || 'ticket'];
    [%] is the remainder with the sign of the dividend. *)
Definition ticketChannelName (displayName username subject : string) (now : Z) : string :=
  let name := if Js.truthy displayName then displayName
              else if Js.truthy username then username else "ticket" in
  let base := slug name in
  let subj := slug (if Js.truthy subject then subject else "ticket") in
  let suffix := decimal (Z.rem now 10000) in
  "ticket-" ++ base ++ "-" ++ subj ++ "-" ++ suffix.

(** A character that a channel name made here may hold. *)
Definition name_char (c : ascii) : bool :=
  Js.is_lower c || Js.is_digit c || Ascii.eqb c hyphen.

Fixpoint all_chars (p : ascii -> bool) (s : string) : bool :=
  match s with
  | EmptyString => true
  | String c s' => p c && all_chars p s'
  end.

(** The digits of [n] are at most four, and all of them digits. *)
Definition short_number (n : nat) : bool :=
  all_chars name_char (digits (S n) n "") &&
  (String.length (digits (S n) n "") <=? 4)%nat.

End TicketName.

(** ** Reading a channel back *)

Module Transcript.

Record Fetched : Type := mkFetched { f_id : string; f_text : string }.

Section Fetch.

(** [channel.messages.fetch({ limit: 100, before })]: the page, or
    [None] when the call is rejected. *)
Variable fetch : option string -> option (list Fetched).

(** The loop of [fetchAllMessages]; the outer [None] when [fuel] rounds
    were not enough, the inner when a fetch was rejected. *)
Fixpoint fetch_loop (fuel : nat) (limitAll : Z) (messages : list Fetched)
    (lastId : option string) : option (option (list Fetched)) :=
  match fuel with
  | O => None
  | S fuel' =>
      let before := match lastId with
                    | Some i => if Js.truthy i then Some i else None
                    | None => None
                    end in
      match fetch before with
      | None => Some None
      | Some [] => Some (Some messages)
      | Some (m :: rest) =>
          let fetched := m :: rest in
          let messages := (messages ++ fetched)%list in
          let lastId := f_id (List.last rest m) in
          if limitAll <=? Z.of_nat (List.length messages) then Some (Some messages)
          else if (List.length fetched <? 100)%nat then Some (Some messages)
          else fetch_loop fuel' limitAll messages (Some lastId)
      end
  end.

Definition fetchAllMessages (limitAll : Z) : option (option (list Fetched)) :=
  option_map (option_map (@rev Fetched))
    (fetch_loop (S (Z.to_nat limitAll)) limitAll [] None).

End Fetch.

(** A channel with two messages, newest first as the platform gives
    them. *)
Definition two_messages (before : option string) : option (list Fetched) :=
  match before with
  | None => Some [mkFetched "2" "second"; mkFetched "1" "first"]
  | Some _ => Some []
  end.

End Transcript.

(** ** Closing a ticket *)

Module TicketClose.
Import Ticket.

(** The reply the member gets. *)
Inductive CloseReply : Type :=
| MetadataNotFound
| NoPermission
| ChannelNotFound
| ClosedAndSaved.

Section Close.

Variable w : TWorld.

(** [prisma.ticket.findUnique] and [prisma.ticket.update] succeed. *)
Variable get_ok : bool.
Variable close_ok : bool.

(** Nothing throws inside [saveTranscriptAndLog]. *)
Variable transcript_ok : bool.

(** [prisma.ticket.findUnique({ where: { channelId } })] *)
Definition getTicketRow (id : string) : M TState (option Row) :=
  if get_ok then gets (fun s => List.find (fun r => String.eqb (channelId r) id) (rows s))
  else throw "prisma.ticket.findUnique failed".

(** [saveTranscriptAndLog] reads the channel and posts a file; what it
    throws it catches and logs. *)
Definition saveTranscriptAndLog : M TState unit :=
  if transcript_ok then ret tt else note (TLog "transcript.save_failed").

(** [closedByMember] is [memberId]; [isMod] says whether the member has
    the moderator role. *)
Definition closeTicket (id memberId : string) (isMod : bool) (now : Z)
  : M TState CloseReply :=
  meta <- getTicketRow id ;;
  match meta with
  | None => ret MetadataNotFound
  | Some meta =>
      let isOwner := String.eqb memberId (ownerId meta) in
      if negb isOwner && negb isMod then ret NoPermission
      else
        present <- gets (fun s => bool_decide (id ∈ channels s)) ;;
        if negb present then ret ChannelNotFound
        else
          saveTranscriptAndLog ;;
          try_catch
            (if close_ok then closeTicketRow id now
             else throw "prisma.ticket.update failed")
            (fun e => note (TLog "ticket.close_db_failed")) ;;
          note (TLog "ticket.closed") ;;
          try_catch (channel_delete w id)
            (fun e => note (TLog "ticket.delete_failed")) ;;
          ret ClosedAndSaved
  end.

End Close.

End TicketClose.

(** * The vocabulary of the properties *)

(** ** Worlds, messages and services for the worked cases *)

Definition reliable (svc : option Service) : World :=
  mkWorld svc (1 # 2) true true true true true true true true true.

Definition text_message (id author content : string) : Message :=
  mkMessage id (Some "guild") author false "general" GuildText content true false false [].

(** A service that answers every classification with [verdict] and every
    adjudication with [ruling]. *)
Definition scripted (verdict ruling : string) : Service :=
  mkService
    (fun r => match r with
              | Classify _ => ChatContent (Some verdict)
              | Verify _ _ => ChatContent (Some ruling)
              end)
    (fun _ => RespNothing).

Definition newline : string := String (ascii_of_N 10) EmptyString.

Definition no_strike_ruling : string := "NO_STRIKE" ++ newline ++ "harmless slang".

(** ** The prefilter *)

(** Rule 1 of the prefilter, on the trimmed text. *)
Definition affirmation_guard (content : string) : bool :=
  let c := Js.trim content in
  (Js.length c <=? 20) && Re.test Pattern.AFFIRMATION_REGEX c.

(** ** Reply normalisation *)

(** The four flag tokens in the priority order of the specification. *)
Definition priority : list (string * Category) :=
  [("FLAG_HATE", FLAG_HATE); ("FLAG_NSFW", FLAG_NSFW);
   ("FLAG_BET", FLAG_BET); ("FLAG_SPAM", FLAG_SPAM)].

(** The category of the first token, in priority order, that occurs in [out]. *)
Definition first_token (out : string) : option Category :=
  option_map snd (List.find (fun p => Js.includes out (fst p)) priority).

(** The shape the gateway accepts as the OK token. *)
Definition ok_form (out : string) : bool :=
  String.eqb out "OK" || Js.includes out " OK".

(** A reply in which none of the five tokens occurs. *)
Definition unrecognized (out : string) : bool :=
  negb (existsb (Js.includes out) ["FLAG_HATE"; "FLAG_NSFW"; "FLAG_BET"; "FLAG_SPAM"; "OK"]).

(** ** The failures of the gateway *)

(** The cache has nothing usable for [content]: no entry, or a stale one. *)
Definition cache_miss (cfg : Config) (s : State) (content : string) : Prop :=
  match messageCache s !! content with
  | None => True
  | Some e => CACHE_TTL_MS cfg < clock s - e_ts e
  end.

(** The rate window, rolled over if it has elapsed, has no unit left. *)
Definition budget_exhausted (cfg : Config) (s : State) : Prop :=
  MAX_OPENAI_PER_MIN cfg <=
    (if 60000 <=? clock s - windowStart s then 0 else callsThisWindow s).

Definition both_strategies_fail (svc : Service) (req : Request) : Prop :=
  (exists e, chat_completions_create svc req = ChatThrows e) /\
  (responses_create svc req = RespNotAString \/
   exists e, responses_create svc req = RespThrows e).

(** The state in which the [try] block of the gateway starts. *)
Definition gate_state (cfg : Config) (content : string) (s : State) : State :=
  snd (allowOpenAICall cfg (snd (cacheGet cfg content s))).

(** The internal failures of the gateway. *)
Inductive gateway_failure (cfg : Config) (world : World)
    (body : string -> Service -> M State Result) (content : string) (s : State) : Prop :=
| Unconfigured :
    openai world = None -> gateway_failure cfg world body content s
| BudgetExhausted :
    budget_exhausted cfg s -> gateway_failure cfg world body content s
| BothStrategiesFail (svc : Service) :
    openai world = Some svc -> body = classify ->
    both_strategies_fail svc (Classify content) ->
    gateway_failure cfg world body content s
| BodyThrows (svc : Service) (e : string) :
    openai world = Some svc ->
    fst (body content svc (gate_state cfg content s)) = Thrown e ->
    gateway_failure cfg world body content s.

(** ** The rate window and the service, read off the state *)

(** The calls already charged to the window that [allowOpenAICall] looks
    at: none when the window has elapsed. *)
Definition charged (s : State) : Z :=
  if 60000 <=? clock s - windowStart s then 0 else callsThisWindow s.

Definition budget_left (cfg : Config) (s : State) : bool :=
  negb (MAX_OPENAI_PER_MIN cfg <=? charged s).

(** What the service answers to [req], as [requestRaw] reads it. *)
Definition rawReply (svc : Service) (req : Request) : option string :=
  match chat_completions_create svc req with
  | ChatContent (Some c) => Some (Js.trim c)
  | ChatContent None => Some ""
  | ChatThrows _ =>
      match responses_create svc req with
      | RespText t => Some (Js.trim t)
      | RespNothing => Some ""
      | RespNotAString | RespThrows _ => None
      end
  end.

(** The calls and complaints [requestRaw] leaves in the trace. *)
Definition request_effects (svc : Service) (req : Request) (complaint : string)
  : list Effect :=
  match chat_completions_create svc req with
  | ChatContent _ => [CallChat req]
  | ChatThrows _ =>
      match responses_create svc req with
      | RespText _ | RespNothing => [CallChat req; CallResponses req]
      | RespNotAString | RespThrows _ =>
          [CallChat req; CallResponses req; ConsoleError complaint]
      end
  end.

(** ** The lenient cases of the adjudication *)

Definition is_strike_insert (e : Effect) : bool :=
  match e with StrikeInsert _ _ _ => true | _ => false end.

(** The number of strike rows the trace shows being written. *)
Definition strike_inserts (t : list Effect) : nat :=
  List.length (List.filter is_strike_insert t).

(** The four cases in which the adjudication gives no confirmation. *)
Inductive lenient_case (cfg : Config) (world : World) (s : State)
    (content : string) (category : Category) : Prop :=
| NoService :
    openai world = None -> lenient_case cfg world s content category
| NoBudget :
    budget_exhausted cfg s -> lenient_case cfg world s content category
| NoAnswer (svc : Service) :
    openai world = Some svc ->
    both_strategies_fail svc (Verify content category) ->
    lenient_case cfg world s content category
| NoVerdict (svc : Service) (raw : string) :
    openai world = Some svc ->
    rawReply svc (Verify content category) = Some raw ->
    Js.includes (Js.toUpperCase (hd "" (nonempty_lines raw))) "STRIKE" = false ->
    Js.includes (Js.toUpperCase (hd "" (nonempty_lines raw))) "NO_STRIKE" = false ->
    lenient_case cfg world s content category.

(** ** Active strikes *)

(** The cutoff [countActiveStrikes] uses when called at time [now]. *)
Definition decay_cutoff (cfg : Config) (now : Z) : Z :=
  now - STRIKE_DECAY_DAYS cfg * 24 * 60 * 60 * 1000.

(** Four active strikes on record, threshold five. *)
Definition four_strikes (now : Z) : list Strike :=
  map (fun i => mkStrike "guild" "user" FLAG_SPAM "spam_detection" "old" "bot" (now - i) false)
      [4000; 3000; 2000; 1000].

Definition state_with_strikes (now : Z) : State :=
  set_strikes (four_strikes now) (initial_state now).

(** ** Enforcement *)

(** The effects that act on a member or a message, or start the strike flow. *)
Definition enforcement (e : Effect) : bool :=
  match e with
  | MessageDelete _ | SendDM _ | StrikeInsert _ _ _ | StrikeCount _ _
  | RoleAdd _ _ | SetTimeout _ _ => true
  | CallChat (Verify _ _) | CallResponses (Verify _ _) => true
  | _ => false
  end.

(** From [s] to [s']: no strike row written, no role gained, nothing
    enforced. *)
Definition untouched (s s' : State) : Prop :=
  strikes s' = strikes s /\
  memberRoles s' ⊆ memberRoles s /\
  exists d, trace s' = (trace s ++ d)%list /\ Forall (fun e => enforcement e = false) d.

(** The text is allowlisted and every verdict on record or on offer for it
    is the hate flag or no flag. *)
Definition cache_says_hate_or_clean (content : string) (s : State) : Prop :=
  forall e, messageCache s !! content = Some e ->
            e_flagged e = true -> e_category e = FLAG_HATE.

Definition service_says_hate_or_clean (world : World) (content : string) : Prop :=
  forall svc raw, openai world = Some svc ->
    rawReply svc (Classify content) = Some raw ->
    fst (mapCategory raw) = FLAG_HATE \/ fst (mapCategory raw) = OK.

(** What the gateway returns it has in the cache, under the same key. *)
Definition cached_as (content : string) (r : Result) (s : State) : Prop :=
  exists ts, messageCache s !! content = Some (mkEntry (flagged r) (category r) ts).

(** A world in which the random draw samples every message. *)
Definition sampling (svc : option Service) : World :=
  mkWorld svc 0 true true true true true true true true true.

Definition sweaty_message : Message :=
  text_message "m1" "user" "sweaty tryhards in this lobby".

(** ** Flooding at the threshold *)

Definition flood_messages : list Message :=
  [text_message "a" "user" "hello there";
   text_message "b" "user" "hello there";
   text_message "c" "user" "hello there"].

(** ** Spending the budget *)

(** [n] calls of [allowOpenAICall] in a row, and what each answered. *)
Fixpoint allow_sequence (cfg : Config) (n : nat) : M State (list bool) :=
  match n with
  | O => ret []
  | S k =>
      b <- allowOpenAICall cfg ;;
      bs <- allow_sequence cfg k ;;
      ret (b :: bs)
  end.

(** A budget of two calls per minute, everything else as shipped. *)
Definition budget_of_two : Config :=
  mkConfig "637758147330572349" (2 # 100) 2 3 (10 * 60 * 1000) 5 30
           "1031429142538895380" "1120271059262906368" "Quarantined" "Muted".

Definition three_messages : list Message :=
  [text_message "m1" "ann" "dm for picks";
   text_message "m2" "bob" "parlay tips here";
   text_message "m3" "cyd" "nba picks today"].

Fixpoint deliver (cfg : Config) (world : World) (msgs : list Message) : M State unit :=
  match msgs with
  | [] => ret tt
  | m :: rest => onMessageCreate cfg world m ;; deliver cfg world rest
  end.

Definition is_service_call (e : Effect) : bool :=
  match e with CallChat _ | CallResponses _ => true | _ => false end.

Definition is_rate_limit_log (e : Effect) : bool :=
  match e with
  | Log "rate_limit" _ _ => true
  | _ => false
  end.

(** ** Ticket creation: a datastore, a rival request and a guild *)

Module TicketExamples.
Import Ticket.

(** A datastore that refuses a second open ticket for the same guild and
    owner with Prisma's P2002, and a rival that creates its ticket while
    this request's channel is being made. *)
Definition one_open_ticket_per_owner (table : list Row) (r : Row) : InsertOutcome :=
  if existsb (is_open_of (guildId r) (ownerId r)) table then DbError "P2002" true
  else Inserted.

Definition rival_row : Row := mkRow "chan-1" "guild" "user" "help" None.

Definition racing_world : TWorld :=
  mkTWorld "chan-2" "cat-2" true true true true true one_open_ticket_per_owner
    (fun x => x)
    (fun '(table, chans) => ((table ++ [rival_row])%list, {[ "chan-1" ]} ∪ chans))
    true true.

Definition quiet_guild : TState :=
  mkTState ∅ [] {[ "cat-1" ]} {[ "guild" := "cat-1" ]} [].

End TicketExamples.

(** ** Time passing between events *)

(** The state [dt] milliseconds later, nothing else having happened. *)
Definition advance (dt : Z) (s : State) : State :=
  mkState (clock s + dt) (windowStart s) (callsThisWindow s) (activeCalls s)
          (messageCache s) (recentMessages s) (quarantineMap s) (strikes s)
          (memberRoles s) (trace s).

(** Every cached verdict obeys [flagged = (category !== 'OK')]. *)
Definition cache_consistent (s : State) : Prop :=
  forall k e, messageCache s !! k = Some e ->
              e_flagged e = negb (Category_eqb (e_category e) OK).

Definition result_consistent (r : Result) : Prop :=
  flagged r = negb (Category_eqb (category r) OK).

(** ** Flood detection, in words *)

(** How many of the messages carry the text [c]. *)
Definition occurrences (c : string) (arr : list Recent) : Z :=
  Z.of_nat (List.length (List.filter (fun m => String.eqb (r_content m) c) arr)).

(** A text that names a property every object inherits. *)
Definition inherited (c : string) : bool := existsb (String.eqb c) inherited_keys.

(** The timestamps never go down along the history and none lies ahead of [now]. *)
Definition history_in_order (now : Z) (arr : list Recent) : Prop :=
  StronglySorted (fun a b => r_ts a <= r_ts b) arr /\
  Forall (fun m => r_ts m <= now) arr.

(** A text made of white space only, the empty text included. *)
Definition all_space (s : string) : bool :=
  forallb Js.is_space (list_ascii_of_string s).

(** ** Relations a computation keeps *)

(** [m] takes every state to one that [R] relates to it, whether it
    returns or throws. *)
Definition keeps {St A : Type} (R : St -> St -> Prop) (m : M St A) : Prop :=
  forall s, R s (snd (m s)).

(** The strike table only grows, at its end. *)
Definition strikes_appended (s s' : State) : Prop :=
  exists l, strikes s' = (strikes s ++ l)%list.

(** The count of calls in flight is what it was. *)
Definition same_activeCalls (s s' : State) : Prop :=
  activeCalls s' = activeCalls s.

(** A window counter that was within the budget (a negative budget
    counting as none) is still within it. *)
Definition within_budget (cfg : Config) (s s' : State) : Prop :=
  0 <= callsThisWindow s <= Z.max 0 (MAX_OPENAI_PER_MIN cfg) ->
  0 <= callsThisWindow s' <= Z.max 0 (MAX_OPENAI_PER_MIN cfg).

(** No member loses a role other than [role]. *)
Definition roles_kept_except (role : string) (s s' : State) : Prop :=
  forall k r, (k, r) ∈ memberRoles s -> r <> role -> (k, r) ∈ memberRoles s'.

(** No member loses a role other than [role1] and [role2]. *)
Definition other_roles_kept (role1 role2 : string) (s s' : State) : Prop :=
  forall k r, (k, r) ∈ memberRoles s -> r <> role1 -> r <> role2 ->
              (k, r) ∈ memberRoles s'.

(** The clock is what it was. *)
Definition same_clock (s s' : State) : Prop := clock s' = clock s.

(** A consistent cache stays consistent. *)
Definition consistency_kept (s s' : State) : Prop :=
  cache_consistent s -> cache_consistent s'.

(** The flood history is what it was. *)
Definition same_recentMessages (s s' : State) : Prop :=
  recentMessages s' = recentMessages s.

(** ** A run of events *)

(** The timers of the timed mutes that have not fired yet: for each the
    time it is due and the member it unmutes. *)
Definition Timers : Type := list (Z * string).

(** The timers that the effects [d], performed at [now], have set. *)
Fixpoint registered (now : Z) (d : list Effect) : Timers :=
  match d with
  | [] => []
  | SetTimeout delay member :: d' => (now + delay, member) :: registered now d'
  | _ :: d' => registered now d'
  end.

(** A new timer takes its place by the time it is due, behind the timers
    due at the same time. *)
Fixpoint schedule (t : Z * string) (pending : Timers) : Timers :=
  match pending with
  | [] => [t]
  | u :: rest => if fst t <? fst u then t :: u :: rest else u :: schedule t rest
  end.

(** The timers due by [until] fire, in the order of the list, each at
    the time it is due or, when that has passed, at once; the others stay
    pending. *)
Fixpoint fire_due (cfg : Config) (world : World) (until : Z) (pending : Timers)
    (s : State) : Timers * State :=
  match pending with
  | [] => ([], s)
  | (due, member) :: rest =>
      if due <=? until then
        fire_due cfg world until rest
          (snd (muteTimerFires cfg world member (advance (Z.max 0 (due - clock s)) s)))
      else
        let '(kept, s') := fire_due cfg world until rest s in
        ((due, member) :: kept, s')
  end.

(** One message arriving [dt] milliseconds after the one before was dealt
    with: the timers due by then fire, the handler runs, and the timers
    it sets are pending from then on.  The collaborators answer as
    [world] says throughout. *)
Definition run_event (cfg : Config) (ev : Z * World * Message) (x : Timers * State)
  : Timers * State :=
  let '(dt, world, msg) := ev in
  let '(pending, s) := x in
  let now := clock s + dt in
  let '(kept, s1) := fire_due cfg world now pending s in
  let s2 := advance (now - clock s1) s1 in
  let s3 := snd (onMessageCreate cfg world msg s2) in
  let set := registered now (drop (List.length (trace s2)) (trace s3)) in
  (fold_left (fun p t => schedule t p) set kept, s3).

(** Messages arriving one after the other, with the timers that are
    pending at the start. *)
Definition run_timed (cfg : Config) (evs : list (Z * World * Message))
    (pending : Timers) (s : State) : Timers * State :=
  fold_left (fun x ev => run_event cfg ev x) evs (pending, s).

Definition run_events (cfg : Config) (evs : list (Z * World * Message))
    (pending : Timers) (s : State) : State :=
  snd (run_timed cfg evs pending s).

(** ** The quarantine window *)

(** The age the handler computes for a quarantined member:
    [Date.now() - (getQuarantineTimestamp(..) || Date.now())]. *)
Definition quarantine_age (key : string) (s : State) : Z :=
  match quarantineMap s !! key with
  | Some t => if t =? 0 then 0 else clock s - t
  | None => 0
  end.

(** While the member [key] is inside the window, the clock and the
    recorded join times stay and no member loses a role. *)
Definition monitored (key : string) (s s' : State) : Prop :=
  quarantine_age key s < SEVENTY_TWO_HOURS ->
  clock s' = clock s /\ quarantineMap s' = quarantineMap s /\
  memberRoles s ⊆ memberRoles s'.

(** What the handler logs before it looks at the channel. *)
Definition preamble (world : World) (guildId : string) : list Effect :=
  ((if log_channel_known world then [] else [SetupGuild guildId]) ++
   [Log "message.received" "" ""])%list.

(** The trace only grows, and by no request to the service; the window
    counter stays. *)
Definition without_the_service (s s' : State) : Prop :=
  callsThisWindow s' = callsThisWindow s /\
  exists d, trace s' = (trace s ++ d)%list /\
            forallb (fun e => negb (is_service_call e)) d = true.

(** ** Ticket creation: what a call leaves behind *)

Module TicketRelations.
Import Ticket.

(** The locks are what they were. *)
Definition same_locks (s s' : TState) : Prop :=
  ticketCreationLocks s' = ticketCreationLocks s.

(** The row of [id] with its closing time set, every other row as it is. *)
Definition closed_at (id : string) (now : Z) (r : Row) : Row :=
  if String.eqb (channelId r) id
  then mkRow (channelId r) (guildId r) (ownerId r) (subject r) (Some now)
  else r.

(** A guild in which nobody else is writing, with the datastore of
    [one_open_ticket_per_owner]. *)
Definition calm_world : TWorld :=
  mkTWorld "chan-2" "cat-2" true true true true true
    TicketExamples.one_open_ticket_per_owner (fun x => x) (fun x => x) true true.

(** The same guild with a datastore that cannot be reached. *)
Definition unreachable_store_world : TWorld :=
  mkTWorld "chan-2" "cat-2" true true true true true
    (fun _ _ => DbError "P1001" false) (fun x => x) (fun x => x) true true.

(** A guild whose pre-check cannot close a stale row. *)
Definition stuck_world : TWorld :=
  mkTWorld "chan-2" "cat-2" true true true true true
    TicketExamples.one_open_ticket_per_owner (fun x => x) (fun x => x) false true.

(** A guild whose only ticket is open and has its channel. *)
Definition guild_with_open_ticket : TState :=
  mkTState ∅ [TicketExamples.rival_row] ({[ "chan-1" ]} ∪ {[ "cat-1" ]})
           {[ "guild" := "cat-1" ]} [].






End TicketRelations.

(** * Properties *)

(** ** Substrings *)

Lemma startsWith_suffix_includes (p1 p2 s : string) :
  Js.startsWith s (p1 ++ p2)%string = true -> Js.includes s p2 = true.
Proof.
  revert s. induction p1 as [|a p1 IH]; intros s H.
  - change (Js.startsWith s p2 = true) in H.
    destruct s; cbn [Js.includes]; rewrite H; reflexivity.
  - destruct s as [|b s]; [discriminate H|].
    change (Js.startsWith (String b s) (String a (p1 ++ p2)) = true) in H.
    cbn [Js.startsWith] in H.
    destruct (Ascii.eqb a b); [|discriminate].
    cbn [Js.includes]. rewrite (IH s H). apply orb_true_r.
Qed.

Lemma includes_suffix (p1 p2 s : string) :
  Js.includes s (p1 ++ p2)%string = true -> Js.includes s p2 = true.
Proof.
  induction s as [|c s IH]; intros H; cbn [Js.includes] in H.
  - rewrite orb_false_r in H.
    apply (startsWith_suffix_includes p1 p2 ""). exact H.
  - apply orb_true_iff in H as [H|H].
    + apply (startsWith_suffix_includes p1 p2). exact H.
    + cbn [Js.includes]. rewrite (IH H). apply orb_true_r.
Qed.

(** A line that holds NO_STRIKE holds STRIKE. *)
Lemma NO_STRIKE_includes_STRIKE (s : string) :
  Js.includes s "NO_STRIKE" = true -> Js.includes s "STRIKE" = true.
Proof. apply (includes_suffix "NO_" "STRIKE"). Qed.

(** So the first test of the verdict ladder already decides: the verdict is
    a strike exactly when the first line holds STRIKE. *)
Lemma parseVerification_strike (raw : string) :
  strike (parseVerification raw) =
  Js.includes (Js.toUpperCase (hd "" (nonempty_lines raw))) "STRIKE".
Proof.
  unfold parseVerification.
  destruct (Js.includes (Js.toUpperCase (hd "" (nonempty_lines raw))) "STRIKE") eqn:E.
  - reflexivity.
  - destruct (Js.includes (Js.toUpperCase (hd "" (nonempty_lines raw))) "NO_STRIKE") eqn:E2.
    + apply NO_STRIKE_includes_STRIKE in E2. congruence.
    + reflexivity.
Qed.

(** ** The expressions at work *)

Example BETTING_SIGNAL_REGEX_examples :
  map (Re.test Pattern.BETTING_SIGNAL_REGEX)
    ["dm for picks, $20 each"; "DM  picks"; "parlays!"; "xparlay"; "nba   pick today"; "bet"]
  = [true; true; true; false; true; false].
Proof. vm_compute. reflexivity. Qed.

(** A word boundary is wanted before the dollar sign and after the last
    digit or currency sign. *)
Example BETTING_LIKELY_REGEX_examples :
  map (Re.test Pattern.BETTING_LIKELY_REGEX)
    ["a$20"; "$20"; "20$"; "20 USD"; "over"; "Over"; "lakers -4"; "x+150"; "odds"]
  = [true; false; false; true; true; false; false; true; true].
Proof. vm_compute. reflexivity. Qed.

Example HATE_REGEX_examples :
  map (Re.test Pattern.HATE_REGEX) ["coon!"; "raccoon"; "sweaty"; "Paki"]
  = [true; false; false; true].
Proof. vm_compute. reflexivity. Qed.

Example SPAM_LINKS_REGEX_examples :
  map (Re.test Pattern.SPAM_LINKS_REGEX)
    ["http://a"; "see https://x.y/z?"; "http://"; "xhttp://a"; "http://!!!"]
  = [true; true; false; false; false].
Proof. vm_compute. reflexivity. Qed.

Example MATCH_ALLOWED_PREFIX_REGEX_examples :
  map (Re.test Pattern.MATCH_ALLOWED_PREFIX_REGEX)
    ["code 123"; "  Codes"; "coder"; "code?x"; "5."; "5v5"; "5 stack"; "s"; "sup"; "x code"]
  = [true; true; false; true; true; false; true; true; false; false].
Proof. vm_compute. reflexivity. Qed.

Example MATCH_HEURISTIC_REGEX_examples :
  map (Re.test Pattern.MATCH_HEURISTIC_REGEX)
    ["LF5"; "need 4 more"; "need  12"; "need x"; "want 5v5"; "x5v5"; "team of 5"]
  = [true; true; true; false; true; false; true].
Proof. vm_compute. reflexivity. Qed.

Example strings_examples :
  Js.trim "  a b  " = "a b" /\
  Js.split_lines no_strike_ruling = ["NO_STRIKE"; "harmless slang"] /\
  Js.toUpperCase "no_strike z{" = "NO_STRIKE Z{" /\
  Js.includes "NO_STRIKE" "STRIKE" = true.
Proof. vm_compute. repeat split. Qed.

(** End-to-end scenarios A and B of the specification. *)
Example scenario_A_alright_bet :
  snd (onMessageCreate default_config (reliable (Some (scripted "FLAG_BET" "STRIKE")))
         (text_message "m1" "user" "alright bet") (initial_state 1000))
  = set_recentMessages {[ "guild:user" := [mkRecent "alright bet" 1000] ]}
      (set_trace [Log "message.received" "" ""; Log "precheck" "" "skipped_by_sampling"]
         (initial_state 1000)).
Proof. vm_compute. reflexivity. Qed.

Example scenario_B_paid_picks :
  let s' := snd (onMessageCreate default_config
                   (reliable (Some (scripted "FLAG_BET" "STRIKE")))
                   (text_message "m1" "user" "dm for picks, $20 each") (initial_state 1000)) in
  map s_category (strikes s') = [FLAG_BET] /\
  MessageDelete "m1" ∈ trace s'.
Proof.
  vm_compute. split; [reflexivity|].
  do 5 apply list_elem_of_further. apply list_elem_of_here.
Qed.

(** ** C1: a NO_STRIKE ruling *)

(** C1, evaluated on the code: the message "dm for picks" was flagged
    FLAG_BET and the adjudication reply reads NO_STRIKE on its first line.
    [verifyStrikeDecision] tests for STRIKE first, NO_STRIKE holds STRIKE,
    so the verdict is a strike and one strike row is written. *)
Theorem C1_no_strike_ruling_records_a_strike :
  let w := reliable (Some (scripted "FLAG_BET" no_strike_ruling)) in
  let msg := text_message "m1" "user" "dm for picks" in
  let s0 := initial_state 1000 in
  Js.includes (Js.toUpperCase (hd "" (nonempty_lines no_strike_ruling))) "NO_STRIKE" = true /\
  fst (verifyStrikeDecision default_config w (m_content msg) FLAG_BET s0)
    = Returned (mkVerification true "harmless slang") /\
  strikes (snd (decideAndApplyStrike default_config w msg FLAG_BET s0))
    = [mkStrike "guild" "user" FLAG_BET
         "auto-moderation - message flagged (verified)" "m1" "bot" 1000 false].
Proof. vm_compute. repeat split. Qed.

(** ** C5: the affirmation guard *)

Example affirmation_guard_examples :
  forallb affirmation_guard
    ["bet"; "Bet"; " bet "; "alright bet"; "bet!"; "bet..."; "bettt"; "bet rn";
     "bet bro"; "bet fam"; "facts"; "ok"; "okie"; "yep"; "yup"; "ya"; "yah"; "betty"]
  = true /\
  map affirmation_guard ["bet $50 on the Lakers -4"; "bet on it"; "bets"; "bet....................."]
  = [false; false; false; false].
Proof. vm_compute. split; reflexivity. Qed.

(** C5: a text that passes the affirmation guard is skipped, whatever the
    channel type, the sampling rate and the random draw, and whatever the
    later keyword rules would say about it; the text "bet" alone is such a
    text. *)
Theorem C5_affirmation_guard_skips (cfg : Config) (world : World)
    (content : string) (channelType : ChannelType)
    (Hguard : affirmation_guard content = true) :
  shouldCheckByPolicy cfg world content channelType = false /\
  shouldCheckByPolicy cfg world "bet" channelType = false.
Proof.
  split; [|reflexivity].
  unfold shouldCheckByPolicy.
  destruct (negb (Js.truthy content) || negb (Js.truthy (Js.trim content))); [reflexivity|].
  unfold affirmation_guard in Hguard. cbv zeta in Hguard.
  rewrite Hguard. reflexivity.
Qed.

Lemma C5_affirmation_guard_skips_witness :
  affirmation_guard "alright bet" = true /\
  shouldCheckByPolicy default_config (reliable None) "alright bet" GuildForum = false.
Proof.
  split; [reflexivity|].
  apply (C5_affirmation_guard_skips default_config (reliable None) "alright bet" GuildForum).
  reflexivity.
Defined.

(** ** C7: normalising the classifier's reply *)

(** C7 as stated fails: the reply UNSAFE holds none of the five tokens and
    is mapped to OK, not to FLAG_SPAM. *)
Lemma C7_unrecognized_reply_discarded_as_OK :
  ~ (forall raw : string,
       unrecognized (Js.toUpperCase raw) = true -> fst (mapCategory raw) = FLAG_SPAM).
Proof.
  intros H. specialize (H "UNSAFE" eq_refl). vm_compute in H. discriminate H.
Qed.

(** C7, amended: the category is that of the first flag token, in the order
    HATE, NSFW, BET, SPAM, that occurs in the upper-cased reply; when none
    occurs the reply is OK if it has the OK shape, FLAG_SPAM if it holds
    FLAG, and OK in every other case. *)
Theorem C7_reply_normalisation (raw : string) :
  let out := Js.toUpperCase raw in
  fst (mapCategory raw) =
    match first_token out with
    | Some c => c
    | None =>
        if ok_form out then OK
        else if Js.includes out "FLAG" then FLAG_SPAM
        else OK
    end.
Proof.
  cbv zeta. unfold mapCategory, first_token, priority, ok_form.
  cbn [List.find fst snd option_map].
  destruct (Js.includes (Js.toUpperCase raw) "FLAG_HATE"); [reflexivity|].
  destruct (Js.includes (Js.toUpperCase raw) "FLAG_NSFW"); [reflexivity|].
  destruct (Js.includes (Js.toUpperCase raw) "FLAG_BET"); [reflexivity|].
  destruct (Js.includes (Js.toUpperCase raw) "FLAG_SPAM"); [reflexivity|].
  cbn [option_map].
  destruct (String.eqb (Js.toUpperCase raw) "OK" || Js.includes (Js.toUpperCase raw) " OK");
    [reflexivity|].
  destruct (Js.includes (Js.toUpperCase raw) "FLAG"); reflexivity.
Qed.

Example mapCategory_examples :
  map (fun r => fst (mapCategory r))
    ["flag_nsfw and FLAG_HATE"; "FLAG_SPAM, FLAG_BET"; "OK"; "it is OK"; "FLAG";
     "FLAGGED"; "UNSAFE"; "HATE"; ""]
  = [FLAG_HATE; FLAG_BET; OK; OK; FLAG_SPAM; FLAG_SPAM; OK; OK; OK].
Proof. vm_compute. reflexivity. Qed.

(** ** C10: the admin bypass *)

(** C10: a message whose author is the configured admin leaves the handler
    with the state it found, but for one [logDetailed] call with the bypass
    event (none at all when the message has no guild or the author is a
    bot): the rate window, the cache, the flood history, the strike table
    and the roles are untouched and nothing is deleted, sent or asked of
    the classification service. *)
Theorem C10_admin_bypass (cfg : Config) (world : World) (msg : Message) (s : State)
    (Hadmin : m_author msg = ADMIN_USER_ID cfg) :
  onMessageCreate cfg world msg s =
    (Returned tt,
     match m_guild msg with
     | Some _ =>
         if m_author_bot msg then s
         else set_trace (trace s ++ [Log "message.bypass_admin" "" ""]) s
     | None => s
     end).
Proof.
  unfold onMessageCreate.
  destruct (m_guild msg); [|reflexivity].
  destruct (m_author_bot msg); [reflexivity|].
  rewrite Hadmin, String.eqb_refl. reflexivity.
Qed.

Lemma C10_admin_bypass_witness :
  let msg := text_message "m1" "637758147330572349" "nba picks for sale, $20" in
  let w := reliable (Some (scripted "FLAG_BET" "STRIKE")) in
  onMessageCreate default_config w msg (initial_state 1000) =
    (Returned tt,
     set_trace [Log "message.bypass_admin" "" ""] (initial_state 1000)).
Proof.
  cbv zeta.
  rewrite (C10_admin_bypass default_config
             (reliable (Some (scripted "FLAG_BET" "STRIKE")))
             (text_message "m1" "637758147330572349" "nba picks for sale, $20")
             (initial_state 1000) eq_refl).
  reflexivity.
Defined.

(** ** Running a computation symbolically *)

Ltac splits := repeat match goal with |- _ /\ _ => split end.

Ltac mred :=
  cbv beta iota zeta delta
    [bind ret gets modify throw try_catch try_finally emit when Date_now logDetailed];
  cbn beta iota zeta delta
    [fst snd clock windowStart callsThisWindow activeCalls messageCache
     recentMessages quarantineMap strikes memberRoles trace
     set_window set_activeCalls set_messageCache set_recentMessages
     set_quarantineMap set_strikes set_memberRoles set_trace].

Tactic Notation "mred" "in" hyp(H) :=
  cbv beta iota zeta delta
    [bind ret gets modify throw try_catch try_finally emit when Date_now logDetailed] in H;
  cbn beta iota zeta delta
    [fst snd clock windowStart callsThisWindow activeCalls messageCache
     recentMessages quarantineMap strikes memberRoles trace
     set_window set_activeCalls set_messageCache set_recentMessages
     set_quarantineMap set_strikes set_memberRoles set_trace] in H.

(** Running a computation down to its leaves. *)
Ltac run_cases :=
  repeat (mred;
          try match goal with
              | |- context [match ?x with _ => _ end] =>
                  lazymatch x with
                  | context [match _ with _ => _ end] => fail
                  | _ => destruct x eqn:?
                  end
              end).

Lemma cacheGet_miss (cfg : Config) (content : string) (s : State) :
  cache_miss cfg s content ->
  exists s1, cacheGet cfg content s = (Returned None, s1) /\
             clock s1 = clock s /\ windowStart s1 = windowStart s /\
             callsThisWindow s1 = callsThisWindow s /\
             strikes s1 = strikes s /\ memberRoles s1 = memberRoles s /\
             trace s1 = trace s /\ activeCalls s1 = activeCalls s /\
             messageCache s1 !! content = None.
Proof.
  unfold cache_miss, cacheGet. intros H. mred.
  destruct (messageCache s !! content) as [e|] eqn:E; mred.
  - apply Z.ltb_lt in H. rewrite H. eexists. split; [reflexivity|].
    mred. repeat split. apply lookup_delete_eq.
  - exists s. repeat split. exact E.
Qed.

Lemma allowOpenAICall_exhausted (cfg : Config) (s : State) :
  budget_exhausted cfg s ->
  exists s1, allowOpenAICall cfg s = (Returned false, s1) /\
             clock s1 = clock s /\ strikes s1 = strikes s /\
             memberRoles s1 = memberRoles s /\ trace s1 = trace s /\
             messageCache s1 = messageCache s.
Proof.
  unfold budget_exhausted, allowOpenAICall. intros H. mred.
  destruct (60000 <=? clock s - windowStart s); mred;
    apply Z.leb_le in H; rewrite H; eexists; (split; [reflexivity|]); mred; tauto.
Qed.

(** Whatever it finds, [allowOpenAICall] returns. *)
Lemma allowOpenAICall_returns (cfg : Config) (s : State) :
  exists b s1, allowOpenAICall cfg s = (Returned b, s1).
Proof.
  unfold allowOpenAICall. mred.
  destruct (60000 <=? clock s - windowStart s); mred;
    match goal with |- context [if ?c then _ else _] => destruct c end; eauto.
Qed.

Lemma cacheGet_returns (cfg : Config) (content : string) (s : State) :
  exists o s1, cacheGet cfg content s = (Returned o, s1).
Proof.
  unfold cacheGet. mred.
  destruct (messageCache s !! content) as [e|]; mred; [|eauto].
  destruct (CACHE_TTL_MS cfg <? clock s - e_ts e); eauto.
Qed.

(** ** C3: the gateway never rejects *)

Lemma requestRaw_both_fail (svc : Service) (req : Request) (complaint : string) (s : State) :
  both_strategies_fail svc req ->
  exists s1, requestRaw svc req complaint s = (Returned None, s1).
Proof.
  intros [[e He] Hr]. unfold requestRaw. mred. rewrite He. mred.
  destruct Hr as [Hr|[e' Hr]]; rewrite Hr; mred; eauto.
Qed.

Lemma classify_both_fail (svc : Service) (content : string) (s : State) :
  both_strategies_fail svc (Classify content) ->
  fst (classify content svc s) = Returned ok_result.
Proof.
  intros H. unfold classify. mred.
  destruct (requestRaw_both_fail svc (Classify content)
              "OpenAI both API attempts failed:" s H) as [s1 E].
  rewrite E. unfold cacheSet. mred. reflexivity.
Qed.

(** C3: [performOpenAICall] returns a result and never throws, in every
    state, whatever the service does and even when the body of its [try]
    block throws; and when nothing usable is cached, each internal failure
    (service unconfigured, budget exhausted, both strategies failing, an
    exception in the body) makes it return OK with [flagged = false]. *)
Theorem C3_gateway_always_resolves (cfg : Config) (world : World)
    (body : string -> Service -> M State Result) (content : string) (s : State) :
  (exists r s', performOpenAICall_with cfg world body content s = (Returned r, s')) /\
  (cache_miss cfg s content -> gateway_failure cfg world body content s ->
   fst (performOpenAICall_with cfg world body content s) = Returned ok_result).
Proof.
  split.
  - unfold performOpenAICall_with. mred.
    destruct (cacheGet_returns cfg content s) as (o & s1 & E1). rewrite E1.
    destruct o as [e|]; [eauto|].
    destruct (allowOpenAICall_returns cfg s1) as (b & s2 & E2). rewrite E2.
    destruct b; cbn [negb]; unfold cacheSet; mred; [|eauto].
    destruct (openai world) as [svc|]; mred; [|eauto].
    destruct (body content svc s2) as [[r|e] s3]; eauto.
  - intros Hmiss Hfail.
    unfold performOpenAICall_with. mred.
    destruct (cacheGet_miss cfg content s Hmiss)
      as (s1 & E1 & Hc & Hw & Hn & _).
    pose proof (f_equal snd E1) as Es1. cbn [snd] in Es1.
    rewrite E1.
    destruct Hfail as [Hnone|Hex|svc Hsome Hbody Hboth|svc e Hsome Hthrow].
    + destruct (allowOpenAICall_returns cfg s1) as (b & s2 & E2). rewrite E2.
      destruct b; cbn [negb]; unfold cacheSet; mred; [|reflexivity].
      rewrite Hnone. reflexivity.
    + assert (Hex1 : budget_exhausted cfg s1).
      { unfold budget_exhausted in *. rewrite Hc, Hw, Hn. exact Hex. }
      destruct (allowOpenAICall_exhausted cfg s1 Hex1) as (s2 & E2 & _).
      rewrite E2. reflexivity.
    + destruct (allowOpenAICall_returns cfg s1) as (b & s2 & E2). rewrite E2.
      destruct b; cbn [negb]; unfold cacheSet; mred; [|reflexivity].
      rewrite Hsome, Hbody. mred.
      pose proof (classify_both_fail svc content s2 Hboth) as Hc2.
      destruct (classify content svc s2) as [[r|e] s3]; cbn [fst] in Hc2.
      * exact Hc2.
      * discriminate Hc2.
    + unfold gate_state in Hthrow. rewrite Es1 in Hthrow.
      destruct (allowOpenAICall_returns cfg s1) as (b & s2 & E2).
      rewrite E2 in Hthrow. cbn [snd] in Hthrow. rewrite E2.
      destruct b; cbn [negb]; unfold cacheSet; mred; [|reflexivity].
      rewrite Hsome. mred.
      destruct (body content svc s2) as [[r|e'] s3]; cbn [fst] in Hthrow.
      * discriminate Hthrow.
      * reflexivity.
Qed.

(** Scenario D: no service configured, a text the prefilter forces a check
    on; the budget is charged and the gateway answers OK. *)
Lemma C3_gateway_always_resolves_witness :
  cache_miss default_config (initial_state 1000) "some slur text" /\
  gateway_failure default_config (reliable None) classify "some slur text"
    (initial_state 1000) /\
  fst (performOpenAICall default_config (reliable None) "some slur text"
         (initial_state 1000)) = Returned ok_result.
Proof.
  assert (Hm : cache_miss default_config (initial_state 1000) "some slur text")
    by exact I.
  assert (Hf : gateway_failure default_config (reliable None) classify
                 "some slur text" (initial_state 1000))
    by (apply Unconfigured; reflexivity).
  split; [exact Hm|]. split; [exact Hf|].
  exact (proj2 (C3_gateway_always_resolves default_config (reliable None) classify
                  "some slur text" (initial_state 1000)) Hm Hf).
Defined.

(** ** The rate window and the service, as equations *)

Lemma allowOpenAICall_eq (cfg : Config) (s : State) :
  exists s1, allowOpenAICall cfg s = (Returned (budget_left cfg s), s1) /\
    clock s1 = clock s /\
    windowStart s1 = (if 60000 <=? clock s - windowStart s then clock s else windowStart s) /\
    callsThisWindow s1 = charged s + (if budget_left cfg s then 1 else 0) /\
    activeCalls s1 = activeCalls s /\ messageCache s1 = messageCache s /\
    recentMessages s1 = recentMessages s /\ quarantineMap s1 = quarantineMap s /\
    strikes s1 = strikes s /\ memberRoles s1 = memberRoles s /\ trace s1 = trace s.
Proof.
  unfold allowOpenAICall, budget_left, charged. mred.
  destruct (60000 <=? clock s - windowStart s); mred;
    match goal with |- context [MAX_OPENAI_PER_MIN cfg <=? ?c] =>
      destruct (MAX_OPENAI_PER_MIN cfg <=? c) end;
    cbn [negb]; eexists; (split; [reflexivity|]); mred;
    repeat split; lia.
Qed.

Lemma requestRaw_eq (svc : Service) (req : Request) (complaint : string) (s : State) :
  requestRaw svc req complaint s =
    (Returned (rawReply svc req),
     set_trace (trace s ++ request_effects svc req complaint) s).
Proof.
  unfold requestRaw, rawReply, request_effects. mred.
  destruct (chat_completions_create svc req) as [e|[c|]]; mred; try reflexivity.
  destruct (responses_create svc req); mred; rewrite <- ?app_assoc; reflexivity.
Qed.

Lemma both_fail_rawReply (svc : Service) (req : Request) :
  both_strategies_fail svc req -> rawReply svc req = None.
Proof.
  intros [[e He] Hr]. unfold rawReply. rewrite He.
  destruct Hr as [Hr|[e' Hr]]; rewrite Hr; reflexivity.
Qed.

(** ** C2: the lenient fallbacks of the adjudication step *)

(** What [verifyStrikeDecision] leaves untouched, and what it appends. *)
Lemma verifyStrikeDecision_frame (cfg : Config) (world : World)
    (content : string) (category : Category) (s : State) :
  exists v s1 d,
    verifyStrikeDecision cfg world content category s = (Returned v, s1) /\
    clock s1 = clock s /\ strikes s1 = strikes s /\
    memberRoles s1 = memberRoles s /\ messageCache s1 = messageCache s /\
    trace s1 = (trace s ++ d)%list /\
    Forall (fun e => is_strike_insert e = false) d /\
    (strike v = true ->
     exists svc raw, openai world = Some svc /\ budget_left cfg s = true /\
       rawReply svc (Verify content category) = Some raw /\
       Js.includes (Js.toUpperCase (hd "" (nonempty_lines raw))) "STRIKE" = true).
Proof.
  unfold verifyStrikeDecision.
  destruct (openai world) as [svc|] eqn:Eo.
  2:{ exists (mkVerification false "verification_unavailable_no_openai_lenient"), s, [].
      mred. rewrite app_nil_r. repeat split; auto. cbn. discriminate. }
  mred.
  destruct (allowOpenAICall_eq cfg s)
    as (s1 & E1 & Hc & _ & _ & _ & Hm & _ & _ & Hs & Hr & Ht).
  rewrite E1.
  destruct (budget_left cfg s) eqn:Eb; cbn [negb].
  2:{ exists (mkVerification false "verification_unavailable_rate_limited_lenient"), s1, [].
      rewrite app_nil_r. repeat split; auto. cbn. discriminate. }
  rewrite requestRaw_eq.
  destruct (rawReply svc (Verify content category)) as [raw|] eqn:Er.
  - eexists _, _, (request_effects svc (Verify content category) _).
    split; [reflexivity|]. mred.
    repeat split; auto.
    + rewrite Ht. reflexivity.
    + unfold request_effects.
      destruct (chat_completions_create svc _); [|repeat constructor].
      destruct (responses_create svc _); repeat constructor.
    + intros Hv. exists svc, raw. repeat split; auto.
      rewrite parseVerification_strike in Hv. exact Hv.
  - eexists _, _, (request_effects svc (Verify content category) _).
    split; [reflexivity|]. mred.
    repeat split; auto.
    + rewrite Ht. reflexivity.
    + unfold request_effects.
      destruct (chat_completions_create svc _); [|repeat constructor].
      destruct (responses_create svc _); repeat constructor.
    + cbn. discriminate.
Qed.

Lemma strike_inserts_app (t d : list Effect) :
  Forall (fun e => is_strike_insert e = false) d ->
  strike_inserts (t ++ d) = strike_inserts t.
Proof.
  intros H. unfold strike_inserts. rewrite List.filter_app, List.length_app.
  assert (E : List.filter is_strike_insert d = []).
  { induction H as [|e d He _ IH]; [reflexivity|]. cbn. rewrite He. exact IH. }
  rewrite E. cbn. lia.
Qed.

(** In each lenient case the verdict is not a strike. *)
Lemma verifyStrikeDecision_lenient (cfg : Config) (world : World)
    (content : string) (category : Category) (s : State) :
  lenient_case cfg world s content category ->
  exists v, fst (verifyStrikeDecision cfg world content category s) = Returned v /\
            strike v = false.
Proof.
  intros Hcase.
  destruct (verifyStrikeDecision_frame cfg world content category s)
    as (v & s1 & d & E & _ & _ & _ & _ & _ & _ & Hconf).
  exists v. rewrite E. split; [reflexivity|].
  destruct (strike v) eqn:Ev; [|reflexivity].
  destruct (Hconf eq_refl) as (svc & raw & Ho & Hb & Hr & Hi).
  destruct Hcase as [Hn|Hex|svc' Ho' Hf|svc' raw' Ho' Hr' Hi' _].
  - congruence.
  - unfold budget_exhausted in Hex. unfold budget_left, charged in Hb.
    apply negb_true_iff, Z.leb_gt in Hb. lia.
  - assert (svc' = svc) by congruence. subst svc'.
    rewrite (both_fail_rawReply _ _ Hf) in Hr. discriminate Hr.
  - assert (svc' = svc) by congruence. subst svc'.
    assert (raw' = raw) by congruence. subst raw'. congruence.
Qed.

(** Without a strike verdict, [decideAndApplyStrike] only logs. *)
Lemma decideAndApplyStrike_declined (cfg : Config) (world : World) (msg : Message)
    (category : Category) (s s1 : State) (v : Verification) :
  verifyStrikeDecision cfg world (m_content msg) category s = (Returned v, s1) ->
  strike v = false ->
  decideAndApplyStrike cfg world msg category s =
    (Returned tt,
     set_trace (trace s1 ++ [Log "openai.verification" "" (reason v);
                             Log "strike.skipped_by_verification" "" (reason v)]) s1).
Proof.
  intros E Hv. unfold decideAndApplyStrike. mred. rewrite E. mred. rewrite Hv.
  mred. rewrite <- app_assoc. reflexivity.
Qed.

(** The lenient cases: when the service is unconfigured, the budget is
    exhausted, both call strategies fail, or the first line of the reply
    holds neither verdict token, [verifyStrikeDecision] answers
    [strike = false] and [decideAndApplyStrike] returns with the strike
    table as it was, no row written and no role changed. *)
Theorem lenient_cases_record_no_strike (cfg : Config) (world : World) (msg : Message)
    (category : Category) (s : State)
    (Hcase : lenient_case cfg world s (m_content msg) category) :
  (exists v, fst (verifyStrikeDecision cfg world (m_content msg) category s) = Returned v /\
             strike v = false) /\
  fst (decideAndApplyStrike cfg world msg category s) = Returned tt /\
  strikes (snd (decideAndApplyStrike cfg world msg category s)) = strikes s /\
  memberRoles (snd (decideAndApplyStrike cfg world msg category s)) = memberRoles s /\
  strike_inserts (trace (snd (decideAndApplyStrike cfg world msg category s)))
    = strike_inserts (trace s).
Proof.
  destruct (verifyStrikeDecision_lenient cfg world _ category s Hcase) as (v & Ev & Hv).
  split; [exists v; auto|].
  destruct (verifyStrikeDecision_frame cfg world (m_content msg) category s)
    as (v' & s1 & d & E & _ & Hs & Hr & _ & Ht & Hd & _).
  rewrite E in Ev. cbn [fst] in Ev. injection Ev as ->.
  rewrite (decideAndApplyStrike_declined cfg world msg category s s1 v E Hv).
  mred. repeat split; auto.
  rewrite Ht, <- app_assoc. apply strike_inserts_app.
  apply Forall_app. split; [exact Hd|]. repeat constructor.
Qed.

Lemma lenient_cases_record_no_strike_witness :
  let w := reliable (Some (scripted "FLAG_BET" "I am not sure about this one")) in
  let msg := text_message "m1" "user" "dm for picks" in
  lenient_case default_config w (initial_state 1000) (m_content msg) FLAG_BET /\
  strikes (snd (decideAndApplyStrike default_config w msg FLAG_BET (initial_state 1000)))
    = [].
Proof.
  cbv zeta.
  assert (Hc : lenient_case default_config
                 (reliable (Some (scripted "FLAG_BET" "I am not sure about this one")))
                 (initial_state 1000)
                 (m_content (text_message "m1" "user" "dm for picks")) FLAG_BET).
  { eapply NoVerdict; [reflexivity|reflexivity|reflexivity|reflexivity]. }
  split; [exact Hc|].
  exact (proj1 (proj2 (proj2 (lenient_cases_record_no_strike default_config _ _ FLAG_BET
                                 (initial_state 1000) Hc)))).
Defined.

Lemma verifyStrikeDecision_verdict (cfg : Config) (world : World)
    (content : string) (category : Category) (s : State) (svc : Service) (raw : string) :
  openai world = Some svc ->
  budget_left cfg s = true ->
  rawReply svc (Verify content category) = Some raw ->
  exists s1, verifyStrikeDecision cfg world content category s
               = (Returned (parseVerification raw), s1) /\
             clock s1 = clock s /\ strikes s1 = strikes s.
Proof.
  intros Hsvc Hbudget Hreply. unfold verifyStrikeDecision. rewrite Hsvc. mred.
  destruct (allowOpenAICall_eq cfg s)
    as (s1 & E1 & Hc & _ & _ & _ & _ & _ & _ & Hs & _ & _).
  rewrite E1, Hbudget. cbn [negb]. rewrite requestRaw_eq, Hreply. mred.
  eexists. split; [reflexivity|]. mred. split; assumption.
Qed.

(** C2: a ruling that denies the strike creates one.  The service is
    configured, the budget is not spent and the adjudication answers with
    a first line that holds NO_STRIKE, in any case and with anything
    around it.  NO_STRIKE holds STRIKE, the token that is tested first,
    so [verifyStrikeDecision] answers [strike = true], and when the store
    takes the row [decideAndApplyStrike] persists a strike for the
    message: a flag that the adjudication has explicitly not confirmed. *)
Theorem C2_explicit_denial_creates_a_strike (cfg : Config) (world : World)
    (msg : Message) (category : Category) (s : State) (svc : Service) (raw : string)
    (Hsvc : openai world = Some svc)
    (Hbudget : budget_left cfg s = true)
    (Hreply : rawReply svc (Verify (m_content msg) category) = Some raw)
    (Hdenial : Js.includes (Js.toUpperCase (hd "" (nonempty_lines raw))) "NO_STRIKE" = true)
    (Hcreate : strike_create_ok world = true) :
  (exists v, fst (verifyStrikeDecision cfg world (m_content msg) category s) = Returned v /\
             strike v = true) /\
  strikes (snd (decideAndApplyStrike cfg world msg category s)) =
    (strikes s ++
     [mkStrike (msg_guild msg) (m_author msg) category
        "auto-moderation - message flagged (verified)" (m_id msg) "bot"
        (clock s) false])%list.
Proof.
  destruct (verifyStrikeDecision_verdict cfg world (m_content msg) category s svc raw
              Hsvc Hbudget Hreply) as (s1 & E & Hc & Hs).
  assert (Hv : strike (parseVerification raw) = true).
  { rewrite parseVerification_strike. apply NO_STRIKE_includes_STRIKE. exact Hdenial. }
  split.
  - exists (parseVerification raw). rewrite E. split; [reflexivity|exact Hv].
  - unfold decideAndApplyStrike, createStrike, countActiveStrikes, muteMemberForever,
      muteMember, msg_member, ensureMutedRole, roles_has, roles_add.
    mred. rewrite E. mred. rewrite Hv, Hcreate.
    run_cases; rewrite ?Hs, ?Hc; reflexivity.
Qed.

Lemma C2_explicit_denial_creates_a_strike_witness :
  let w := reliable (Some (scripted "FLAG_HATE" "no_strike: friendly banter")) in
  let msg := text_message "m1" "user" "you absolute donkey" in
  strikes (snd (decideAndApplyStrike default_config w msg FLAG_HATE (initial_state 1000)))
  = [mkStrike "guild" "user" FLAG_HATE "auto-moderation - message flagged (verified)"
       "m1" "bot" 1000 false].
Proof.
  cbv zeta.
  refine (proj2 (C2_explicit_denial_creates_a_strike default_config
            (reliable (Some (scripted "FLAG_HATE" "no_strike: friendly banter")))
            (text_message "m1" "user" "you absolute donkey") FLAG_HATE
            (initial_state 1000)
            (scripted "FLAG_HATE" "no_strike: friendly banter")
            "no_strike: friendly banter" _ _ _ _ _)); reflexivity.
Defined.

(** The sharp s: its capital form is SS, so a first line that begins with
    it is read as holding STRIKE. *)
Example sharp_s_examples :
  Js.toUpperCase (String (ascii_of_N 223) "trike") = "SSTRIKE" /\
  strike (parseVerification (String (ascii_of_N 223) "trike")) = true /\
  fst (mapCategory (String (ascii_of_N 223) "pam")) = OK.
Proof. vm_compute. auto. Qed.

(** ** Relations kept along a computation *)

Section Keeps.

Context {St : Type} {R : St -> St -> Prop} `{!PreOrder R}.

Lemma keeps_ret {A} (a : A) : keeps R (ret a).
Proof. intros s. reflexivity. Qed.

Lemma keeps_throw {A} (e : string) : keeps R (@throw St A e).
Proof. intros s. reflexivity. Qed.

Lemma keeps_gets {A} (f : St -> A) : keeps R (gets f).
Proof. intros s. reflexivity. Qed.

Lemma keeps_modify (f : St -> St) : (forall s, R s (f s)) -> keeps R (modify f).
Proof. intros H s. apply H. Qed.

Lemma keeps_bind {A B} (m : M St A) (k : A -> M St B) :
  keeps R m -> (forall a, keeps R (k a)) -> keeps R (bind m k).
Proof.
  intros Hm Hk s. unfold bind. specialize (Hm s).
  destruct (m s) as [[a|e] s1]; cbn [snd] in *; [|exact Hm].
  etransitivity; [exact Hm|apply Hk].
Qed.

Lemma keeps_try_catch {A} (m : M St A) (h : string -> M St A) :
  keeps R m -> (forall e, keeps R (h e)) -> keeps R (try_catch m h).
Proof.
  intros Hm Hh s. unfold try_catch. specialize (Hm s).
  destruct (m s) as [[a|e] s1]; cbn [snd] in *; [exact Hm|].
  etransitivity; [exact Hm|apply Hh].
Qed.

Lemma keeps_try_finally {A} (m : M St A) (f : St -> St) :
  keeps R m -> (forall s, R s (f s)) -> keeps R (try_finally m f).
Proof.
  intros Hm Hf s. unfold try_finally. specialize (Hm s).
  destruct (m s) as [o s1]; cbn [snd] in *.
  etransitivity; [exact Hm|apply Hf].
Qed.

End Keeps.

Create HintDb keeps.

Ltac head_of t :=
  lazymatch t with
  | ?f _ => head_of f
  | _ => t
  end.

(** Proving [keeps R m] along the structure of [m]; [prim] proves that
    a state update is within [R]. *)
Ltac keeps_step prim :=
  first
    [ assumption
    | solve [auto 1 with keeps nocore]
    | apply keeps_ret
    | apply keeps_throw
    | apply keeps_gets
    | apply keeps_modify; intros ?; solve [prim]
    | apply keeps_bind; [ | intros ? ]
    | apply keeps_try_catch; [ | intros ? ]
    | apply keeps_try_finally; [ | intros ?; solve [prim] ]
    | progress cbv beta zeta
    | match goal with
      | |- keeps _ (match ?x with _ => _ end) => destruct x
      end
    | match goal with
      | |- keeps _ ?m => let h := head_of m in progress unfold h
      end ].

Ltac keeps_go prim := repeat keeps_step prim.

(** ** C8: reaching the threshold *)

Lemma active_count_snoc (g u : string) (cutoff : Z) (l : list Strike) (k : Strike) :
  is_active g u cutoff k = true ->
  active_count g u cutoff (l ++ [k]) = active_count g u cutoff l + 1.
Proof.
  intros H. unfold active_count.
  rewrite List.filter_app, List.length_app. cbn [List.filter]. rewrite H.
  cbn [List.length]. lia.
Qed.

(** At the threshold: the member holds threshold - 1 active strikes, the
    adjudication rules STRIKE, and the datastore and the platform do what
    they are asked.  Then [decideAndApplyStrike] writes the row, counts
    right after the write, finds the threshold reached and calls
    [muteMemberForever] before it returns: at the end of the call the
    member holds the muted role, gained here or held before, and the call
    itself has set no timer. *)
Theorem muted_role_is_held_when_the_threshold_is_reached (cfg : Config) (world : World) (msg : Message)
    (category : Category) (s s1 : State) (v : Verification)
    (Hverdict : verifyStrikeDecision cfg world (m_content msg) category s = (Returned v, s1))
    (Hstrike : strike v = true)
    (Hcreate : strike_create_ok world = true)
    (Hcount : strike_count_ok world = true)
    (Hrole : ensure_muted_role_ok world = true)
    (Hadd : roles_add_ok world = true)
    (Hmember : m_has_member msg = true)
    (Hdecay : 0 < STRIKE_DECAY_DAYS cfg)
    (Hheld : active_count (msg_guild msg) (m_author msg) (decay_cutoff cfg (clock s))
               (strikes s) = PERM_MUTE_THRESHOLD cfg - 1) :
  let member := member_key (msg_guild msg) (m_author msg) in
  let s' := snd (decideAndApplyStrike cfg world msg category s) in
  fst (decideAndApplyStrike cfg world msg category s) = Returned tt /\
  strikes s' = (strikes s ++
    [mkStrike (msg_guild msg) (m_author msg) category
       "auto-moderation - message flagged (verified)" (m_id msg) "bot" (clock s) false])%list /\
  active_count (msg_guild msg) (m_author msg) (decay_cutoff cfg (clock s)) (strikes s')
    = PERM_MUTE_THRESHOLD cfg /\
  (member, MUTED_ROLE_NAME cfg) ∈ memberRoles s' /\
  trace s' =
    (trace s1 ++
     [Log "openai.verification" "" (reason v);
      StrikeInsert (msg_guild msg) (m_author msg) category;
      StrikeCount (msg_guild msg) (m_author msg);
      Log "strike.recorded" "" (reason v)] ++
     (if bool_decide ((member, MUTED_ROLE_NAME cfg) ∈ memberRoles s)
      then [Log "member.already_muted_forever" "" ""]
      else [RoleAdd member (MUTED_ROLE_NAME cfg); Log "member.muted_forever" "" ""]))%list.
Proof.
  cbv zeta.
  destruct (verifyStrikeDecision_frame cfg world (m_content msg) category s)
    as (v' & s1' & d & E & Hc & Hs & Hr & _ & _ & _ & _).
  rewrite Hverdict in E. injection E as <- <-.
  assert (Hnew : is_active (msg_guild msg) (m_author msg) (decay_cutoff cfg (clock s))
            (mkStrike (msg_guild msg) (m_author msg) category
               "auto-moderation - message flagged (verified)" (m_id msg) "bot"
               (clock s) false) = true).
  { unfold is_active, decay_cutoff. cbn [s_guildId s_userId s_pardoned s_createdAt negb].
    rewrite !String.eqb_refl. cbn [andb]. apply Z.ltb_lt. lia. }
  assert (Hreached : active_count (msg_guild msg) (m_author msg)
            (decay_cutoff cfg (clock s))
            (strikes s ++ [mkStrike (msg_guild msg) (m_author msg) category
               "auto-moderation - message flagged (verified)" (m_id msg) "bot"
               (clock s) false]) = PERM_MUTE_THRESHOLD cfg).
  { rewrite (active_count_snoc _ _ _ _ _ Hnew), Hheld. lia. }
  unfold decideAndApplyStrike, createStrike, countActiveStrikes, muteMemberForever,
    msg_member, ensureMutedRole, roles_has, roles_add.
  rewrite Hmember, Hcreate, Hcount, Hrole, Hadd.
  mred. rewrite Hverdict. mred. rewrite Hstrike. mred.
  rewrite Hc, Hs. fold (decay_cutoff cfg (clock s)). rewrite Hreached.
  rewrite Z.leb_refl. mred. rewrite Hr.
  destruct (bool_decide ((member_key (msg_guild msg) (m_author msg), MUTED_ROLE_NAME cfg)
                           ∈ memberRoles s)) eqn:Eh; cbn [negb]; mred.
  - apply bool_decide_eq_true in Eh.
    rewrite Hr, <- !app_assoc. repeat split; auto.
  - rewrite <- !app_assoc. repeat split; auto.
    apply elem_of_union. left. apply elem_of_singleton. reflexivity.
Qed.

Lemma muted_role_is_held_when_the_threshold_is_reached_witness :
  let w := reliable (Some (scripted "FLAG_BET" "STRIKE")) in
  let msg := text_message "m5" "user" "dm for picks" in
  let s := state_with_strikes 100000 in
  active_count "guild" "user" (decay_cutoff default_config 100000) (strikes s) = 4 /\
  ("guild:user", "Muted") ∈ memberRoles (snd (decideAndApplyStrike default_config w msg FLAG_BET s)).
Proof.
  cbv zeta. split; [reflexivity|].
  refine (proj1 (proj2 (proj2 (proj2
    (muted_role_is_held_when_the_threshold_is_reached default_config
       (reliable (Some (scripted "FLAG_BET" "STRIKE")))
       (text_message "m5" "user" "dm for picks") FLAG_BET
       (state_with_strikes 100000)
       (snd (verifyStrikeDecision default_config
               (reliable (Some (scripted "FLAG_BET" "STRIKE")))
               "dm for picks" FLAG_BET (state_with_strikes 100000)))
       (mkVerification true "No reason provided")
       _ _ _ _ _ _ _ _ _))))); try reflexivity.
Defined.

(** The flood branch records its strike after a timed mute: with four
    active strikes on record, the third repeat of a text is deleted, the
    member is muted for [AUTO_MUTE_MINUTES] with a timer set, the fifth
    strike is written and counted, and [muteMemberForever] finds the role
    already there. *)
Example flood_branch_at_threshold :
  let s' := snd (deliver default_config (reliable None) flood_messages
                   (state_with_strikes 100000)) in
  List.filter enforcement (trace s') =
    [MessageDelete "c"; RoleAdd "guild:user" "Muted"; SetTimeout 600000 "guild:user";
     StrikeInsert "guild" "user" FLAG_SPAM; StrikeCount "guild" "user"] /\
  Log "member.already_muted_forever" "" "" ∈ trace s' /\
  List.length (strikes s') = 5%nat.
Proof.
  vm_compute. split; [reflexivity|]. split; [|reflexivity].
  do 13 apply list_elem_of_further. apply list_elem_of_here.
Qed.

#[local] Instance same_clock_preorder : PreOrder same_clock.
Proof.
  split.
  - intros s. reflexivity.
  - intros s1 s2 s3 H1 H2. unfold same_clock in *. congruence.
Qed.

Lemma decideAndApplyStrike_same_clock (cfg : Config) (world : World) (msg : Message)
    (category : Category) :
  keeps same_clock (decideAndApplyStrike cfg world msg category).
Proof. keeps_go ltac:(reflexivity). Qed.

(** C8: a timed mute that is still pending undoes the permanent one.  The
    member is muted for some minutes, which gives the role and sets the
    timer; then, holding threshold - 1 active strikes, the member gets a
    strike that the adjudication confirms.  [decideAndApplyStrike] writes
    the row, counts, finds the threshold reached and calls
    [muteMemberForever], which finds the role there and only logs.
    Nothing cancels the timer: when it fires the role is removed, and the
    member, whose strikes are all still active at that time, is left
    with the threshold reached and no muted role. *)
Theorem C8_pending_timer_lifts_the_permanent_mute (cfg : Config) (world : World)
    (msg : Message) (category : Category) (s0 s1 : State) (v : Verification)
    (minutes : Z) (why : string)
    (Hrole : ensure_muted_role_ok world = true)
    (Hadd : roles_add_ok world = true)
    (Hremove : roles_remove_ok world = true)
    (Hcreate : strike_create_ok world = true)
    (Hcount : strike_count_ok world = true)
    (Hmember : m_has_member msg = true)
    (Hminutes : 0 <= minutes)
    (Hwindow : minutes * 60 * 1000 < STRIKE_DECAY_DAYS cfg * 24 * 60 * 60 * 1000)
    (Hheld : active_count (msg_guild msg) (m_author msg) (decay_cutoff cfg (clock s0))
               (strikes s0) = PERM_MUTE_THRESHOLD cfg - 1)
    (Hlasting : active_count (msg_guild msg) (m_author msg)
                  (decay_cutoff cfg (clock s0 + minutes * 60 * 1000))
                  (strikes s0) = PERM_MUTE_THRESHOLD cfg - 1)
    (Hverdict : verifyStrikeDecision cfg world (m_content msg) category
                  (snd (muteMember cfg world (msg_member msg) minutes why s0))
                = (Returned v, s1))
    (Hstrike : strike v = true) :
  let member := member_key (msg_guild msg) (m_author msg) in
  let muted := snd (muteMember cfg world (msg_member msg) minutes why s0) in
  let struck := snd (decideAndApplyStrike cfg world msg category muted) in
  let later := snd (muteTimerFires cfg world member
                      (advance (minutes * 60 * 1000) struck)) in
  SetTimeout (minutes * 60 * 1000) member ∈ trace muted /\
  (member, MUTED_ROLE_NAME cfg) ∈ memberRoles struck /\
  last (trace struck) = Some (Log "member.already_muted_forever" "" "") /\
  fst (countActiveStrikes cfg world (msg_guild msg) (m_author msg) later)
    = Returned (PERM_MUTE_THRESHOLD cfg) /\
  (member, MUTED_ROLE_NAME cfg) ∉ memberRoles later.
Proof.
  cbv zeta.
  set (member := member_key (msg_guild msg) (m_author msg)).
  assert (Em : muteMember cfg world (msg_member msg) minutes why s0 =
               (Returned tt,
                set_trace (trace s0 ++ [RoleAdd member (MUTED_ROLE_NAME cfg);
                                        Log "member.muted" "" why;
                                        SetTimeout (minutes * 60 * 1000) member])
                  (set_memberRoles ({[ (member, MUTED_ROLE_NAME cfg) ]} ∪ memberRoles s0) s0))).
  { unfold muteMember, msg_member, ensureMutedRole, roles_add. rewrite Hmember, Hrole, Hadd.
    mred. destruct s0; cbn. rewrite <- !app_assoc. reflexivity. }
  rewrite Em in *. cbn [snd] in *.
  set (muted := set_trace _ (set_memberRoles _ s0)) in *.
  assert (Hin : (member, MUTED_ROLE_NAME cfg) ∈ memberRoles muted).
  { unfold muted. destruct s0; cbn. apply elem_of_union. left.
    apply elem_of_singleton. reflexivity. }
  assert (Hclock : clock muted = clock s0) by (unfold muted; destruct s0; reflexivity).
  assert (Hstrikes : strikes muted = strikes s0) by (unfold muted; destruct s0; reflexivity).
  assert (Hdecay : 0 < STRIKE_DECAY_DAYS cfg) by lia.
  destruct (muted_role_is_held_when_the_threshold_is_reached cfg world msg category
              muted s1 v Hverdict Hstrike Hcreate Hcount Hrole Hadd Hmember Hdecay)
    as (_ & Hrows & Hreached & Hstill & Htrace).
  { rewrite Hclock, Hstrikes. exact Hheld. }
  fold member in Hstill, Htrace.
  rewrite (bool_decide_eq_true_2 _ Hin) in Htrace.
  rewrite Hclock in Hreached.
  set (struck := snd (decideAndApplyStrike cfg world msg category muted)) in *.
  splits.
  - unfold muted. destruct s0; cbn. rewrite !elem_of_app. right.
    do 2 apply list_elem_of_further. apply list_elem_of_here.
  - exact Hstill.
  - rewrite Htrace, !app_assoc. apply last_snoc.
  - pose proof (decideAndApplyStrike_same_clock cfg world msg category muted) as Hk.
    unfold same_clock in Hk. fold struck in Hk.
    unfold muteTimerFires, countActiveStrikes, advance. rewrite Hremove, Hcount. mred.
    rewrite Hrows, Hk, Hclock, Hstrikes.
    fold (decay_cutoff cfg (clock s0 + minutes * 60 * 1000)).
    rewrite active_count_snoc, Hlasting; [f_equal; lia|].
    unfold is_active, decay_cutoff. cbn [s_guildId s_userId s_pardoned s_createdAt negb].
    rewrite !String.eqb_refl. cbn [andb]. apply Z.ltb_lt. lia.
  - unfold muteTimerFires, advance. rewrite Hremove. mred.
    rewrite elem_of_difference, elem_of_singleton. tauto.
Qed.

Lemma C8_pending_timer_lifts_the_permanent_mute_witness :
  let w := reliable (Some (scripted "FLAG_BET" "STRIKE")) in
  let msg := text_message "m5" "user" "dm for picks" in
  let muted := snd (muteMember default_config w (Some "guild:user") 30 "Auto-mute"
                      (state_with_strikes 100000)) in
  let struck := snd (decideAndApplyStrike default_config w msg FLAG_BET muted) in
  let later := snd (muteTimerFires default_config w "guild:user"
                      (advance (30 * 60 * 1000) struck)) in
  fst (countActiveStrikes default_config w "guild" "user" later) = Returned 5 /\
  ("guild:user", "Muted") ∉ memberRoles later.
Proof.
  cbv zeta.
  pose proof (C8_pending_timer_lifts_the_permanent_mute default_config
                (reliable (Some (scripted "FLAG_BET" "STRIKE")))
                (text_message "m5" "user" "dm for picks") FLAG_BET
                (state_with_strikes 100000)
                (snd (verifyStrikeDecision default_config
                        (reliable (Some (scripted "FLAG_BET" "STRIKE")))
                        "dm for picks" FLAG_BET
                        (snd (muteMember default_config
                                (reliable (Some (scripted "FLAG_BET" "STRIKE")))
                                (Some "guild:user") 30 "Auto-mute"
                                (state_with_strikes 100000)))))
                (mkVerification true "No reason provided") 30 "Auto-mute") as H.
  cbv zeta in H.
  destruct H as (_ & _ & _ & H4 & H5); try first [reflexivity | discriminate].
  split; [exact H4|exact H5].
Defined.

(** The handler reaches this on its own: a member with four active
    strikes repeats a text three times.  The flood branch mutes for
    [AUTO_MUTE_MINUTES] and sets the timer, writes the fifth strike, and
    [muteMemberForever] finds the role there.  When the next message
    arrives after the timer is due, the timer has fired: five active
    strikes and no muted role. *)
Example flood_at_threshold_ends_unmuted :
  let flood := map (fun m => (5, reliable None, m)) flood_messages in
  let later := [(AUTO_MUTE_MINUTES * 60 * 1000, reliable None,
                 text_message "d" "other" "good morning")] in
  let s := run_events default_config flood [] (state_with_strikes 100000) in
  let s' := run_events default_config (flood ++ later) [] (state_with_strikes 100000) in
  ("guild:user", "Muted") ∈ memberRoles s /\
  Log "member.already_muted_forever" "" "" ∈ trace s /\
  fst (countActiveStrikes default_config (reliable None) "guild" "user" s') = Returned 5 /\
  ("guild:user", "Muted") ∉ memberRoles s'.
Proof.
  vm_compute. splits; [reflexivity| |reflexivity|intros H; discriminate H].
  repeat first [apply list_elem_of_here|apply list_elem_of_further].
Qed.

(** ** C4: the hate allowlist *)

Lemma untouched_refl (s : State) : untouched s s.
Proof.
  repeat split; [set_solver|]. exists []. rewrite app_nil_r. auto.
Qed.

Lemma untouched_trans (s1 s2 s3 : State) :
  untouched s1 s2 -> untouched s2 s3 -> untouched s1 s3.
Proof.
  intros (Hs & Hr & d & Ht & Hd) (Hs' & Hr' & d' & Ht' & Hd').
  repeat split; [congruence|set_solver|].
  exists (d ++ d')%list. rewrite Ht', Ht, app_assoc. split; [reflexivity|].
  apply Forall_app; auto.
Qed.

(** A step that appends harmless effects and keeps strikes and roles. *)
Lemma untouched_step (s s' : State) (d : list Effect) :
  strikes s' = strikes s -> memberRoles s' = memberRoles s ->
  trace s' = (trace s ++ d)%list -> Forall (fun e => enforcement e = false) d ->
  untouched s s'.
Proof.
  intros Hs Hr Ht Hd. repeat split; [exact Hs|rewrite Hr; set_solver|eauto].
Qed.

Lemma cacheGet_cases (cfg : Config) (content : string) (s : State) :
  (exists e, messageCache s !! content = Some e /\
             cacheGet cfg content s = (Returned (Some e), s)) \/
  (exists s1, cacheGet cfg content s = (Returned None, s1) /\
              clock s1 = clock s /\ windowStart s1 = windowStart s /\
              callsThisWindow s1 = callsThisWindow s /\
              activeCalls s1 = activeCalls s /\ strikes s1 = strikes s /\
              memberRoles s1 = memberRoles s /\ trace s1 = trace s /\
              messageCache s1 !! content = None).
Proof.
  unfold cacheGet. mred.
  destruct (messageCache s !! content) as [e|] eqn:E; mred.
  - destruct (CACHE_TTL_MS cfg <? clock s - e_ts e).
    + right. eexists. split; [reflexivity|]. mred. repeat split.
      apply lookup_delete_eq.
    + left. exists e. auto.
  - right. exists s. repeat split. exact E.
Qed.

Lemma request_effects_classify (svc : Service) (content complaint : string) :
  Forall (fun e => enforcement e = false) (request_effects svc (Classify content) complaint).
Proof.
  unfold request_effects.
  destruct (chat_completions_create svc _); [|repeat constructor].
  destruct (responses_create svc _); repeat constructor.
Qed.

(** The gateway under the two assumptions: it returns the hate flag or no
    flag, enforces nothing, and leaves in the cache what it returned. *)
Lemma gateway_hate_or_clean (cfg : Config) (world : World) (content : string) (s : State) :
  cache_says_hate_or_clean content s ->
  service_says_hate_or_clean world content ->
  exists r s1,
    performOpenAICall cfg world content s = (Returned r, s1) /\
    (flagged r = true -> category r = FLAG_HATE) /\
    activeCalls s1 = activeCalls s /\
    untouched s s1 /\ cached_as content r s1.
Proof.
  intros Hcache Hsvc. unfold performOpenAICall, performOpenAICall_with. mred.
  destruct (cacheGet_cases cfg content s)
    as [(e & He & E)|(s1 & E & Hc1 & _ & _ & Ha1 & Hs1 & Hr1 & Ht1 & _)]; rewrite E.
  { eexists _, s. split; [reflexivity|]. cbn [flagged category].
    splits; [apply (Hcache e He)|reflexivity|apply untouched_refl|].
    exists (e_ts e). rewrite He. destruct e; reflexivity. }
  destruct (allowOpenAICall_eq cfg s1)
    as (s2 & E2 & Hc2 & _ & _ & Ha2 & _ & _ & _ & Hs2 & Hr2 & Ht2).
  rewrite E2.
  destruct (budget_left cfg s1); cbn [negb]; unfold cacheSet; mred.
  2:{ eexists _, _. split; [reflexivity|]. mred. cbn [flagged category ok_result].
      splits; [discriminate|congruence| |].
      - apply (untouched_step _ _ [ConsoleWarn "OpenAI rate cap reached; skipping check for content."]);
          mred; [congruence|congruence|congruence|repeat constructor].
      - eexists. apply lookup_insert_eq. }
  destruct (openai world) as [svc|] eqn:Eo; mred.
  2:{ eexists _, _. split; [reflexivity|]. mred. cbn [flagged category ok_result].
      splits; [discriminate|congruence| |].
      - apply (untouched_step _ _ []); mred;
          [congruence|congruence|rewrite app_nil_r; congruence|constructor].
      - eexists. apply lookup_insert_eq. }
  unfold classify. mred. rewrite requestRaw_eq.
  destruct (rawReply svc (Classify content)) as [raw|] eqn:Er; mred.
  2:{ eexists _, _. split; [reflexivity|]. mred. cbn [flagged category ok_result].
      splits; [discriminate|congruence| |].
      - eapply untouched_step; mred;
          [congruence|congruence|rewrite Ht2, Ht1; reflexivity|
           apply request_effects_classify].
      - eexists. apply lookup_insert_eq. }
  pose proof (Hsvc svc raw Eo Er) as Hverdict.
  destruct (mapCategory raw) as [c warning]. cbn [fst] in Hverdict.
  destruct warning as [w|]; mred.
  - eexists _, _. split; [reflexivity|]. mred. cbn [flagged category].
    splits; [destruct Hverdict; subst c; [reflexivity|discriminate]|congruence| |].
    + eapply untouched_step; mred;
        [congruence|congruence|rewrite Ht2, Ht1, <- app_assoc; reflexivity|].
      apply Forall_app. split; [apply request_effects_classify|repeat constructor].
    + eexists. apply lookup_insert_eq.
  - eexists _, _. split; [reflexivity|]. mred. cbn [flagged category].
    splits; [destruct Hverdict; subst c; [reflexivity|discriminate]|congruence| |].
    + eapply untouched_step; mred;
        [congruence|congruence|rewrite Ht2, Ht1; reflexivity|
         apply request_effects_classify].
    + eexists. apply lookup_insert_eq.
Qed.
(** Closing a goal [untouched a b] where [b] is [a] with effects appended. *)
Ltac harmless_step :=
  eapply untouched_step; mred;
  [ try reflexivity; congruence
  | try reflexivity; congruence
  | repeat match goal with H : trace _ = _ |- _ => rewrite H end;
    rewrite <- ?app_assoc; try reflexivity
  | repeat first [ apply List.Forall_nil
                 | apply List.Forall_cons; [reflexivity|]
                 | apply Forall_app; split ]; try assumption ].

Lemma obtainResult_hate_or_clean (cfg : Config) (world : World) (content : string) (s : State) :
  cache_says_hate_or_clean content s ->
  service_says_hate_or_clean world content ->
  exists r s1,
    obtainResult cfg world content s = (Returned r, s1) /\
    (flagged r = true -> category r = FLAG_HATE) /\
    untouched s s1 /\ cached_as content r s1.
Proof.
  intros Hcache Hsvc. unfold obtainResult, enqueueOpenAICall. mred.
  destruct (activeCalls s <? CONCURRENCY cfg); mred.
  - match goal with |- context [performOpenAICall cfg world content ?st] =>
      destruct (gateway_hate_or_clean cfg world content st) as (r & s1 & E & Hr & _ & Hu & Hcached);
        [exact Hcache|exact Hsvc|]
    end.
    rewrite E. mred. exists r. eexists. split; [reflexivity|].
    splits; [exact Hr| |].
    + eapply untouched_trans; [|eapply untouched_trans; [exact Hu|]]; harmless_step.
    + exact Hcached.
  - match goal with |- context [performOpenAICall cfg world content ?st] =>
      destruct (gateway_hate_or_clean cfg world content st) as (r & s1 & E & Hr & _ & Hu & Hcached);
        [exact Hcache|exact Hsvc|]
    end.
    rewrite E. mred. exists r. eexists. split; [reflexivity|].
    splits; [exact Hr| |].
    + eapply untouched_trans; [|eapply untouched_trans; [exact Hu|]]; harmless_step.
    + exact Hcached.
Qed.
Lemma nothing_cached_hate_or_clean (content : string) (s : State) :
  messageCache s !! content = None -> cache_says_hate_or_clean content s.
Proof. intros H e He. rewrite H in He. discriminate He. Qed.

(** The regular branch past flood detection: cache hit or fresh call. *)
Lemma classifyBranch_allowlisted (cfg : Config) (world : World) (msg : Message) (s : State) :
  allowlisted_only (m_content msg) = true ->
  cache_says_hate_or_clean (m_content msg) s ->
  service_says_hate_or_clean world (m_content msg) ->
  exists s', classifyBranch cfg world msg s = (Returned tt, s') /\ untouched s s'.
Proof.
  intros Hallow Hcache Hsvc. unfold classifyBranch. mred.
  destruct (cacheGet_cases cfg (m_content msg) s)
    as [(e & He & E)|(s1 & E & Hc1 & _ & _ & Ha1 & Hs1 & Hr1 & Ht1 & Hm1)]; rewrite E; mred.
  { rewrite Hallow, andb_true_r.
    destruct (e_flagged e) eqn:Ef.
    - rewrite (Hcache e He Ef). cbn [Category_eqb andb]. mred.
      eexists. split; [reflexivity|]. harmless_step.
    - cbn [andb]. mred. eexists. split; [reflexivity|]. harmless_step. }
  destruct (shouldCheckByPolicy cfg world (m_content msg) (m_channel_type msg));
    cbn [negb]; mred.
  2:{ eexists. split; [reflexivity|]. harmless_step. }
  destruct (openai world) as [svc|] eqn:Eo; mred.
  2:{ eexists. split; [reflexivity|]. harmless_step. }
  match goal with |- context [allowOpenAICall cfg ?st] =>
    destruct (allowOpenAICall_eq cfg st)
      as (s2 & E2 & Hc2 & _ & _ & Ha2 & Hm2 & _ & _ & Hs2 & Hr2 & Ht2)
  end.
  rewrite E2. mred in Hm2. mred in Hs2. mred in Hr2. mred in Ht2.
  destruct (budget_left cfg _); cbn [negb]; mred.
  2:{ eexists. split; [reflexivity|]. harmless_step. }
  destruct (obtainResult_hate_or_clean cfg world (m_content msg) s2)
    as (r & s3 & E3 & Hr3 & Hu3 & _);
    [apply nothing_cached_hate_or_clean; rewrite Hm2; exact Hm1|exact Hsvc|].
  rewrite E3. mred. rewrite Hallow, andb_true_r.
  assert (Hu2 : untouched s s2).
  { eapply untouched_step; [congruence|congruence|rewrite Ht2, Ht1; reflexivity|].
    repeat constructor. }
  destruct (flagged r) eqn:Ef.
  - rewrite (Hr3 eq_refl). cbn [Category_eqb andb flagged]. mred.
    eexists. split; [reflexivity|].
    eapply untouched_trans; [exact Hu2|]. eapply untouched_trans; [exact Hu3|].
    harmless_step.
  - cbn [andb]. mred. rewrite Ef. mred.
    eexists. split; [reflexivity|].
    eapply untouched_trans; [exact Hu2|]. eapply untouched_trans; [exact Hu3|].
    harmless_step.
Qed.
(** The quarantine branch: cache hit, fresh call, or expiry of the quarantine. *)
Lemma quarantineBranch_allowlisted (cfg : Config) (world : World) (msg : Message) (s : State) :
  allowlisted_only (m_content msg) = true ->
  cache_says_hate_or_clean (m_content msg) s ->
  service_says_hate_or_clean world (m_content msg) ->
  exists s', quarantineBranch cfg world msg s = (Returned tt, s') /\ untouched s s'.
Proof.
  intros Hallow Hcache Hsvc. unfold quarantineBranch, roles_has. mred.
  match goal with |- context [if ?c <? SEVENTY_TWO_HOURS then _ else _] =>
    destruct (c <? SEVENTY_TWO_HOURS) end; mred.
  - match goal with |- context [cacheGet cfg ?c ?st] =>
      destruct (cacheGet_cases cfg c st)
        as [(e & He & E)|(s1 & E & Hc1 & _ & _ & Ha1 & Hs1 & Hr1 & Ht1 & Hm1)]
    end; rewrite E; mred.
    { mred in He. rewrite Hallow, andb_true_r.
      destruct (e_flagged e) eqn:Ef.
      - rewrite (Hcache e He Ef). cbn [Category_eqb andb]. mred.
        eexists. split; [reflexivity|]. harmless_step.
      - cbn [andb]. mred. eexists. split; [reflexivity|]. harmless_step. }
    mred in Hs1. mred in Hr1. mred in Ht1.
    destruct (allowOpenAICall_eq cfg s1)
      as (s2 & E2 & Hc2 & _ & _ & Ha2 & Hm2 & _ & _ & Hs2 & Hr2 & Ht2).
    rewrite E2.
    assert (Hu2 : untouched s s2).
    { eapply untouched_step; [congruence|congruence|rewrite Ht2, Ht1; reflexivity|].
      repeat constructor. }
    destruct (budget_left cfg s1); mred.
    2:{ eexists. split; [reflexivity|].
        eapply untouched_trans; [exact Hu2|]. harmless_step. }
    destruct (gateway_hate_or_clean cfg world (m_content msg) s2)
      as (r & s3 & E3 & Hr3 & _ & Hu3 & _);
      [apply nothing_cached_hate_or_clean; rewrite Hm2; exact Hm1|exact Hsvc|].
    rewrite E3. mred. rewrite Hallow, andb_true_r.
    destruct (flagged r) eqn:Ef.
    + rewrite (Hr3 eq_refl). cbn [Category_eqb andb]. mred.
      eexists. split; [reflexivity|].
      eapply untouched_trans; [exact Hu2|]. eapply untouched_trans; [exact Hu3|].
      harmless_step.
    + cbn [andb]. mred.
      eexists. split; [reflexivity|].
      eapply untouched_trans; [exact Hu2|]. eapply untouched_trans; [exact Hu3|].
      harmless_step.
  - destruct (bool_decide _); mred.
    2:{ eexists. split; [reflexivity|]. apply untouched_refl. }
    destruct (roles_remove_ok world); mred.
    + eexists. split; [reflexivity|]. unfold untouched. mred.
      splits; [reflexivity|apply subseteq_difference_l; reflexivity|].
      eexists. rewrite <- app_assoc. split; [reflexivity|]. repeat constructor.
    + eexists. split; [reflexivity|]. harmless_step.
Qed.

(** C4 as stated fails: the text holds an allowlisted word and no severe
    slur, the classifier answers FLAG_HATE, and after the handler has run
    the cache holds the hate flag for that text: the gateway caches before
    any consumer looks at the allowlist. *)
Lemma C4_hate_flag_is_cached_as_it_came :
  ~ (forall (cfg : Config) (world : World) (msg : Message) (s : State) (e : CacheEntry),
       allowlisted_only (m_content msg) = true ->
       messageCache (snd (onMessageCreate cfg world msg s)) !! m_content msg = Some e ->
       e_category e <> FLAG_HATE).
Proof.
  intros H.
  apply (H default_config (sampling (Some (scripted "FLAG_HATE" "STRIKE")))
           sweaty_message (initial_state 1000) (mkEntry true FLAG_HATE 1000)).
  - vm_compute. reflexivity.
  - vm_compute. reflexivity.
  - reflexivity.
Qed.

(** C4, amended: the text is allowlisted (an allowlisted word, no severe
    slur) and the verdict for it, cached or fresh, is the hate flag or no
    flag.  Then the regular branch (cache hit and fresh call alike) and the
    quarantine branch both return having deleted nothing, sent nothing,
    asked for no adjudication, written no strike and granted no role; and
    the gateway leaves in the cache exactly the verdict it returns, so the
    hate flag stays cached and it is each consumer that sets it aside. *)
Theorem C4_allowlist_at_every_consumer (cfg : Config) (world : World) (msg : Message)
    (s : State)
    (Hallow : allowlisted_only (m_content msg) = true)
    (Hcache : cache_says_hate_or_clean (m_content msg) s)
    (Hsvc : service_says_hate_or_clean world (m_content msg)) :
  (exists s', classifyBranch cfg world msg s = (Returned tt, s') /\ untouched s s') /\
  (exists s', quarantineBranch cfg world msg s = (Returned tt, s') /\ untouched s s') /\
  (exists r s1, performOpenAICall cfg world (m_content msg) s = (Returned r, s1) /\
                cached_as (m_content msg) r s1).
Proof.
  split; [|split].
  - apply classifyBranch_allowlisted; assumption.
  - apply quarantineBranch_allowlisted; assumption.
  - destruct (gateway_hate_or_clean cfg world (m_content msg) s Hcache Hsvc)
      as (r & s1 & E & _ & _ & _ & Hc).
    exists r, s1. split; assumption.
Qed.

Lemma C4_allowlist_at_every_consumer_witness :
  let w := sampling (Some (scripted "FLAG_HATE" "STRIKE")) in
  allowlisted_only (m_content sweaty_message) = true /\
  exists s', classifyBranch default_config w sweaty_message (initial_state 1000)
               = (Returned tt, s') /\
             untouched (initial_state 1000) s'.
Proof.
  cbv zeta.
  assert (Ha : allowlisted_only (m_content sweaty_message) = true)
    by (vm_compute; reflexivity).
  assert (Hc : cache_says_hate_or_clean (m_content sweaty_message) (initial_state 1000))
    by (apply nothing_cached_hate_or_clean; reflexivity).
  assert (Hs : service_says_hate_or_clean
                 (sampling (Some (scripted "FLAG_HATE" "STRIKE")))
                 (m_content sweaty_message)).
  { intros svc raw Ho Hr. injection Ho as <-. vm_compute in Hr. injection Hr as <-.
    left. vm_compute. reflexivity. }
  split; [exact Ha|].
  exact (proj1 (C4_allowlist_at_every_consumer default_config _ sweaty_message
                  (initial_state 1000) Ha Hc Hs)).
Defined.

(** ** C6: the budget of a window *)

Lemma allow_sequence_within_window (cfg : Config) (k : nat) (s : State) :
  clock s - windowStart s < 60000 ->
  callsThisWindow s + Z.of_nat k = MAX_OPENAI_PER_MIN cfg ->
  fst (allow_sequence cfg (S k) s) = Returned (repeat true k ++ [false])%list.
Proof.
  revert s. induction k as [|k IH]; intros s Hw Hn.
  - cbn [allow_sequence]. mred.
    destruct (allowOpenAICall_eq cfg s) as (s1 & E & _). rewrite E.
    unfold budget_left, charged.
    destruct (60000 <=? clock s - windowStart s) eqn:Er; [apply Z.leb_le in Er; lia|].
    replace (MAX_OPENAI_PER_MIN cfg <=? callsThisWindow s) with true
      by (symmetry; apply Z.leb_le; lia).
    reflexivity.
  - change (allow_sequence cfg (S (S k)))
      with (b <- allowOpenAICall cfg ;; bs <- allow_sequence cfg (S k) ;; ret (b :: bs)).
    mred.
    destruct (allowOpenAICall_eq cfg s) as (s1 & E & Hc & Hws & Hcalls & _). rewrite E.
    unfold budget_left, charged in *.
    destruct (60000 <=? clock s - windowStart s) eqn:Er; [apply Z.leb_le in Er; lia|].
    replace (MAX_OPENAI_PER_MIN cfg <=? callsThisWindow s) with false in *
      by (symmetry; apply Z.leb_gt; lia).
    cbn [negb] in *.
    assert (IHs : fst (allow_sequence cfg (S k) s1) = Returned (repeat true k ++ [false])%list).
    { apply IH; [rewrite Hc, Hws; exact Hw|rewrite Hcalls; lia]. }
    destruct (allow_sequence cfg (S k) s1) as [[bs|e] s2]; cbn [fst] in IHs.
    + injection IHs as ->. reflexivity.
    + discriminate IHs.
Qed.

(** The limiter on its own does what the budget says: in a window that
    does not roll over, [N + 1] calls of [allowOpenAICall] are answered
    [true] [N] times and then [false]. *)
Lemma limiter_admits_the_budget (cfg : Config) (N : nat) (s : State) :
  MAX_OPENAI_PER_MIN cfg = Z.of_nat N ->
  clock s - windowStart s < 60000 ->
  callsThisWindow s = 0 ->
  fst (allow_sequence cfg (S N) s) = Returned (repeat true N ++ [false])%list.
Proof.
  intros Hmax Hw Hc. apply allow_sequence_within_window; [exact Hw|lia].
Qed.

(** C6, evaluated on the code: budget 2, three messages with distinct
    texts that the prefilter sends to the classifier, all at the same
    instant, the service answering OK.  The handler charges the window once
    itself and [performOpenAICall] charges it again, so the first message
    uses up the whole budget: one call reaches the service and two
    messages are skipped, where the budget allows two calls and one skip. *)
Theorem C6_each_classification_is_charged_twice :
  let w := reliable (Some (scripted "OK" "NO_STRIKE")) in
  let s' := snd (deliver budget_of_two w three_messages (initial_state 1000)) in
  forallb (fun m => shouldCheckByPolicy budget_of_two w (m_content m) (m_channel_type m))
          three_messages = true /\
  List.filter is_service_call (trace s') = [CallChat (Classify "dm for picks")] /\
  List.length (List.filter is_rate_limit_log (trace s')) = 2%nat /\
  callsThisWindow s' = 2 /\
  map fst (map_to_list (messageCache s')) = ["dm for picks"].
Proof. vm_compute. repeat split. Qed.

(** For contrast, the gateway called three times on its own with the same
    budget: two calls reach the service and the third is answered OK
    without one. *)
Example gateway_alone_respects_the_budget :
  let w := reliable (Some (scripted "OK" "NO_STRIKE")) in
  let run3 :=
    (r1 <- performOpenAICall budget_of_two w "dm for picks" ;;
     r2 <- performOpenAICall budget_of_two w "parlay tips here" ;;
     r3 <- performOpenAICall budget_of_two w "nba picks today" ;;
     ret [r1; r2; r3])%js in
  fst (run3 (initial_state 1000)) = Returned [ok_result; ok_result; ok_result] /\
  List.filter is_service_call (trace (snd (run3 (initial_state 1000))))
    = [CallChat (Classify "dm for picks"); CallChat (Classify "parlay tips here")].
Proof. vm_compute. repeat split. Qed.

(** ** C9: a uniqueness violation at insert time *)

Module TicketFacts.
Import Ticket.
Import TicketExamples.
Import TicketRelations.

Ltac tred :=
  cbv beta iota zeta delta
    [bind ret gets modify throw try_catch try_finally when note interfere];
  cbn beta iota zeta delta
    [fst snd ticketCreationLocks rows channels categoryOf events
     set_locks set_rows set_channels set_categoryOf set_events].

(** A uniqueness violation at insert time.  No lock is held and the
    pre-check finds no open ticket, so the
    request creates its channel; while it does, another writer persists
    an open ticket [r] for the same guild and owner, and the insert is
    refused with a uniqueness error.  Then the request deletes the channel
    it has just created, persists nothing, releases its lock and returns
    the channel of [r] instead of throwing: the table holds the one open
    ticket [r] of that key, and both requests hand out its channel. *)
Theorem unique_violation_returns_existing (w : TWorld) (s : TState)
    (g o subj : string) (now : Z) (category : string) (r : Row)
    (code : string) (target : bool) (rows1 : list Row) (chans1 : gset string)
    (Hfree : (g ++ ":" ++ o)%string ∉ ticketCreationLocks s)
    (Hfind : find_ok w = true)
    (Hcreate : channel_create_ok w = true)
    (Hnone : List.find (is_open_of g o) (rows s) = None)
    (Hcat : categoryOf s !! g = Some category)
    (Hcatch : category ∈ channels s)
    (Hmean : meanwhile w (rows s, {[ new_channel w ]} ∪ channels s) = (rows1, chans1))
    (Hviolation : insert w rows1 (mkRow (new_channel w) g o subj None)
                  = DbError code target)
    (Hunique : isUniqueErr code target = true)
    (Hone : List.filter (is_open_of g o) rows1 = [r])
    (Hid : Js.truthy (channelId r) = true)
    (Hdistinct : channelId r <> new_channel w)
    (Hthere : channelId r ∈ chans1) :
  let s' := snd (createTicketChannel w g o subj now s) in
  fst (createTicketChannel w g o subj now s) = Returned (channelId r) /\
  rows s' = rows1 /\
  List.filter (is_open_of g o) (rows s') = [r] /\
  ChannelDelete (new_channel w) ∈ events s' /\
  (channel_delete_ok w = true -> new_channel w ∉ channels s') /\
  (g ++ ":" ++ o)%string ∉ ticketCreationLocks s'.
Proof.
  assert (Hother : List.find (is_open_of g o) rows1 = Some r).
  { clear - Hone. induction rows1 as [|x l IH]; [discriminate Hone|].
    cbn [List.filter List.find] in *.
    destruct (is_open_of g o x).
    - injection Hone as -> _. reflexivity.
    - apply IH. exact Hone. }
  cbv zeta.
  unfold createTicketChannel, waitForLock. tred.
  rewrite (bool_decide_eq_false_2 _ Hfree). tred.
  unfold createBody, getOpenTicketByOwner. rewrite Hfind. tred. rewrite Hnone. tred.
  rewrite Hcat. unfold resolveChannel. tred.
  rewrite (bool_decide_eq_true_2 _ Hcatch). tred.
  unfold channels_create. rewrite Hcreate. tred.
  rewrite Hmean. tred.
  unfold createTicketRow. tred. rewrite Hviolation. tred.
  unfold onInsertError. rewrite Hunique. tred.
  unfold getOpenTicketByOwner_or_null, getOpenTicketByOwner. rewrite Hfind. tred.
  rewrite Hother. tred. rewrite Hid.
  rewrite (proj2 (String.eqb_neq _ _) Hdistinct). cbn [andb negb].
  unfold channel_delete, resolveChannel. tred.
  destruct (channel_delete_ok w) eqn:Hdel; tred.
  - rewrite bool_decide_eq_true_2
      by (apply elem_of_difference; split;
          [exact Hthere|rewrite elem_of_singleton; exact Hdistinct]).
    tred.
    rewrite bool_decide_eq_true_2
      by (apply elem_of_union; left; apply elem_of_singleton; reflexivity).
    tred. splits.
    + reflexivity.
    + reflexivity.
    + exact Hone.
    + rewrite !elem_of_app. left. right. apply list_elem_of_singleton. reflexivity.
    + intros _. rewrite elem_of_difference, elem_of_singleton. tauto.
    + rewrite elem_of_difference, elem_of_singleton. tauto.
  - rewrite (bool_decide_eq_true_2 _ Hthere). tred.
    rewrite bool_decide_eq_true_2
      by (apply elem_of_union; left; apply elem_of_singleton; reflexivity).
    tred. splits.
    + reflexivity.
    + reflexivity.
    + exact Hone.
    + rewrite !elem_of_app. left. left. right. apply list_elem_of_singleton. reflexivity.
    + discriminate.
    + rewrite elem_of_difference, elem_of_singleton. tauto.
Qed.

Lemma unique_violation_returns_existing_witness :
  fst (createTicketChannel racing_world "guild" "user" "help me" 1000 quiet_guild)
    = Returned "chan-1" /\
  rows (snd (createTicketChannel racing_world "guild" "user" "help me" 1000 quiet_guild))
    = [rival_row].
Proof.
  pose proof (unique_violation_returns_existing racing_world quiet_guild
                "guild" "user" "help me" 1000 "cat-1" rival_row "P2002" true
                [rival_row] ({[ "chan-1" ]} ∪ ({[ "chan-2" ]} ∪ {[ "cat-1" ]}))) as H.
  cbv zeta in H.
  destruct H as (H1 & H2 & _);
    try first [ reflexivity | discriminate | apply not_elem_of_empty
              | apply elem_of_singleton; reflexivity
              | apply elem_of_union; left; apply elem_of_singleton; reflexivity ].
  split; [exact H1|exact H2].
Defined.








End TicketFacts.

(** * Further properties *)

(** ** The cache *)

(** X1: A verdict put in the cache lives for [CACHE_TTL_MS] milliseconds,
    the bound included.  Up to then [cacheGet] returns it, stamped with
    the time it was stored, and changes nothing; after that the first
    look-up answers null and drops the entry. *)
Theorem cached_verdict_lives_for_the_ttl (cfg : Config) (content : string)
    (flagged : bool) (category : Category) (dt : Z) (s : State) :
  let s1 := advance dt (snd (cacheSet content flagged category s)) in
  cacheGet cfg content s1 =
  if CACHE_TTL_MS cfg <? dt
  then (Returned None, set_messageCache (delete content (messageCache s1)) s1)
  else (Returned (Some (mkEntry flagged category (clock s))), s1).
Proof.
  cbv zeta. unfold cacheSet, cacheGet, advance. mred.
  rewrite lookup_insert_eq. mred. cbn [e_ts].
  replace (clock s + dt - clock s) with dt by lia.
  destruct (CACHE_TTL_MS cfg <? dt); reflexivity.
Qed.

(** ** The rate window *)

(** X2: with a positive budget used up, [allowOpenAICall] refuses until
    60000 ms have passed since the window started and admits from then on;
    the admitted call restarts the window at the time of the call with one
    call charged, a refused call leaves the window as it was. *)
Theorem budget_recovers_when_the_window_elapses (cfg : Config) (s : State) (dt : Z)
    (Hmax : 0 < MAX_OPENAI_PER_MIN cfg)
    (Hfull : MAX_OPENAI_PER_MIN cfg <= callsThisWindow s) :
  let elapsed := 60000 <=? clock s + dt - windowStart s in
  let s1 := snd (allowOpenAICall cfg (advance dt s)) in
  fst (allowOpenAICall cfg (advance dt s)) = Returned elapsed /\
  windowStart s1 = (if elapsed then clock s + dt else windowStart s) /\
  callsThisWindow s1 = (if elapsed then 1 else callsThisWindow s).
Proof.
  cbv zeta.
  destruct (allowOpenAICall_eq cfg (advance dt s))
    as (s1 & E & _ & Hw & Hc & _).
  rewrite E. cbn [fst snd]. rewrite Hw, Hc.
  unfold budget_left, charged, advance. cbn [clock windowStart callsThisWindow].
  destruct (60000 <=? clock s + dt - windowStart s).
  - replace (MAX_OPENAI_PER_MIN cfg <=? 0) with false
      by (symmetry; apply Z.leb_gt; lia).
    cbn [negb]. splits; reflexivity.
  - replace (MAX_OPENAI_PER_MIN cfg <=? callsThisWindow s) with true
      by (symmetry; apply Z.leb_le; lia).
    cbn [negb]. splits; [reflexivity|reflexivity|lia].
Qed.

Lemma budget_recovers_when_the_window_elapses_witness :
  let spent := snd (allow_sequence budget_of_two 2 (initial_state 1000)) in
  fst (allowOpenAICall budget_of_two (advance 59999 spent)) = Returned false /\
  fst (allowOpenAICall budget_of_two (advance 60000 spent)) = Returned true.
Proof.
  cbv zeta. split.
  - refine (proj1 (budget_recovers_when_the_window_elapses budget_of_two
                     (snd (allow_sequence budget_of_two 2 (initial_state 1000)))
                     59999 _ _)); vm_compute; [reflexivity|discriminate].
  - refine (proj1 (budget_recovers_when_the_window_elapses budget_of_two
                     (snd (allow_sequence budget_of_two 2 (initial_state 1000)))
                     60000 _ _)); vm_compute; [reflexivity|discriminate].
Defined.

(** ** The gateway and its cache *)

(** What a call of the gateway amounts to: either it found a usable entry
    and changed nothing, or it wrote the verdict it returns under the key,
    stamped with the current time. *)
Lemma gateway_outcome (cfg : Config) (world : World) (content : string) (s : State) :
  exists r s1,
    performOpenAICall cfg world content s = (Returned r, s1) /\
    clock s1 = clock s /\
    ((exists e, messageCache s !! content = Some e /\
                (CACHE_TTL_MS cfg <? clock s - e_ts e) = false /\
                r = mkResult (e_flagged e) (e_category e) /\ s1 = s) \/
     (cache_miss cfg s content /\ result_consistent r /\
      messageCache s1 =
        <[content := mkEntry (flagged r) (category r) (clock s)]> (messageCache s))).
Proof.
  unfold performOpenAICall, performOpenAICall_with, cacheGet. mred.
  destruct (messageCache s !! content) as [e|] eqn:He; mred.
  - destruct (CACHE_TTL_MS cfg <? clock s - e_ts e) eqn:Ettl; mred.
    2:{ eexists _, s. splits; [reflexivity|reflexivity|].
        left. exists e. auto. }
    assert (Hmiss : cache_miss cfg s content).
    { unfold cache_miss. rewrite He. apply Z.ltb_lt. exact Ettl. }
    match goal with |- context [allowOpenAICall cfg ?st] =>
      destruct (allowOpenAICall_eq cfg st)
        as (s2 & E2 & Hc2 & _ & _ & _ & Hm2 & _)
    end.
    rewrite E2. mred in Hc2. mred in Hm2.
    assert (Hins : forall x, <[content := x]> (messageCache s2)
                             = <[content := x]> (messageCache s)).
    { intros x. rewrite Hm2. apply insert_delete_eq. }
    destruct (budget_left cfg _); cbn [negb]; unfold cacheSet; mred.
    2:{ eexists _, _. splits; [reflexivity|exact Hc2|]. right.
        splits; [exact Hmiss|reflexivity|]. mred. rewrite Hc2. apply Hins. }
    destruct (openai world) as [svc|]; mred.
    2:{ eexists _, _. splits; [reflexivity|exact Hc2|]. right.
        splits; [exact Hmiss|reflexivity|]. mred. rewrite Hc2. apply Hins. }
    unfold classify. mred. rewrite requestRaw_eq.
    destruct (rawReply svc (Classify content)) as [raw|]; mred.
    2:{ eexists _, _. splits; [reflexivity|exact Hc2|]. right.
        splits; [exact Hmiss|reflexivity|]. mred. rewrite Hc2. apply Hins. }
    destruct (mapCategory raw) as [c [w|]]; mred;
      (eexists _, _; splits; [reflexivity|exact Hc2|]; right;
       splits; [exact Hmiss|reflexivity|]; mred; rewrite Hc2; apply Hins).
  - assert (Hmiss : cache_miss cfg s content).
    { unfold cache_miss. rewrite He. exact I. }
    destruct (allowOpenAICall_eq cfg s)
      as (s2 & E2 & Hc2 & _ & _ & _ & Hm2 & _).
    rewrite E2.
    destruct (budget_left cfg _); cbn [negb]; unfold cacheSet; mred.
    2:{ eexists _, _. splits; [reflexivity|exact Hc2|]. right.
        splits; [exact Hmiss|reflexivity|]. mred. rewrite Hc2, Hm2. reflexivity. }
    destruct (openai world) as [svc|]; mred.
    2:{ eexists _, _. splits; [reflexivity|exact Hc2|]. right.
        splits; [exact Hmiss|reflexivity|]. mred. rewrite Hc2, Hm2. reflexivity. }
    unfold classify. mred. rewrite requestRaw_eq.
    destruct (rawReply svc (Classify content)) as [raw|]; mred.
    2:{ eexists _, _. splits; [reflexivity|exact Hc2|]. right.
        splits; [exact Hmiss|reflexivity|]. mred. rewrite Hc2, Hm2. reflexivity. }
    destruct (mapCategory raw) as [c [w|]]; mred;
      (eexists _, _; splits; [reflexivity|exact Hc2|]; right;
       splits; [exact Hmiss|reflexivity|]; mred; rewrite Hc2, Hm2; reflexivity).
Qed.

(** With a cache lifetime that is not negative, a second call of the
    gateway on the same text, right after the first, returns the same
    verdict from the cache: the state is not touched, so the window is not
    charged and the service is not called. *)
Theorem gateway_second_call_is_served_from_cache (cfg : Config) (world : World)
    (content : string) (s s1 : State) (r : Result)
    (Httl : 0 <= CACHE_TTL_MS cfg)
    (Hfirst : performOpenAICall cfg world content s = (Returned r, s1)) :
  performOpenAICall cfg world content s1 = (Returned r, s1).
Proof.
  destruct (gateway_outcome cfg world content s) as (r' & s1' & E & Hc & Hcase).
  rewrite Hfirst in E. injection E as <- <-.
  assert (Hentry : exists e, messageCache s1 !! content = Some e /\
            (CACHE_TTL_MS cfg <? clock s1 - e_ts e) = false /\
            r = mkResult (e_flagged e) (e_category e)).
  { destruct Hcase as [(e & He & Hf & Hr & ->)|(_ & _ & Hm)].
    - exists e. auto.
    - exists (mkEntry (flagged r) (category r) (clock s)). splits.
      + rewrite Hm. apply lookup_insert_eq.
      + cbn [e_ts]. rewrite Hc. apply Z.ltb_ge. lia.
      + destruct r; reflexivity. }
  destruct Hentry as (e & He & Hf & Hr).
  unfold performOpenAICall, performOpenAICall_with, cacheGet. mred.
  rewrite He. mred. rewrite Hf. mred. rewrite Hr. reflexivity.
Qed.

Lemma gateway_second_call_is_served_from_cache_witness :
  let w := reliable (Some (scripted "FLAG_SPAM" "STRIKE")) in
  let s1 := snd (performOpenAICall default_config w "buy coins" (initial_state 1000)) in
  performOpenAICall default_config w "buy coins" s1 = (Returned (mkResult true FLAG_SPAM), s1).
Proof.
  cbv zeta.
  apply (gateway_second_call_is_served_from_cache default_config _ "buy coins"
           (initial_state 1000)).
  - vm_compute. discriminate.
  - vm_compute. reflexivity.
Defined.


(** ** Strikes and mutes *)

(** X3: [decideAndApplyStrike] returns whatever the service, the datastore
    and the platform do, and it writes at most one strike row: the table
    afterwards is the table before, or the table before with one row for
    this message at its end. *)
Theorem decideAndApplyStrike_returns_and_writes_at_most_one_row
    (cfg : Config) (world : World) (msg : Message) (category : Category) (s : State) :
  fst (decideAndApplyStrike cfg world msg category s) = Returned tt /\
  (strikes (snd (decideAndApplyStrike cfg world msg category s)) = strikes s \/
   strikes (snd (decideAndApplyStrike cfg world msg category s)) =
     (strikes s ++
      [mkStrike (msg_guild msg) (m_author msg) category
         "auto-moderation - message flagged (verified)" (m_id msg) "bot"
         (clock s) false])%list).
Proof.
  destruct (verifyStrikeDecision_frame cfg world (m_content msg) category s)
    as (v & s1 & d & E & Hc & Hs & _).
  unfold decideAndApplyStrike, createStrike, countActiveStrikes, muteMemberForever,
    muteMember, msg_member, ensureMutedRole, roles_has, roles_add.
  mred. rewrite E.
  run_cases; rewrite ?Hs, ?Hc; auto.
Qed.

Lemma is_active_earlier_cutoff (g u : string) (cutoff cutoff' : Z) (k : Strike) :
  cutoff <= cutoff' -> is_active g u cutoff' k = true -> is_active g u cutoff k = true.
Proof.
  unfold is_active. intros Hle H.
  apply andb_true_iff in H as [H1 H2]. rewrite H1. cbn [andb].
  apply Z.ltb_lt. apply Z.ltb_lt in H2. lia.
Qed.

Lemma active_count_decays (g u : string) (cutoff cutoff' : Z) (l : list Strike) :
  cutoff <= cutoff' -> active_count g u cutoff' l <= active_count g u cutoff l.
Proof.
  intros Hle. unfold active_count.
  induction l as [|k l IH]; [reflexivity|].
  cbn [List.filter].
  destruct (is_active g u cutoff' k) eqn:E'.
  - rewrite (is_active_earlier_cutoff g u cutoff cutoff' k Hle E').
    cbn [List.length]. lia.
  - destruct (is_active g u cutoff k); cbn [List.length]; lia.
Qed.

(** X4: counting active strikes reads the table and leaves it as it is,
    and with no write in between the count can only go down as time
    passes: decay is evaluated at read time. *)
Theorem active_strikes_only_decay_with_time (cfg : Config) (world : World)
    (g u : string) (s : State) (dt : Z)
    (Hok : strike_count_ok world = true)
    (Hdt : 0 <= dt) :
  exists n n',
    fst (countActiveStrikes cfg world g u s) = Returned n /\
    fst (countActiveStrikes cfg world g u (advance dt s)) = Returned n' /\
    n' <= n /\
    strikes (snd (countActiveStrikes cfg world g u s)) = strikes s.
Proof.
  unfold countActiveStrikes, advance. rewrite Hok. mred.
  eexists _, _. splits; [reflexivity|reflexivity| |reflexivity].
  apply active_count_decays. lia.
Qed.

Lemma active_strikes_only_decay_with_time_witness :
  fst (countActiveStrikes default_config (reliable None) "guild" "user"
         (state_with_strikes 100000)) = Returned 4 /\
  fst (countActiveStrikes default_config (reliable None) "guild" "user"
         (advance (30 * 24 * 60 * 60 * 1000 - 2500) (state_with_strikes 100000)))
    = Returned 2.
Proof.
  destruct (active_strikes_only_decay_with_time default_config (reliable None)
              "guild" "user" (state_with_strikes 100000)
              (30 * 24 * 60 * 60 * 1000 - 2500) eq_refl)
    as (n & n' & H1 & H2 & _).
  - vm_compute. discriminate.
  - split; [vm_compute; reflexivity|vm_compute; reflexivity].
Defined.

(** [muteMemberForever] on a member that is present never throws and
    is idempotent: a second call changes no role, and when the platform
    lets the first call grant the role the second one only logs that the
    member is muted already. *)
Theorem muteMemberForever_is_idempotent (cfg : Config) (world : World)
    (member reason : string) (s : State) :
  let s1 := snd (muteMemberForever cfg world (Some member) reason s) in
  let s2 := snd (muteMemberForever cfg world (Some member) reason s1) in
  fst (muteMemberForever cfg world (Some member) reason s) = Returned tt /\
  fst (muteMemberForever cfg world (Some member) reason s1) = Returned tt /\
  memberRoles s2 = memberRoles s1 /\
  (ensure_muted_role_ok world = true -> roles_add_ok world = true ->
   (member, MUTED_ROLE_NAME cfg) ∈ memberRoles s1 /\
   trace s2 = (trace s1 ++ [Log "member.already_muted_forever" "" ""])%list).
Proof.
  cbv zeta. unfold muteMemberForever, ensureMutedRole, roles_has, roles_add.
  destruct (ensure_muted_role_ok world); mred.
  2:{ splits; try reflexivity. discriminate. }
  destruct (bool_decide ((member, MUTED_ROLE_NAME cfg) ∈ memberRoles s)) eqn:Eh;
    cbn [negb]; mred.
  - rewrite Eh. cbn [negb]. mred. splits; try reflexivity.
    intros _ _. split; [|reflexivity]. apply bool_decide_eq_true in Eh. exact Eh.
  - destruct (roles_add_ok world); mred.
    + rewrite bool_decide_eq_true_2
        by (apply elem_of_union; left; apply elem_of_singleton; reflexivity).
      cbn [negb]. mred. splits; try reflexivity.
      intros _ _. split; [|reflexivity].
      apply elem_of_union. left. apply elem_of_singleton. reflexivity.
    + rewrite Eh. cbn [negb]. mred. splits; try reflexivity. discriminate.
Qed.

Lemma muteMemberForever_is_idempotent_witness :
  let s1 := snd (muteMemberForever default_config (reliable None) (Some "guild:user")
                   "threshold" (initial_state 1000)) in
  ("guild:user", "Muted") ∈ memberRoles s1 /\
  trace (snd (muteMemberForever default_config (reliable None) (Some "guild:user")
                "threshold" s1))
    = (trace s1 ++ [Log "member.already_muted_forever" "" ""])%list.
Proof.
  exact (proj2 (proj2 (proj2 (muteMemberForever_is_idempotent default_config
           (reliable None) "guild:user" "threshold" (initial_state 1000))))
         eq_refl eq_refl).
Defined.

(** X5: the timer of a timed mute lifts a permanent mute.  A member is
    muted for some minutes, then muted forever while the timer is pending
    (which only logs, the role being there already); when the timer fires
    the role is removed, and the member is left without it. *)
Theorem timed_mute_timer_lifts_a_permanent_mute (cfg : Config) (world : World)
    (member : string) (minutes : Z) (s : State)
    (Hrole : ensure_muted_role_ok world = true)
    (Hadd : roles_add_ok world = true)
    (Hremove : roles_remove_ok world = true) :
  let s1 := snd (muteMember cfg world (Some member) minutes "Auto-mute" s) in
  let s2 := snd (muteMemberForever cfg world (Some member) "Reached strikes" s1) in
  let s3 := snd (muteTimerFires cfg world member s2) in
  SetTimeout (minutes * 60 * 1000) member ∈ trace s1 /\
  (member, MUTED_ROLE_NAME cfg) ∈ memberRoles s2 /\
  trace s2 = (trace s1 ++ [Log "member.already_muted_forever" "" ""])%list /\
  (member, MUTED_ROLE_NAME cfg) ∉ memberRoles s3.
Proof.
  cbv zeta.
  unfold muteMember, muteMemberForever, muteTimerFires, ensureMutedRole, roles_has,
    roles_add.
  rewrite Hrole, Hadd, Hremove. mred.
  rewrite bool_decide_eq_true_2
    by (apply elem_of_union; left; apply elem_of_singleton; reflexivity).
  cbn [negb]. mred. splits.
  - rewrite !elem_of_app. right. apply list_elem_of_singleton. reflexivity.
  - apply elem_of_union. left. apply elem_of_singleton. reflexivity.
  - reflexivity.
  - rewrite elem_of_difference, elem_of_singleton. tauto.
Qed.

Lemma timed_mute_timer_lifts_a_permanent_mute_witness :
  let w := reliable None in
  let s1 := snd (muteMember default_config w (Some "guild:user") 10 "Auto-mute"
                   (initial_state 1000)) in
  let s2 := snd (muteMemberForever default_config w (Some "guild:user")
                   "Reached strikes" s1) in
  ("guild:user", "Muted") ∈ memberRoles s2 /\
  ("guild:user", "Muted") ∉ memberRoles (snd (muteTimerFires default_config w "guild:user" s2)).
Proof.
  cbv zeta.
  destruct (timed_mute_timer_lifts_a_permanent_mute default_config
              (reliable None) "guild:user" 10 (initial_state 1000)
              eq_refl eq_refl eq_refl) as (_ & H2 & _ & H4).
  split; [exact H2|exact H4].
Defined.

(** ** Flood detection *)

Lemma occurrences_cons (c : string) (m : Recent) (arr : list Recent) :
  occurrences c (m :: arr) =
  occurrences c arr + (if String.eqb (r_content m) c then 1 else 0).
Proof.
  unfold occurrences. cbn [List.filter].
  destruct (String.eqb (r_content m) c); cbn [List.length]; lia.
Qed.

Lemma occurrences_nonneg (c : string) (arr : list Recent) : 0 <= occurrences c arr.
Proof. unfold occurrences. lia. Qed.

Lemma repeat_loop_spec (arr : list Recent) (freq : gmap string Z) :
  (forall c, default 0 (freq !! c) < REPEAT_THRESHOLD) ->
  repeat_loop freq arr = true <->
  exists c, inherited c = false /\
            REPEAT_THRESHOLD <= default 0 (freq !! c) + occurrences c arr.
Proof.
  revert freq. induction arr as [|m arr IH]; intros freq Hlow.
  - cbn [repeat_loop]. split; [discriminate|].
    intros (c & _ & Hc). unfold occurrences in Hc. cbn in Hc.
    specialize (Hlow c). lia.
  - cbn [repeat_loop]. fold (inherited (r_content m)).
    destruct (inherited (r_content m)) eqn:Ei.
    + rewrite (IH freq Hlow). split; intros (c & Hc & Hn); exists c; (split; [exact Hc|]).
      * rewrite occurrences_cons. destruct (String.eqb (r_content m) c); lia.
      * rewrite occurrences_cons in Hn.
        destruct (String.eqb (r_content m) c) eqn:Ec; [|lia].
        apply String.eqb_eq in Ec. congruence.
    + destruct (REPEAT_THRESHOLD <=? default 0 (freq !! r_content m) + 1) eqn:Et.
      * split; [|reflexivity]. intros _. exists (r_content m). split; [exact Ei|].
        rewrite occurrences_cons, String.eqb_refl. apply Z.leb_le in Et.
        pose proof (occurrences_nonneg (r_content m) arr). lia.
      * apply Z.leb_gt in Et.
        assert (Hlow' : forall c,
                  default 0 (<[r_content m := default 0 (freq !! r_content m) + 1]> freq !! c)
                  < REPEAT_THRESHOLD).
        { intros c. destruct (decide (r_content m = c)) as [<-|Hne].
          - rewrite lookup_insert_eq. exact Et.
          - rewrite lookup_insert_ne by exact Hne. apply Hlow. }
        rewrite (IH _ Hlow').
        split; intros (c & Hc & Hn); exists c; (split; [exact Hc|]).
        -- rewrite occurrences_cons.
           destruct (decide (r_content m = c)) as [<-|Hne].
           ++ rewrite lookup_insert_eq in Hn. rewrite String.eqb_refl.
              cbn [default from_option id] in Hn. lia.
           ++ rewrite lookup_insert_ne in Hn by exact Hne.
              rewrite (proj2 (String.eqb_neq _ _) Hne). lia.
        -- rewrite occurrences_cons in Hn.
           destruct (decide (r_content m = c)) as [<-|Hne].
           ++ rewrite lookup_insert_eq. rewrite String.eqb_refl in Hn.
              cbn [default from_option id]. lia.
           ++ rewrite lookup_insert_ne by exact Hne.
              rewrite (proj2 (String.eqb_neq _ _) Hne) in Hn. lia.
Qed.

(** X6: [checkSpam] answers true exactly when the history holds five
    messages or more, or some text occurs in it three times or more; a text
    that names a property inherited from [Object.prototype], such as
    "constructor", is never counted as a repeat. *)
Theorem checkSpam_detects_bursts_and_repeats (arr : list Recent) :
  checkSpam arr = true <->
  SPAM_THRESHOLD <= Z.of_nat (List.length arr) \/
  exists c, inherited c = false /\ REPEAT_THRESHOLD <= occurrences c arr.
Proof.
  unfold checkSpam.
  destruct (SPAM_THRESHOLD <=? Z.of_nat (List.length arr)) eqn:E.
  - apply Z.leb_le in E. split; auto.
  - apply Z.leb_gt in E. rewrite repeat_loop_spec.
    + split.
      * intros (c & Hc & Hn). right. exists c. split; [exact Hc|].
        rewrite lookup_empty in Hn. cbn [default from_option id] in Hn. lia.
      * intros [H|(c & Hc & Hn)]; [lia|]. exists c. split; [exact Hc|].
        rewrite lookup_empty. cbn [default from_option id]. lia.
    + intros c. rewrite lookup_empty. reflexivity.
Qed.

Example checkSpam_examples :
  map (fun texts => checkSpam (map (fun t => mkRecent t 0) texts))
    [["a"; "b"; "a"; "a"]; ["a"; "b"; "a"; "b"]; ["a"; "b"; "c"; "d"; "e"];
     ["constructor"; "constructor"; "constructor"]; []]
  = [true; false; true; false; false].
Proof. vm_compute. reflexivity. Qed.

Lemma drop_old_spec (now : Z) (arr : list Recent) :
  exists dropped,
    arr = (dropped ++ drop_old now arr)%list /\
    Forall (fun m => SPAM_WINDOW_MS < now - r_ts m) dropped /\
    match drop_old now arr with
    | x :: _ => now - r_ts x <= SPAM_WINDOW_MS
    | [] => True
    end.
Proof.
  induction arr as [|x arr (dropped & Heq & Hd & Hh)].
  - exists []. splits; [reflexivity|constructor|exact I].
  - cbn [drop_old]. destruct (SPAM_WINDOW_MS <? now - r_ts x) eqn:E.
    + exists (x :: dropped). splits.
      * cbn [app]. f_equal. exact Heq.
      * constructor; [apply Z.ltb_lt; exact E|exact Hd].
      * exact Hh.
    + exists []. splits; [reflexivity|constructor|apply Z.ltb_ge; exact E].
Qed.

(** X7: with a history whose timestamps are in order and not ahead of the
    clock, [addRecentMessage] stores and returns a history that ends with
    the new message, is again in order, holds only messages of the last
    [SPAM_WINDOW_MS] milliseconds, and differs from the old history with the
    new message appended only by older messages dropped from its front. *)
Theorem addRecentMessage_keeps_the_last_ten_seconds (g u content : string) (s : State)
    (Horder : history_in_order (clock s)
                (default [] (recentMessages s !! member_key g u))) :
  exists arr dropped,
    addRecentMessage g u content s =
      (Returned arr,
       set_recentMessages (<[member_key g u := arr]> (recentMessages s)) s) /\
    (default [] (recentMessages s !! member_key g u) ++ [mkRecent content (clock s)]
     = dropped ++ arr)%list /\
    Forall (fun m => SPAM_WINDOW_MS < clock s - r_ts m) dropped /\
    last arr = Some (mkRecent content (clock s)) /\
    history_in_order (clock s) arr /\
    Forall (fun m => clock s - r_ts m <= SPAM_WINDOW_MS) arr.
Proof.
  set (old := default [] (recentMessages s !! member_key g u)) in *.
  set (new := mkRecent content (clock s)).
  destruct Horder as [Hsorted Hpast].
  assert (Hall : history_in_order (clock s) (old ++ [new])).
  { split.
    - clear - Hsorted Hpast. induction old as [|x old IH].
      + repeat constructor.
      + cbn [app]. inversion Hsorted as [|? ? Hs Hx]; subst.
        inversion Hpast as [|? ? Hp Hps]; subst.
        constructor; [apply IH; assumption|].
        apply Forall_app. split; [exact Hx|]. repeat constructor. exact Hp.
    - apply Forall_app. split; [exact Hpast|]. repeat constructor. cbn. lia. }
  destruct (drop_old_spec (clock s) (old ++ [new])) as (dropped & Heq & Hdropped & Hhead).
  exists (drop_old (clock s) (old ++ [new])), dropped.
  assert (Hnew_kept : ~ SPAM_WINDOW_MS < clock s - r_ts new).
  { cbn. unfold SPAM_WINDOW_MS. lia. }
  assert (Harr : exists front, drop_old (clock s) (old ++ [new]) = (front ++ [new])%list).
  { clear - Heq Hdropped Hnew_kept.
    destruct (drop_old (clock s) (old ++ [new])) as [|x rest] eqn:E using rev_ind.
    - exfalso. rewrite app_nil_r in Heq.
      rewrite <- Heq in Hdropped. apply Forall_app in Hdropped as [_ Hd].
      inversion Hd; subst. contradiction.
    - rewrite app_assoc in Heq. apply app_inj_tail in Heq as [_ <-]. eauto. }
  destruct Harr as (front & Harr).
  assert (Hin : history_in_order (clock s) (drop_old (clock s) (old ++ [new]))).
  { destruct Hall as [Hs Hp]. rewrite Heq in Hs, Hp. split.
    - clear - Hs. induction dropped as [|d dropped IH]; [exact Hs|].
      apply IH. inversion Hs; assumption.
    - apply Forall_app in Hp as [_ Hp]. exact Hp. }
  splits.
  - unfold addRecentMessage. fold old. mred. reflexivity.
  - exact Heq.
  - exact Hdropped.
  - rewrite Harr. apply last_snoc.
  - exact Hin.
  - destruct (drop_old (clock s) (old ++ [new])) as [|x rest]; [constructor|].
    destruct Hin as [Hs _]. inversion Hs as [|? ? _ Hx]; subst.
    constructor; [exact Hhead|].
    eapply Forall_impl; [exact Hx|]. cbn. intros m Hm. lia.
Qed.

Lemma addRecentMessage_keeps_the_last_ten_seconds_witness :
  let s := set_recentMessages {[ "guild:user" := [mkRecent "old" 1000; mkRecent "new" 9000] ]}
             (initial_state 12000) in
  fst (addRecentMessage "guild" "user" "now" s)
  = Returned [mkRecent "new" 9000; mkRecent "now" 12000].
Proof.
  cbv zeta.
  destruct (addRecentMessage_keeps_the_last_ten_seconds "guild" "user" "now"
              (set_recentMessages
                 {[ "guild:user" := [mkRecent "old" 1000; mkRecent "new" 9000] ]}
                 (initial_state 12000))) as (arr & dropped & E & _).
  - split.
    + vm_compute. repeat constructor; discriminate.
    + vm_compute. repeat constructor; discriminate.
  - vm_compute. reflexivity.
Defined.

(** ** The prefilter on empty texts *)

Lemma trimStart_all_space (s : string) :
  all_space s = true -> Js.trimStart s = "".
Proof.
  unfold all_space. induction s as [|c s IH]; [reflexivity|].
  cbn [list_ascii_of_string forallb Js.trimStart]. intros H.
  apply andb_true_iff in H as [Hc Hs]. rewrite Hc. exact (IH Hs).
Qed.

(** A text made of white space only, the empty text of a message
    that carries just an attachment included, is never sent to the
    classifier by the prefilter, in any channel and whatever the random
    draw. *)
Theorem whitespace_only_text_is_skipped (cfg : Config) (world : World)
    (content : string) (channelType : ChannelType)
    (Hblank : all_space content = true) :
  shouldCheckByPolicy cfg world content channelType = false.
Proof.
  unfold shouldCheckByPolicy, Js.trim.
  rewrite (trimStart_all_space content Hblank). cbn [Js.trimEnd Js.truthy negb].
  rewrite orb_true_r. reflexivity.
Qed.

Lemma whitespace_only_text_is_skipped_witness :
  shouldCheckByPolicy default_config (sampling None) "   " GuildText = false.
Proof.
  apply (whitespace_only_text_is_skipped default_config (sampling None) "   " GuildText).
  reflexivity.
Defined.

(** ** Relations kept by the handler *)

#[local] Instance strikes_appended_preorder : PreOrder strikes_appended.
Proof.
  split.
  - intros s. exists []. symmetry. apply app_nil_r.
  - intros s1 s2 s3 [l Hl] [l' Hl']. exists (l ++ l')%list.
    rewrite Hl', Hl, app_assoc. reflexivity.
Qed.

Ltac strikes_prim :=
  first [ (exists []; cbn; symmetry; apply app_nil_r)
        | (eexists; cbn; reflexivity) ].

Lemma onMessageCreate_appends_strikes (cfg : Config) (world : World) (msg : Message) :
  keeps strikes_appended (onMessageCreate cfg world msg).
Proof. keeps_go strikes_prim. Qed.

Section RunKeeps.

Context (R : State -> State -> Prop) `{!PreOrder R} (cfg : Config).
Hypothesis Hadvance : forall dt s, R s (advance dt s).
Hypothesis Htimer : forall world member, keeps R (muteTimerFires cfg world member).
Hypothesis Hhandler : forall world msg, keeps R (onMessageCreate cfg world msg).

Lemma fire_due_keeps (world : World) (until : Z) (pending : Timers) :
  forall s, R s (snd (fire_due cfg world until pending s)).
Proof.
  induction pending as [|[due member] rest IH]; intros s; cbn [fire_due].
  - reflexivity.
  - destruct (due <=? until).
    + etransitivity; [apply (Hadvance (Z.max 0 (due - clock s)))|].
      etransitivity; [apply Htimer|]. apply IH.
    + specialize (IH s). destruct (fire_due cfg world until rest s). exact IH.
Qed.

Lemma run_event_keeps (ev : Z * World * Message) (x : Timers * State) :
  R (snd x) (snd (run_event cfg ev x)).
Proof.
  destruct ev as [[dt world] msg], x as [pending s]. unfold run_event.
  pose proof (fire_due_keeps world (clock s + dt) pending s) as H.
  destruct (fire_due cfg world (clock s + dt) pending s) as [kept s1].
  cbn [snd] in *.
  etransitivity; [exact H|]. etransitivity; [apply Hadvance|]. apply Hhandler.
Qed.

Lemma run_events_keeps (evs : list (Z * World * Message)) :
  forall pending s, R s (run_events cfg evs pending s).
Proof.
  unfold run_events, run_timed.
  induction evs as [|ev rest IH]; intros pending s; cbn [fold_left].
  - reflexivity.
  - pose proof (run_event_keeps ev (pending, s)) as H.
    destruct (run_event cfg ev (pending, s)) as [pending1 s1]. cbn [snd] in H.
    etransitivity; [exact H|]. apply IH.
Qed.

End RunKeeps.

Lemma muteTimerFires_appends_strikes (cfg : Config) (world : World) (member : string) :
  keeps strikes_appended (muteTimerFires cfg world member).
Proof. keeps_go strikes_prim. Qed.

(** X8: However many messages arrive, whatever the collaborators do,
    however much time passes and whichever timers of timed mutes fire in
    between, the strike table only grows at its end: handling a message
    never removes, reorders or rewrites a strike. *)
Theorem strikes_are_only_ever_appended (cfg : Config)
  (evs : list (Z * World * Message)) (pending : Timers) (s : State) :
  exists l, strikes (run_events cfg evs pending s) = (strikes s ++ l)%list.
Proof.
  apply (run_events_keeps strikes_appended cfg).
  - intros dt s0. exists []. cbn. symmetry. apply app_nil_r.
  - apply muteTimerFires_appends_strikes.
  - apply onMessageCreate_appends_strikes.
Qed.

#[local] Instance same_activeCalls_preorder : PreOrder same_activeCalls.
Proof.
  split.
  - intros s. reflexivity.
  - intros s1 s2 s3 H1 H2. unfold same_activeCalls in *. congruence.
Qed.

Ltac active_prim := reflexivity.

Lemma performOpenAICall_same_activeCalls (cfg : Config) (world : World) (content : string) :
  keeps same_activeCalls (performOpenAICall cfg world content).
Proof. keeps_go active_prim. Qed.

Lemma enqueueOpenAICall_same_activeCalls (cfg : Config) (world : World) (content : string) :
  keeps same_activeCalls (enqueueOpenAICall cfg world content).
Proof.
  intros s. unfold enqueueOpenAICall. mred.
  pose proof (performOpenAICall_same_activeCalls cfg world content
                (set_activeCalls (activeCalls s + 1) s)) as H.
  unfold same_activeCalls in *.
  destruct (performOpenAICall cfg world content _) as [[r|e] s1];
    cbn in *; rewrite H; lia.
Qed.

Lemma obtainResult_same_activeCalls (cfg : Config) (world : World) (content : string) :
  keeps same_activeCalls (obtainResult cfg world content).
Proof.
  intros s. unfold obtainResult. mred.
  destruct (activeCalls s <? CONCURRENCY cfg).
  - mred.
    match goal with |- context [performOpenAICall cfg world content ?s0] =>
      pose proof (performOpenAICall_same_activeCalls cfg world content s0) as H;
      destruct (performOpenAICall cfg world content s0) as [[r|e] s1] end;
      unfold same_activeCalls in *; cbn in *; rewrite H; lia.
  - mred.
    match goal with |- context [enqueueOpenAICall cfg world content ?s0] =>
      pose proof (enqueueOpenAICall_same_activeCalls cfg world content s0) as H;
      destruct (enqueueOpenAICall cfg world content s0) as [[r|e] s1] end;
      unfold same_activeCalls in *; cbn in *; exact H.
Qed.

#[local] Hint Resolve obtainResult_same_activeCalls : keeps.

Lemma onMessageCreate_same_activeCalls (cfg : Config) (world : World) (msg : Message) :
  keeps same_activeCalls (onMessageCreate cfg world msg).
Proof. keeps_go active_prim. Qed.

Lemma muteTimerFires_same_activeCalls (cfg : Config) (world : World) (member : string) :
  keeps same_activeCalls (muteTimerFires cfg world member).
Proof. keeps_go active_prim. Qed.

(** X9: Every slot taken for a classification is given back, whether the
    call returns or throws: after any run of messages, with the timers of
    the timed mutes firing in between, the count of calls in flight is
    what it was before. *)
Theorem slots_are_always_given_back (cfg : Config)
  (evs : list (Z * World * Message)) (pending : Timers) (s : State) :
  activeCalls (run_events cfg evs pending s) = activeCalls s.
Proof.
  apply (run_events_keeps same_activeCalls cfg).
  - intros dt s0. reflexivity.
  - apply muteTimerFires_same_activeCalls.
  - apply onMessageCreate_same_activeCalls.
Qed.

#[local] Instance within_budget_preorder (cfg : Config) : PreOrder (within_budget cfg).
Proof.
  split.
  - intros s H. exact H.
  - intros s1 s2 s3 H1 H2 H. apply H2, H1, H.
Qed.

Ltac budget_prim := intros ?; assumption.

Lemma allowOpenAICall_within_budget (cfg : Config) :
  keeps (within_budget cfg) (allowOpenAICall cfg).
Proof.
  intros s H. unfold allowOpenAICall. mred.
  destruct (60000 <=? clock s - windowStart s); mred;
    match goal with |- context [MAX_OPENAI_PER_MIN cfg <=? ?c] =>
      destruct (Z.leb_spec (MAX_OPENAI_PER_MIN cfg) c) end; cbn in *; lia.
Qed.

#[local] Hint Resolve allowOpenAICall_within_budget : keeps.

Lemma onMessageCreate_within_budget (cfg : Config) (world : World) (msg : Message) :
  keeps (within_budget cfg) (onMessageCreate cfg world msg).
Proof. keeps_go budget_prim. Qed.

Lemma muteTimerFires_within_budget (cfg : Config) (world : World) (member : string) :
  keeps (within_budget cfg) (muteTimerFires cfg world member).
Proof. keeps_go budget_prim. Qed.

(** X10: From a fresh start the window counter never exceeds the
    configured budget per minute, whatever messages arrive and whenever,
    the timers of the timed mutes firing in between; with a negative
    budget it stays at zero. *)
Theorem the_window_counter_never_exceeds_the_budget (cfg : Config)
  (evs : list (Z * World * Message)) (pending : Timers) (now : Z) :
  0 <= callsThisWindow (run_events cfg evs pending (initial_state now))
    <= Z.max 0 (MAX_OPENAI_PER_MIN cfg).
Proof.
  apply (run_events_keeps (within_budget cfg) cfg).
  - intros dt s0 H. exact H.
  - apply muteTimerFires_within_budget.
  - apply onMessageCreate_within_budget.
  - cbn. lia.
Qed.

#[local] Instance consistency_kept_preorder : PreOrder consistency_kept.
Proof.
  split.
  - intros s H. exact H.
  - intros s1 s2 s3 H1 H2 H. apply H2, H1, H.
Qed.

Ltac consistency_prim :=
  intros Hc;
  first [ exact Hc
        | let k := fresh "k" in let e := fresh "e" in let He := fresh "He" in
          intros k e He; cbn in He;
          apply lookup_delete_Some in He as [_ He]; exact (Hc k e He) ].

Lemma cacheSet_consistency (content : string) (flagged : bool) (c : Category) :
  flagged = negb (Category_eqb c OK) ->
  keeps consistency_kept (cacheSet content flagged c).
Proof.
  intros Hf s Hc k e He. unfold cacheSet in He. mred in He.
  destruct (decide (content = k)) as [->|Hne].
  - rewrite lookup_insert_eq in He. injection He as <-. exact Hf.
  - rewrite lookup_insert_ne in He by exact Hne. exact (Hc k e He).
Qed.

Lemma cacheSet_consistency_category (content : string) (c : Category) :
  keeps consistency_kept (cacheSet content (negb (Category_eqb c OK)) c).
Proof. apply cacheSet_consistency. reflexivity. Qed.

Lemma cacheSet_consistency_ok (content : string) :
  keeps consistency_kept (cacheSet content false OK).
Proof. apply cacheSet_consistency. reflexivity. Qed.

#[local] Hint Resolve cacheSet_consistency_category cacheSet_consistency_ok : keeps.

Lemma onMessageCreate_consistency (cfg : Config) (world : World) (msg : Message) :
  keeps consistency_kept (onMessageCreate cfg world msg).
Proof. keeps_go consistency_prim. Qed.

Lemma muteTimerFires_consistency (cfg : Config) (world : World) (member : string) :
  keeps consistency_kept (muteTimerFires cfg world member).
Proof. keeps_go consistency_prim. Qed.

(** X11: From a fresh start every verdict in the cache obeys
    [flagged = (category !== 'OK')], whatever messages have been handled
    and whichever timers have fired, and so does the verdict that the
    gateway then returns for any text. *)
Theorem verdicts_are_always_consistent (cfg : Config)
  (evs : list (Z * World * Message)) (pending : Timers) (now : Z) (world : World)
  (content : string) :
  let s := run_events cfg evs pending (initial_state now) in
  cache_consistent s /\
  exists r s1, performOpenAICall cfg world content s = (Returned r, s1) /\
               result_consistent r.
Proof.
  cbv zeta.
  assert (Hc : cache_consistent (run_events cfg evs pending (initial_state now))).
  { apply (run_events_keeps consistency_kept cfg).
    - intros dt s0 H. exact H.
    - apply muteTimerFires_consistency.
    - apply onMessageCreate_consistency.
    - intros k e He. unfold initial_state in He. cbn [messageCache] in He.
      rewrite lookup_empty in He. discriminate He. }
  split; [exact Hc|].
  destruct (gateway_outcome cfg world content
              (run_events cfg evs pending (initial_state now)))
    as (r & s1 & E & _ & Hcase).
  exists r, s1. split; [exact E|].
  destruct Hcase as [(e & He & _ & -> & _)|(_ & Hr & _)].
  - unfold result_consistent. cbn [flagged category]. apply (Hc content e He).
  - exact Hr.
Qed.

#[local] Instance roles_kept_except_preorder (role : string) :
  PreOrder (roles_kept_except role).
Proof.
  split.
  - intros s k r H _. exact H.
  - intros s1 s2 s3 H1 H2 k r H Hne. apply H2; [apply H1|]; assumption.
Qed.

Ltac roles_prim :=
  let k := fresh "k" in let r := fresh "r" in
  let Hin := fresh "Hin" in let Hne := fresh "Hne" in
  intros k r Hin Hne; cbn;
  first [ exact Hin
        | apply elem_of_union; right; exact Hin
        | apply elem_of_difference; split; [exact Hin|];
          rewrite elem_of_singleton; intros Heq; apply Hne; congruence ].

Lemma onMessageCreate_roles_kept (cfg : Config) (world : World) (msg : Message) :
  keeps (roles_kept_except (QUARANTINED_ROLE_NAME cfg)) (onMessageCreate cfg world msg).
Proof. keeps_go roles_prim. Qed.

#[local] Instance other_roles_kept_preorder (role1 role2 : string) :
  PreOrder (other_roles_kept role1 role2).
Proof.
  split.
  - intros s k r H _ _. exact H.
  - intros s1 s2 s3 H1 H2 k r H Hne1 Hne2. apply H2; [apply H1| |]; assumption.
Qed.

Lemma muteTimerFires_other_roles_kept (cfg : Config) (world : World) (member : string)
    (role : string) :
  keeps (other_roles_kept role (MUTED_ROLE_NAME cfg)) (muteTimerFires cfg world member).
Proof.
  keeps_go ltac:(intros k r Hin Hne1 Hne2; cbn;
                 first [ exact Hin
                       | apply elem_of_difference; split; [exact Hin|];
                         rewrite elem_of_singleton; intros Heq; apply Hne2; congruence ]).
Qed.

(** X12: Only the end of a quarantine and the timer of a timed mute take
    a role away.  Handling one message removes no role from any member,
    the quarantine role apart; and over a run of messages, with the
    timers of the timed mutes firing when they are due, a member keeps
    every role other than the quarantine role and the muted role. *)
Theorem only_quarantine_and_mute_timers_take_a_role_away (cfg : Config)
  (evs : list (Z * World * Message)) (pending : Timers) (s : State)
  (member role : string)
  (Hhas : (member, role) ∈ memberRoles s)
  (Hrole : role <> QUARANTINED_ROLE_NAME cfg) :
  (forall world msg, (member, role) ∈ memberRoles (snd (onMessageCreate cfg world msg s))) /\
  (role <> MUTED_ROLE_NAME cfg ->
   (member, role) ∈ memberRoles (run_events cfg evs pending s)).
Proof.
  split.
  - intros world msg. apply (onMessageCreate_roles_kept cfg world msg s); assumption.
  - intros Hmuted.
    apply (run_events_keeps (other_roles_kept (QUARANTINED_ROLE_NAME cfg)
                               (MUTED_ROLE_NAME cfg)) cfg);
      try assumption.
    + intros dt s0 k r H _ _. exact H.
    + intros world m. apply muteTimerFires_other_roles_kept.
    + intros world msg s0 k r H Hne _.
      apply (onMessageCreate_roles_kept cfg world msg s0); assumption.
Qed.

(** A member who holds the muted role for good floods the channel: the
    timed mute of the flood branch sets a timer, and when it fires the
    muted role is gone; the other role is still there. *)
Lemma only_quarantine_and_mute_timers_take_a_role_away_witness :
  let s := set_memberRoles ({[ ("guild:user", "Member") ]} ∪ {[ ("guild:user", "Muted") ]})
             (initial_state 1000) in
  let flood := map (fun m => (5, sampling None, m)) flood_messages in
  let later := [(AUTO_MUTE_MINUTES * 60 * 1000, sampling None,
                 text_message "d" "other" "good morning")] in
  (("guild:user", "Member") ∈ memberRoles (run_events default_config (flood ++ later) [] s) /\
   ("guild:user", "Member") ∈
     memberRoles (snd (onMessageCreate default_config (sampling None)
                         (text_message "a" "user" "hello there") s))) /\
  fst (run_timed default_config flood [] s) = [(1015 + 600000, "guild:user")] /\
  ("guild:user", "Muted") ∈ memberRoles (run_events default_config flood [] s) /\
  ("guild:user", "Muted") ∉ memberRoles (run_events default_config (flood ++ later) [] s).
Proof.
  cbv zeta. split; [|split; [|split]].
  - destruct (only_quarantine_and_mute_timers_take_a_role_away default_config
                (map (fun m => (5, sampling None, m)) flood_messages ++
                 [(AUTO_MUTE_MINUTES * 60 * 1000, sampling None,
                   text_message "d" "other" "good morning")])
                []
                (set_memberRoles
                   ({[ ("guild:user", "Member") ]} ∪ {[ ("guild:user", "Muted") ]})
                   (initial_state 1000))
                "guild:user" "Member") as [H1 H2].
    + cbn. apply elem_of_union. left. apply elem_of_singleton. reflexivity.
    + vm_compute. discriminate.
    + split; [apply H2; vm_compute; discriminate|apply H1].
  - vm_compute. reflexivity.
  - vm_compute. reflexivity.
  - vm_compute. intros H. discriminate H.
Defined.

(** ** Channels with rules of their own *)

Lemma set_trace_app (s : State) (d1 d2 : list Effect) :
  set_trace (trace (set_trace (trace s ++ d1) s) ++ d2) (set_trace (trace s ++ d1) s)
  = set_trace (trace s ++ d1 ++ d2) s.
Proof. destruct s. cbn. rewrite <- app_assoc. reflexivity. Qed.

(** X13: A post in the advertising channel by anyone but the admin user
    is logged and nothing else: it is not counted for flood detection,
    not looked up, not classified, not deleted, even when its author is
    quarantined. *)
Theorem advertising_channel_is_a_full_bypass (cfg : Config) (world : World)
  (msg : Message) (s : State) (g : string)
  (Hg : m_guild msg = Some g)
  (Hbot : m_author_bot msg = false)
  (Hadmin : m_author msg <> ADMIN_USER_ID cfg)
  (Had : m_channel msg = AD_CHANNEL_ID cfg) :
  onMessageCreate cfg world msg s =
  (Returned tt,
   set_trace (trace s ++ preamble world g ++ [Log "ad_channel.allowed" "" ""]) s).
Proof.
  unfold onMessageCreate, preamble. rewrite Hg, Hbot.
  apply String.eqb_neq in Hadmin. rewrite Hadmin.
  rewrite Had, String.eqb_refl.
  destruct s; destruct (log_channel_known world);
    destruct (has_quarantined_role world && m_has_member msg);
    unfold roles_has; mred; cbn; rewrite <- ?app_assoc; reflexivity.
Qed.

Lemma advertising_channel_is_a_full_bypass_witness :
  let msg := mkMessage "m1" (Some "guild") "user" false "1120271059262906368"
               GuildText "free nudes, dm for picks" true false false [] in
  onMessageCreate default_config (sampling None) msg (initial_state 1000) =
  (Returned tt,
   set_trace (trace (initial_state 1000) ++ preamble (sampling None) "guild" ++
              [Log "ad_channel.allowed" "" ""]) (initial_state 1000)).
Proof.
  cbv zeta.
  apply (advertising_channel_is_a_full_bypass default_config).
  - reflexivity.
  - reflexivity.
  - vm_compute. discriminate.
  - reflexivity.
Defined.

(** X14: In the matchmaking channel a post by someone who is neither
    moderator, manager nor admin, and which matches neither pattern, is
    deleted and its author told; the handler stops there, so the post
    costs no strike and no request, whatever it says. *)
Theorem off_topic_matchmaking_post_is_removed (cfg : Config) (world : World)
  (msg : Message) (s : State) (g : string)
  (Hg : m_guild msg = Some g)
  (Hbot : m_author_bot msg = false)
  (Hadmin : m_author msg <> ADMIN_USER_ID cfg)
  (Had : m_channel msg <> AD_CHANNEL_ID cfg)
  (Hmatch : m_channel msg = MATCH_CHANNEL_ID cfg)
  (Hmod : m_is_mod msg = false)
  (Hmanager : m_is_manager msg = false)
  (Hprefix : Re.test Pattern.MATCH_ALLOWED_PREFIX_REGEX (Js.trim (m_content msg)) = false)
  (Hheur : Re.test Pattern.MATCH_HEURISTIC_REGEX (Js.trim (m_content msg)) = false) :
  onMessageCreate cfg world msg s =
  (Returned tt,
   set_trace (trace s ++ preamble world g ++
              [MessageDelete (m_id msg);
               if message_delete_ok world
               then Log "message.process" "deleted" "match_channel.non_matchmaking"
               else Log "message.process" "delete_failed" "";
               SendDM (m_author msg)]) s).
Proof.
  unfold onMessageCreate, matchChannelGate, delete_and_log, message_delete, sendDM, preamble.
  rewrite Hg, Hbot.
  apply String.eqb_neq in Hadmin. rewrite Hadmin.
  apply String.eqb_neq in Had. rewrite Had.
  rewrite Hmatch, String.eqb_refl, Hmod, Hmanager, Hprefix, Hheur.
  destruct s; destruct (log_channel_known world);
    destruct (has_quarantined_role world && m_has_member msg);
    destruct (message_delete_ok world);
    unfold roles_has; mred; cbn; rewrite <- ?app_assoc; reflexivity.
Qed.

Lemma off_topic_matchmaking_post_is_removed_witness :
  let msg := mkMessage "m1" (Some "guild") "user" false "1031429142538895380"
               GuildText "anyone selling coins" true false false [] in
  onMessageCreate default_config (sampling None) msg (initial_state 1000) =
  (Returned tt,
   set_trace (trace (initial_state 1000) ++ preamble (sampling None) "guild" ++
              [MessageDelete "m1";
               Log "message.process" "deleted" "match_channel.non_matchmaking";
               SendDM "user"]) (initial_state 1000)).
Proof.
  cbv zeta.
  apply (off_topic_matchmaking_post_is_removed default_config (sampling None)
           (mkMessage "m1" (Some "guild") "user" false "1031429142538895380"
              GuildText "anyone selling coins" true false false [])).
  - reflexivity.
  - reflexivity.
  - vm_compute. discriminate.
  - vm_compute. discriminate.
  - reflexivity.
  - reflexivity.
  - reflexivity.
  - vm_compute. reflexivity.
  - vm_compute. reflexivity.
Defined.

(** ** Quarantine *)

#[local] Instance monitored_preorder (key : string) : PreOrder (monitored key).
Proof.
  split.
  - intros s _. auto.
  - intros s1 s2 s3 H1 H2 H. destruct (H1 H) as (Hc & Hq & Hr).
    destruct H2 as (Hc' & Hq' & Hr').
    { unfold quarantine_age in *. rewrite Hc, Hq. exact H. }
    splits; [congruence|congruence|].
    intros x Hx. apply Hr', Hr, Hx.
Qed.

Ltac monitored_prim :=
  intros _; cbn; splits; [reflexivity|reflexivity|];
  let x := fresh "x" in let Hx := fresh "Hx" in
  intros x Hx; first [ exact Hx | apply elem_of_union; right; exact Hx ].

Lemma bind_gets_eq {A B : Type} (f : State -> A) (k : A -> M State B) (s : State) :
  bind (gets f) k s = k (f s) s.
Proof. reflexivity. Qed.

Lemma quarantineBranch_monitored (cfg : Config) (world : World) (msg : Message) :
  keeps (monitored (member_key (msg_guild msg) (m_author msg)))
        (quarantineBranch cfg world msg).
Proof.
  intros s Hage. revert Hage.
  unfold quarantineBranch, Date_now. cbv zeta.
  rewrite !bind_gets_eq.
  set (key := member_key (msg_guild msg) (m_author msg)).
  intros Hage.
  assert (Hif : (clock s - match quarantineMap s !! key with
                           | Some t => if t =? 0 then clock s else t
                           | None => clock s
                           end <? SEVENTY_TWO_HOURS) = true).
  { apply Z.ltb_lt. unfold quarantine_age in Hage.
    destruct (quarantineMap s !! key) as [t|]; [destruct (t =? 0)|];
      unfold SEVENTY_TWO_HOURS in *; lia. }
  rewrite Hif.
  match goal with |- _ /\ _ /\ memberRoles s ⊆ memberRoles (snd (?m s)) =>
    assert (Hk : keeps (monitored key) m) by keeps_go monitored_prim
  end.
  apply Hk, Hage.
Qed.

Lemma onMessageCreate_monitored (cfg : Config) (world : World) (msg : Message) (g : string) :
  m_guild msg = Some g ->
  keeps (monitored (member_key g (m_author msg))) (onMessageCreate cfg world msg).
Proof.
  intros Hg.
  pose proof (quarantineBranch_monitored cfg world msg) as Hq.
  unfold msg_guild in Hq. rewrite Hg in Hq. cbn [default from_option id] in Hq.
  unfold onMessageCreate. rewrite Hg.
  keeps_go monitored_prim.
Qed.

(** X15: Inside the 72 hours after the recorded join time, and for good
    when no join time is on record, a message of a quarantined member
    releases nobody: whatever the handler does with it, nobody loses a
    role. *)
Theorem quarantine_is_not_lifted_inside_the_window (cfg : Config) (world : World)
  (msg : Message) (s : State) (g : string)
  (Hg : m_guild msg = Some g)
  (Hage : quarantine_age (member_key g (m_author msg)) s < SEVENTY_TWO_HOURS) :
  memberRoles s ⊆ memberRoles (snd (onMessageCreate cfg world msg s)).
Proof.
  apply (onMessageCreate_monitored cfg world msg g Hg s Hage).
Qed.

Lemma quarantine_is_not_lifted_inside_the_window_witness :
  let s := set_memberRoles {[ ("guild:user", "Quarantined") ]} (initial_state 1000) in
  ("guild:user", "Quarantined") ∈
  memberRoles (snd (onMessageCreate default_config (sampling None)
                      (text_message "m1" "user" "hello there") s)).
Proof.
  cbv zeta.
  apply (quarantine_is_not_lifted_inside_the_window default_config (sampling None)
           (text_message "m1" "user" "hello there")
           (set_memberRoles {[ ("guild:user", "Quarantined") ]} (initial_state 1000))
           "guild").
  - reflexivity.
  - vm_compute. reflexivity.
  - cbn. apply elem_of_singleton. reflexivity.
Defined.

(** X16: The first message a quarantined member sends once 72 hours have
    passed since the recorded join time ends the quarantine: the role is
    taken away and the join time forgotten.  That message itself is not
    looked at: nothing is looked up, classified or deleted. *)
Theorem quarantine_ends_with_the_first_message_after_the_window (cfg : Config)
  (world : World) (msg : Message) (s : State) (g : string) (t : Z)
  (Hg : m_guild msg = Some g)
  (Hbot : m_author_bot msg = false)
  (Hadmin : m_author msg <> ADMIN_USER_ID cfg)
  (Had : m_channel msg <> AD_CHANNEL_ID cfg)
  (Hmatch : m_channel msg <> MATCH_CHANNEL_ID cfg)
  (Hrole : has_quarantined_role world = true)
  (Hmember : m_has_member msg = true)
  (Hhas : (member_key g (m_author msg), QUARANTINED_ROLE_NAME cfg) ∈ memberRoles s)
  (Hts : quarantineMap s !! member_key g (m_author msg) = Some t)
  (Ht : t <> 0)
  (Hold : SEVENTY_TWO_HOURS <= clock s - t)
  (Hok : roles_remove_ok world = true) :
  let key := member_key g (m_author msg) in
  onMessageCreate cfg world msg s =
  (Returned tt,
   mkState (clock s) (windowStart s) (callsThisWindow s) (activeCalls s)
     (messageCache s) (recentMessages s)
     (delete key (quarantineMap s)) (strikes s)
     (memberRoles s ∖ {[ (key, QUARANTINED_ROLE_NAME cfg) ]})
     (trace s ++ preamble world g ++
      [RoleRemove key (QUARANTINED_ROLE_NAME cfg);
       Log "role.remove" "" "Quarantine expired (message triggered)"])).
Proof.
  cbv zeta.
  unfold onMessageCreate, matchChannelGate, quarantineBranch, preamble, roles_has, msg_guild.
  rewrite Hg, Hbot, Hrole, Hmember.
  apply String.eqb_neq in Hadmin. rewrite Hadmin.
  apply String.eqb_neq in Had. rewrite Had.
  apply String.eqb_neq in Hmatch. rewrite Hmatch.
  cbn [default from_option id andb].
  assert (Hdec : forall tr, bool_decide
            ((member_key g (m_author msg), QUARANTINED_ROLE_NAME cfg) ∈
             memberRoles (set_trace tr s)) = true).
  { intros tr. apply bool_decide_eq_true_2. destruct s; exact Hhas. }
  assert (Hz : (t =? 0) = false) by (apply Z.eqb_neq; exact Ht).
  assert (Hlt : (clock s - t <? SEVENTY_TWO_HOURS) = false) by (apply Z.ltb_ge; exact Hold).
  destruct s as [c ws calls act mc rm qm st mr tr]; cbn in Hts, Hdec, Hlt.
  specialize (Hdec []).
  destruct (log_channel_known world); mred; cbn [negb];
    mred; rewrite ?Hdec; mred; rewrite Hts, Hz, Hlt; mred;
    rewrite ?Hdec; rewrite Hok; mred;
    rewrite <- ?app_assoc; reflexivity.
Qed.

Lemma quarantine_ends_with_the_first_message_after_the_window_witness :
  let s := mkState 300000000 0 0 0 ∅ ∅ {[ "guild:user" := 1000 ]} []
             {[ ("guild:user", "Quarantined") ]} [] in
  onMessageCreate default_config (sampling None)
    (text_message "m1" "user" "free nudes") s =
  (Returned tt,
   mkState 300000000 0 0 0 ∅ ∅ (delete "guild:user" {[ "guild:user" := 1000 ]}) []
     ({[ ("guild:user", "Quarantined") ]} ∖ {[ ("guild:user", "Quarantined") ]})
     ([] ++ preamble (sampling None) "guild" ++
      [RoleRemove "guild:user" "Quarantined";
       Log "role.remove" "" "Quarantine expired (message triggered)"])).
Proof.
  cbv zeta.
  refine (quarantine_ends_with_the_first_message_after_the_window default_config
           (sampling None) (text_message "m1" "user" "free nudes")
           (mkState 300000000 0 0 0 ∅ ∅ {[ "guild:user" := 1000 ]} []
              {[ ("guild:user", "Quarantined") ]} []) "guild" 1000
           _ _ _ _ _ _ _ _ _ _ _ _).
  - reflexivity.
  - reflexivity.
  - vm_compute. discriminate.
  - vm_compute. discriminate.
  - vm_compute. discriminate.
  - reflexivity.
  - reflexivity.
  - cbn. apply elem_of_singleton. reflexivity.
  - vm_compute. reflexivity.
  - lia.
  - vm_compute. discriminate.
  - reflexivity.
Defined.

(** ** Floods *)

#[local] Instance without_the_service_preorder : PreOrder without_the_service.
Proof.
  split.
  - intros s. split; [reflexivity|]. exists []. split; [symmetry; apply app_nil_r|reflexivity].
  - intros s1 s2 s3 (Hc & d & Hd & Hf) (Hc' & d' & Hd' & Hf'). split; [congruence|].
    exists (d ++ d')%list. split.
    + rewrite Hd', Hd, app_assoc. reflexivity.
    + rewrite forallb_app, Hf, Hf'. reflexivity.
Qed.

Ltac service_prim :=
  split; [reflexivity|];
  first [ (exists []; split; [cbn; symmetry; apply app_nil_r|reflexivity])
        | (eexists; split; [cbn; reflexivity|reflexivity]) ].

Lemma spamBranch_without_the_service (cfg : Config) (world : World) (msg : Message) :
  keeps without_the_service (spamBranch cfg world msg).
Proof. keeps_go service_prim. Qed.

Lemma addRecentMessage_without_the_service (g u content : string) :
  keeps without_the_service (addRecentMessage g u content).
Proof. keeps_go service_prim. Qed.

(** X17: A flood is punished on the bot's own count.  When the message
    just recorded makes [checkSpam] answer yes, no request goes to the
    service and the window counter is not charged; and the strike
    (category FLAG_SPAM, reason spam_detection) is written exactly when
    the member is known, the muted role can be had and the store takes the
    row: a failure to get the muted role loses the strike as well. *)
Theorem flood_is_punished_without_the_service (cfg : Config) (world : World)
  (msg : Message) (s : State)
  (Htext : is_forum (m_channel_type msg) = false /\ is_thread (m_channel_type msg) = false)
  (Hflood : checkSpam
              (drop_old (clock s)
                 (default [] (recentMessages s !! member_key (msg_guild msg) (m_author msg))
                  ++ [mkRecent (if Js.truthy (m_content msg) then m_content msg
                                else "<embed/attachment>") (clock s)])) = true) :
  let s' := snd (regularBranch cfg world msg s) in
  without_the_service s s' /\
  strikes s' =
    if m_has_member msg && ensure_muted_role_ok world && strike_create_ok world
    then (strikes s ++
          [mkStrike (msg_guild msg) (m_author msg) FLAG_SPAM "spam_detection"
                    (m_id msg) "bot" (clock s) false])%list
    else strikes s.
Proof.
  cbv zeta. destruct Htext as [Hf Ht].
  split.
  - unfold regularBranch. cbv zeta. rewrite Hf, Ht. cbn [negb andb].
    unfold bind at 1.
    pose proof (addRecentMessage_without_the_service (msg_guild msg) (m_author msg)
      (if Js.truthy (m_content msg) then m_content msg else "<embed/attachment>") s) as Ha.
    unfold addRecentMessage in *. cbv zeta in *. unfold Date_now in *.
    rewrite !bind_gets_eq in *. mred. mred in Ha. rewrite Hflood.
    etransitivity; [exact Ha|]. apply spamBranch_without_the_service.
  - unfold regularBranch, addRecentMessage. cbv zeta. rewrite Hf, Ht. cbn [negb andb].
    mred. rewrite Hflood.
    unfold spamBranch, delete_or_log, message_delete, muteMember, muteMemberForever,
      msg_member, ensureMutedRole, createStrike, countActiveStrikes, roles_add, roles_has.
    destruct (m_has_member msg), (ensure_muted_role_ok world), (strike_create_ok world);
      cbn [andb]; run_cases; reflexivity.
Qed.

Lemma flood_is_punished_without_the_service_witness :
  let msg := text_message "m3" "user" "hello there" in
  let s := set_recentMessages
             {[ "guild:user" := [mkRecent "hello there" 900; mkRecent "hello there" 950] ]}
             (initial_state 1000) in
  let s' := snd (regularBranch default_config (sampling None) msg s) in
  without_the_service s s' /\
  strikes s' = [mkStrike "guild" "user" FLAG_SPAM "spam_detection" "m3" "bot" 1000 false].
Proof.
  cbv zeta.
  refine (flood_is_punished_without_the_service default_config (sampling None)
            (text_message "m3" "user" "hello there")
            (set_recentMessages
               {[ "guild:user" := [mkRecent "hello there" 900; mkRecent "hello there" 950] ]}
               (initial_state 1000)) _ _).
  - split; reflexivity.
  - vm_compute. reflexivity.
Defined.

#[local] Instance same_recentMessages_preorder : PreOrder same_recentMessages.
Proof.
  split.
  - intros s. reflexivity.
  - intros s1 s2 s3 H1 H2. unfold same_recentMessages in *. congruence.
Qed.

Ltac recent_prim := reflexivity.

Lemma classifyBranch_same_recentMessages (cfg : Config) (world : World) (msg : Message) :
  keeps same_recentMessages (classifyBranch cfg world msg).
Proof. keeps_go recent_prim. Qed.

Lemma quarantineBranch_same_recentMessages (cfg : Config) (world : World) (msg : Message) :
  keeps same_recentMessages (quarantineBranch cfg world msg).
Proof. keeps_go recent_prim. Qed.

(** X18: Messages in a forum or in a thread, and messages of a member
    under quarantine, are never counted for flood detection: handling one
    leaves every member's recent history as it was. *)
Theorem forum_thread_and_quarantine_skip_flood_detection (cfg : Config) (world : World)
  (msg : Message) (s : State)
  (Hskip : is_forum (m_channel_type msg) = true \/
           is_thread (m_channel_type msg) = true \/
           (has_quarantined_role world = true /\ m_has_member msg = true /\
            (member_key (msg_guild msg) (m_author msg), QUARANTINED_ROLE_NAME cfg)
              ∈ memberRoles s)) :
  recentMessages (snd (onMessageCreate cfg world msg s)) = recentMessages s.
Proof.
  pose proof (classifyBranch_same_recentMessages cfg world msg) as Hc.
  pose proof (quarantineBranch_same_recentMessages cfg world msg) as Hq.
  destruct Hskip as [Hf|[Ht|(Hrole & Hmem & Hhas)]].
  - assert (Hr : keeps same_recentMessages (regularBranch cfg world msg)).
    { unfold regularBranch. cbv zeta. rewrite Hf. cbn [negb andb]. keeps_go recent_prim. }
    assert (Hk : keeps same_recentMessages (onMessageCreate cfg world msg))
      by (unfold onMessageCreate; keeps_go recent_prim).
    apply Hk.
  - assert (Hr : keeps same_recentMessages (regularBranch cfg world msg)).
    { unfold regularBranch. cbv zeta. rewrite Ht, andb_false_r. keeps_go recent_prim. }
    assert (Hk : keeps same_recentMessages (onMessageCreate cfg world msg))
      by (unfold onMessageCreate; keeps_go recent_prim).
    apply Hk.
  - unfold onMessageCreate, msg_guild in *.
    destruct (m_guild msg) as [g|]; [|reflexivity].
    cbn [default from_option id] in Hhas.
    destruct (m_author_bot msg); [reflexivity|].
    destruct (String.eqb (m_author msg) (ADMIN_USER_ID cfg)); [reflexivity|].
    rewrite Hrole, Hmem. cbn [andb].
    assert (Hdec : forall s0, memberRoles s0 = memberRoles s ->
              roles_has (member_key g (m_author msg)) (QUARANTINED_ROLE_NAME cfg) s0
              = (Returned true, s0)).
    { intros s0 E. unfold roles_has, gets. rewrite E.
      rewrite bool_decide_eq_true_2 by exact Hhas. reflexivity. }
    unfold bind at 1.
    destruct (when (negb (log_channel_known world)) (emit (SetupGuild g)) s)
      as [[[]|e] s0] eqn:E0.
    2:{ unfold when, emit, modify in E0. destruct (negb _); discriminate E0. }
    assert (Hs0 : memberRoles s0 = memberRoles s /\ recentMessages s0 = recentMessages s).
    { unfold when, emit, modify, ret in E0.
      destruct (negb _); injection E0 as <-; destruct s; split; reflexivity. }
    destruct Hs0 as [Hm0 Hr0].
    unfold bind at 1. rewrite (Hdec s0 Hm0).
    rewrite <- Hr0.
    match goal with |- recentMessages (snd (?m s0)) = _ =>
      assert (Hk : keeps same_recentMessages m) by keeps_go recent_prim
    end.
    apply Hk.
Qed.

Lemma forum_thread_and_quarantine_skip_flood_detection_witness :
  let msg := mkMessage "m1" (Some "guild") "user" false "help" GuildForum
               "hello there" true false false [] in
  recentMessages (snd (onMessageCreate default_config (sampling None) msg
                         (initial_state 1000)))
  = recentMessages (initial_state 1000).
Proof.
  cbv zeta.
  apply (forum_thread_and_quarantine_skip_flood_detection default_config).
  left. reflexivity.
Defined.

(** ** Ticket creation: the other paths *)

Module TicketPaths.
Import Ticket.
Import TicketExamples.
Import TicketRelations.
Import TicketFacts.

#[local] Instance same_locks_preorder : PreOrder same_locks.
Proof.
  split.
  - intros s. reflexivity.
  - intros s1 s2 s3 H1 H2. unfold same_locks in *. congruence.
Qed.

Ltac locks_prim :=
  unfold same_locks; cbn;
  repeat match goal with |- context [let (_, _) := ?x in _] => destruct x end;
  reflexivity.

Lemma createBody_same_locks (w : TWorld) (g o subj : string) (now : Z) :
  keeps same_locks (createBody w g o subj now).
Proof. keeps_go locks_prim. Qed.

Lemma getOpenTicketByOwner_or_null_same_locks (w : TWorld) (g o : string) :
  keeps same_locks (getOpenTicketByOwner_or_null w g o).
Proof. keeps_go locks_prim. Qed.

Lemma waitForLock_locks (w : TWorld) (g o : string) (s : TState) :
  exists x s1, waitForLock w (g ++ ":" ++ o)%string g o s = (Returned x, s1) /\
    forall k, k ∈ ticketCreationLocks s1 <->
              k ∈ ticketCreationLocks s /\ k <> (g ++ ":" ++ o)%string.
Proof.
  set (lockKey := (g ++ ":" ++ o)%string).
  unfold waitForLock. unfold bind at 1, gets at 1.
  destruct (bool_decide (lockKey ∈ ticketCreationLocks s)) eqn:Hheld.
  - unfold bind at 1, interfere at 1, modify at 1.
    unfold bind at 1, modify at 1.
    match goal with
    | |- context [bind (getOpenTicketByOwner_or_null w g o) ?k ?s0] =>
        set (s2 := s0);
        pose proof (getOpenTicketByOwner_or_null_same_locks w g o s2) as Hl;
        unfold bind at 1;
        assert (Hr : exists x, fst (getOpenTicketByOwner_or_null w g o s2) = Returned x)
    end.
    { unfold getOpenTicketByOwner_or_null, getOpenTicketByOwner, try_catch, gets, throw, ret.
      destruct (find_ok w); cbn; eauto. }
    destruct Hr as [x Hx].
    destruct (getOpenTicketByOwner_or_null w g o s2) as [out s3]. cbn in Hx, Hl. subst out.
    assert (Hs3 : forall k, k ∈ ticketCreationLocks s3 <->
                            k ∈ ticketCreationLocks s /\ k <> lockKey).
    { intros k. unfold same_locks in Hl. rewrite Hl. unfold s2. cbn.
      destruct (lock_holder w (rows s, channels s)). cbn.
      rewrite elem_of_difference, elem_of_singleton. reflexivity. }
    destruct x as [r|].
    + destruct (Js.truthy (channelId r)).
      * unfold resolveChannel, gets. eauto.
      * unfold ret. eauto.
    + unfold ret. eauto.
  - apply bool_decide_eq_false_1 in Hheld. unfold ret.
    exists None, s. split; [reflexivity|].
    intros k. split.
    + intros Hk. split; [exact Hk|]. intros ->. exact (Hheld Hk).
    + intros [Hk _]. exact Hk.
Qed.

(** X19: Whatever happens inside, a call of [createTicketChannel] leaves
    no lock for its key behind, and leaves the locks of all other keys as
    they were: whether it returns a channel or throws. *)
Theorem the_creation_lock_is_always_released (w : TWorld) (s : TState)
  (g o subj : string) (now : Z) (k : string) :
  k ∈ ticketCreationLocks (snd (createTicketChannel w g o subj now s)) <->
  k ∈ ticketCreationLocks s /\ k <> (g ++ ":" ++ o)%string.
Proof.
  unfold createTicketChannel. cbv zeta.
  destruct (waitForLock_locks w g o s) as (x & s1 & E & Hs1).
  set (lockKey := (g ++ ":" ++ o)%string) in *.
  unfold bind at 1. rewrite E.
  destruct x as [c|]; [apply Hs1|].
  tred.
  match goal with
  | |- context [createBody w g o subj now ?s0] =>
      pose proof (createBody_same_locks w g o subj now s0) as Hb;
      destruct (createBody w g o subj now s0) as [[c|e] s3]
  end; unfold same_locks in Hb; tred; cbn in Hb; rewrite Hb;
    rewrite bool_decide_eq_true_2
      by (apply elem_of_union; left; apply elem_of_singleton; reflexivity);
    cbn; rewrite elem_of_difference, elem_of_union, elem_of_singleton, (Hs1 k); tauto.
Qed.

(** X20: A member who already has an open ticket whose channel still
    exists gets that channel back: no channel is created, no row written,
    and the lock taken for the look-up is released again. *)
Theorem an_open_ticket_is_handed_back (w : TWorld) (s : TState)
  (g o subj : string) (now : Z) (r : Row)
  (Hfree : (g ++ ":" ++ o)%string ∉ ticketCreationLocks s)
  (Hfind : find_ok w = true)
  (Hopen : List.find (is_open_of g o) (rows s) = Some r)
  (Hid : Js.truthy (channelId r) = true)
  (Hthere : channelId r ∈ channels s) :
  let key := (g ++ ":" ++ o)%string in
  let s' := snd (createTicketChannel w g o subj now s) in
  fst (createTicketChannel w g o subj now s) = Returned (channelId r) /\
  rows s' = rows s /\ channels s' = channels s /\ categoryOf s' = categoryOf s /\
  events s' = (events s ++ [LockTimer key TICKET_CREATION_LOCK_TTL_MS; LockSet key;
                            TLog "ticket.open_exists"; LockRelease key])%list.
Proof.
  cbv zeta.
  unfold createTicketChannel, waitForLock. tred.
  rewrite (bool_decide_eq_false_2 _ Hfree). tred.
  unfold createBody, getOpenTicketByOwner. rewrite Hfind. tred. rewrite Hopen. tred.
  rewrite Hid. unfold resolveChannel. tred.
  rewrite (bool_decide_eq_true_2 _ Hthere). tred.
  rewrite bool_decide_eq_true_2
    by (apply elem_of_union; left; apply elem_of_singleton; reflexivity).
  tred. rewrite <- !app_assoc. splits; reflexivity.
Qed.

Lemma an_open_ticket_is_handed_back_witness :
  let s := mkTState ∅ [rival_row] {[ "chan-1" ]} ∅ [] in
  fst (createTicketChannel racing_world "guild" "user" "again" 1000 s) = Returned "chan-1" /\
  rows (snd (createTicketChannel racing_world "guild" "user" "again" 1000 s)) = [rival_row].
Proof.
  cbv zeta.
  pose proof (an_open_ticket_is_handed_back racing_world
                (mkTState ∅ [rival_row] {[ "chan-1" ]} ∅ [])
                "guild" "user" "again" 1000 rival_row) as H.
  cbv zeta in H.
  destruct H as (H1 & H2 & _);
    try first [ reflexivity | apply not_elem_of_empty
              | apply elem_of_singleton; reflexivity ].
  split; [exact H1|exact H2].
Defined.

(** X21: A failure of the insert that is not a uniqueness violation is
    passed on to the caller: the call throws and releases its lock, no
    row is written, and the channel it has just created is left behind
    (nothing deletes it). *)
Theorem a_database_failure_orphans_the_channel (w : TWorld) (s : TState)
  (g o subj : string) (now : Z) (category : string)
  (code : string) (target : bool) (rows1 : list Row) (chans1 : gset string)
  (Hfree : (g ++ ":" ++ o)%string ∉ ticketCreationLocks s)
  (Hfind : find_ok w = true)
  (Hnone : List.find (is_open_of g o) (rows s) = None)
  (Hcat : categoryOf s !! g = Some category)
  (Hcatch : category ∈ channels s)
  (Hcreate : channel_create_ok w = true)
  (Hmean : meanwhile w (rows s, {[ new_channel w ]} ∪ channels s) = (rows1, chans1))
  (Hfailure : insert w rows1 (mkRow (new_channel w) g o subj None) = DbError code target)
  (Hother : isUniqueErr code target = false) :
  let key := (g ++ ":" ++ o)%string in
  let s' := snd (createTicketChannel w g o subj now s) in
  fst (createTicketChannel w g o subj now s) = Thrown (append "db error " code) /\
  rows s' = rows1 /\ channels s' = chans1 /\
  (key ∉ ticketCreationLocks s') /\
  events s' = (events s ++ [LockTimer key TICKET_CREATION_LOCK_TTL_MS; LockSet key;
                            ChannelCreate (new_channel w);
                            RowInsert (new_channel w);
                            TLog "ticket.create_db_error"; TLog "ticket.create_failed";
                            LockRelease key])%list.
Proof.
  cbv zeta.
  unfold createTicketChannel, waitForLock. tred.
  rewrite (bool_decide_eq_false_2 _ Hfree). tred.
  unfold createBody, getOpenTicketByOwner. rewrite Hfind. tred. rewrite Hnone. tred.
  rewrite Hcat. unfold resolveChannel. tred.
  rewrite (bool_decide_eq_true_2 _ Hcatch). tred.
  unfold channels_create. rewrite Hcreate. tred.
  rewrite Hmean. tred.
  unfold createTicketRow. tred. rewrite Hfailure. tred.
  unfold onInsertError. rewrite Hother. tred.
  rewrite bool_decide_eq_true_2
    by (apply elem_of_union; left; apply elem_of_singleton; reflexivity).
  tred. rewrite <- !app_assoc. splits; try reflexivity.
  rewrite elem_of_difference, elem_of_singleton. tauto.
Qed.

Lemma a_database_failure_orphans_the_channel_witness :
  let s' := snd (createTicketChannel unreachable_store_world "guild" "user" "help me" 2000
                   quiet_guild) in
  fst (createTicketChannel unreachable_store_world "guild" "user" "help me" 2000
         quiet_guild) = Thrown "db error P1001" /\
  rows s' = [] /\ channels s' = {[ "chan-2" ]} ∪ {[ "cat-1" ]}.
Proof.
  cbv zeta.
  pose proof (a_database_failure_orphans_the_channel unreachable_store_world quiet_guild
                "guild" "user" "help me" 2000 "cat-1" "P1001" false
                [] ({[ "chan-2" ]} ∪ {[ "cat-1" ]})) as H.
  cbv zeta in H.
  destruct H as (H1 & H2 & H3 & _);
    try first [ reflexivity | apply not_elem_of_empty
              | apply elem_of_singleton; reflexivity ].
  splits; [exact H1|exact H2|exact H3].
Defined.

End TicketPaths.

(** ** The DM queue *)

Module DmFacts.
Import Dm.

Ltac dred :=
  cbv beta iota zeta delta
    [bind ret gets modify throw try_catch try_finally when sleep record target_send];
  cbn beta iota zeta delta [fst snd now lastDmToUser done].

Lemma sends_app (l1 l2 : list DmEvent) : sends (l1 ++ l2) = (sends l1 + sends l2)%nat.
Proof. unfold sends. rewrite List.filter_app, length_app. reflexivity. Qed.

Lemma attempts_spec (attempt : nat -> Z * SendOutcome) (target : string)
  (maxRetries : nat) :
  forall fuel tries s,
    (tries + fuel = S maxRetries)%nat -> (tries <= maxRetries)%nat ->
    exists b s',
      attempts attempt fuel target maxRetries tries s = (Returned (Some (Resolved b)), s') /\
      (exists d, done s' = (done s ++ d)%list /\ (1 <= sends d <= fuel)%nat) /\
      (b = true <->
       exists k, first_final attempt fuel tries = Some k /\ snd (attempt k) = Sent).
Proof.
  induction fuel as [|fuel IH]; intros tries s Hsum Hle; [lia|].
  cbn [attempts first_final].
  rewrite (proj2 (Nat.leb_le _ _) Hle).
  dred.
  set (s1 := if now s - default 0 (lastDmToUser s !! target) <? 700
             then mkDmState (now s + (700 - (now s - default 0 (lastDmToUser s !! target))))
                    (lastDmToUser s)
                    (done s ++ [Sleep (700 - (now s - default 0 (lastDmToUser s !! target)))])
             else s).
  assert (Hs1 : exists d1, done s1 = (done s ++ d1)%list /\ sends d1 = 0%nat).
  { unfold s1. destruct (_ <? 700).
    - eexists. split; [reflexivity|reflexivity].
    - exists []. split; [symmetry; apply app_nil_r|reflexivity]. }
  destruct Hs1 as (d1 & Hd1 & Hn1).
  replace ((if now s - default 0 (lastDmToUser s !! target) <? 700
            then fun s0 : DmState =>
                   (Returned tt,
                    mkDmState (now s0 + (700 - (now s - default 0 (lastDmToUser s !! target))))
                      (lastDmToUser s0)
                      (done s0 ++ [Sleep (700 - (now s - default 0 (lastDmToUser s !! target)))]))
            else fun s0 : DmState => (Returned tt, s0)) s)
    with (@Returned unit tt, s1)
    by (unfold s1; destruct (_ <? 700); reflexivity).
  cbn beta iota.
  destruct (snd (attempt tries)) as [|e] eqn:Hout.
  - eexists true, _. split; [reflexivity|]. split.
    + cbn [done]. rewrite Hd1. eexists. split.
      * rewrite <- !app_assoc. reflexivity.
      * rewrite !sends_app, Hn1. cbn. lia.
    + split; [|reflexivity]. intros _. exists tries. split; [reflexivity|exact Hout].
  - destruct (isRate e) eqn:Hrate; cbn [negb orb].
    + destruct (Nat.ltb_spec maxRetries (S tries)) as [Hgt|Hok].
      * eexists false, _. split; [reflexivity|]. split.
        -- cbn [done]. rewrite Hd1. eexists. split.
           ++ rewrite <- !app_assoc. reflexivity.
           ++ rewrite !sends_app, Hn1. cbn. lia.
        -- split; [discriminate|]. intros (k & Hk & Hsent).
           assert (fuel = 0%nat) by lia. subst fuel. discriminate Hk.
      * match goal with
        | |- context [attempts attempt fuel target maxRetries (S tries) ?s0] =>
            destruct (IH (S tries) s0) as (b & s' & E & (d & Hd & Hn) & Hb); [lia|lia|]
        end.
        exists b, s'. split; [exact E|]. split.
        -- cbn [done] in Hd. rewrite Hd1 in Hd. eexists. split.
           ++ rewrite Hd, <- !app_assoc. reflexivity.
           ++ rewrite !sends_app, Hn1. cbn. lia.
        -- exact Hb.
    + eexists false, _. split; [reflexivity|]. split.
      * cbn [done]. rewrite Hd1. eexists. split.
        -- rewrite <- !app_assoc. reflexivity.
        -- rewrite !sends_app, Hn1. cbn. lia.
      * split; [discriminate|]. intros (k & Hk & Hsent).
        injection Hk as <-. rewrite Hout in Hsent. discriminate Hsent.
Qed.

(** X22: Whatever [send] does, an item of the DM queue is settled: the
    promise is resolved, never left pending and never rejected, after at
    least one and at most [maxRetries + 1] attempts; and it is resolved
    with [true] exactly when the first attempt that is not rejected for
    rate is a success. *)
Theorem a_queued_dm_is_always_settled (attempt : nat -> Z * SendOutcome)
  (target : string) (maxRetries : nat) (s : DmState) :
  exists b s',
    processItem attempt target maxRetries s = (Returned (Some (Resolved b)), s') /\
    (exists d, done s' = (done s ++ d)%list /\ (1 <= sends d <= maxRetries + 1)%nat) /\
    (b = true <->
     exists k, first_final attempt (S maxRetries) 0 = Some k /\ snd (attempt k) = Sent).
Proof.
  destruct (attempts_spec attempt target maxRetries (S maxRetries) 0%nat s)
    as (b & s1 & E & (d & Hd & Hn) & Hb); [lia|lia|].
  exists b. unfold processItem, bind at 1. rewrite E. dred.
  eexists. split; [reflexivity|]. split; [|exact Hb].
  cbn [done]. rewrite Hd. eexists. split.
  - rewrite <- app_assoc. reflexivity.
  - rewrite sends_app. cbn. lia.
Qed.

Lemma attempts_spacing (attempt : nat -> Z * SendOutcome) (target : string)
  (maxRetries : nat) (last : Z) :
  forall fuel tries s,
    default 0 (lastDmToUser s !! target) = last ->
    exists d, done (snd (attempts attempt fuel target maxRetries tries s)) = (done s ++ d)%list /\
              Forall (spaced last) d.
Proof.
  induction fuel as [|fuel IH]; intros tries s Hlast.
  - exists []. split; [symmetry; apply app_nil_r|constructor].
  - cbn [attempts].
    destruct (tries <=? maxRetries)%nat;
      [|exists []; split; [symmetry; apply app_nil_r|constructor]].
    dred. rewrite Hlast.
    destruct (Z.ltb_spec (now s - last) 700) as [Hsoon|Hlate];
      destruct (snd (attempt tries)) as [|e]; cbn [snd done];
      try (destruct (negb (isRate e) || (maxRetries <? S tries)%nat); cbn [snd done]);
      try (eexists; split; [rewrite <- !app_assoc; reflexivity|];
           repeat constructor; cbn; lia).
    + match goal with
      | |- context [attempts attempt fuel target maxRetries (S tries) ?s0] =>
          destruct (IH (S tries) s0) as (d & Hd & Hf); [exact Hlast|]
      end.
      cbn [done] in Hd. eexists. split; [rewrite Hd, <- !app_assoc; reflexivity|].
      repeat (apply List.Forall_cons; [cbn; try lia; exact I|]). exact Hf.
    + match goal with
      | |- context [attempts attempt fuel target maxRetries (S tries) ?s0] =>
          destruct (IH (S tries) s0) as (d & Hd & Hf); [exact Hlast|]
      end.
      cbn [done] in Hd. eexists. split; [rewrite Hd, <- !app_assoc; reflexivity|].
      repeat (apply List.Forall_cons; [cbn; try lia; exact I|]). exact Hf.
Qed.

(** X23: The queue keeps its distance: every attempt to DM a user is
    made 700 ms or more after the time on record for the last DM to that
    user, however long earlier attempts took. *)
Theorem dms_to_a_user_are_spaced (attempt : nat -> Z * SendOutcome)
  (target : string) (maxRetries : nat) (s : DmState) :
  exists d, done (snd (processItem attempt target maxRetries s)) = (done s ++ d)%list /\
            Forall (spaced (default 0 (lastDmToUser s !! target))) d.
Proof.
  destruct (attempts_spacing attempt target maxRetries _ (S maxRetries) 0%nat s eq_refl)
    as (d & Hd & Hf).
  unfold processItem, bind at 1.
  destruct (attempts attempt (S maxRetries) target maxRetries 0 s) as [[r|e] s1];
    cbn [snd] in *.
  - dred. rewrite Hd. eexists. split; [rewrite <- app_assoc; reflexivity|].
    apply Forall_app. split; [exact Hf|]. repeat constructor.
  - exists d. split; [exact Hd|exact Hf].
Qed.

End DmFacts.

(** ** Quarantine by account age *)

Ltac qred :=
  unfold scanMember, scanKey, isNewAccount, roles_remove, roles_add,
    roles_has, setQuarantineTimestamp, clearQuarantineTimestamp;
  mred.

(** X24: The hourly scan makes the quarantine role follow the age of the
    account.  When the platform accepts the role changes, a member who is
    not a bot has the role after the scan exactly when the account is
    younger than the limit, whatever was the case before. *)
Theorem the_scan_makes_the_role_follow_the_age (cfg : Config) (world : World)
  (limit : Z) (guildId : string) (acct : Account) (s : State)
  (Hbot : a_bot acct = false)
  (Hadd : roles_add_ok world = true)
  (Hremove : roles_remove_ok world = true) :
  let key := member_key guildId (a_id acct) in
  let s' := snd (scanMember cfg world limit guildId acct s) in
  (key, QUARANTINED_ROLE_NAME cfg) ∈ memberRoles s' <->
  fst (isNewAccount limit acct s) = Returned true.
Proof.
  cbv zeta. qred. rewrite Hbot.
  destruct (a_createdAt acct) as [created|]; mred;
    [destruct (clock s - created <? limit * 24 * 60 * 60 * 1000)|];
    destruct (bool_decide ((member_key guildId (a_id acct), QUARANTINED_ROLE_NAME cfg)
                             ∈ memberRoles s)) eqn:Hhas;
    cbn [andb negb]; mred; rewrite ?Hadd, ?Hremove; mred;
    try (apply bool_decide_eq_true_1 in Hhas);
    try (apply bool_decide_eq_false_1 in Hhas);
    rewrite ?elem_of_union, ?elem_of_difference, ?elem_of_singleton;
    split; intros H; try reflexivity; try discriminate; try tauto; auto.
Qed.

Lemma the_scan_makes_the_role_follow_the_age_witness :
  let acct := mkAccount "user" false (Some 0) in
  let s := initial_state 1000 in
  ("guild:user", "Quarantined") ∈
    memberRoles (snd (scanMember default_config (sampling None) 30 "guild" acct s)) <->
  fst (isNewAccount 30 acct s) = Returned true.
Proof.
  cbv zeta.
  refine (the_scan_makes_the_role_follow_the_age default_config (sampling None) 30
            "guild" (mkAccount "user" false (Some 0)) (initial_state 1000) _ _ _);
    reflexivity.
Defined.

(** X25: A release after 72 hours does not last while the account is
    still younger than the age limit.  The key loop of the scan takes the
    role away and forgets the join time; the member loop of the next scan
    finds a new account without the role, gives the role back and starts
    the 72 hours afresh. *)
Theorem a_release_after_72_hours_is_undone_by_the_next_scan (cfg : Config)
  (world : World) (limit : Z) (member_known : string -> bool)
  (guildId : string) (acct : Account) (s : State) (t created dt : Z)
  (Hbot : a_bot acct = false)
  (Hrole : (member_key guildId (a_id acct), QUARANTINED_ROLE_NAME cfg) ∈ memberRoles s)
  (Hts : quarantineMap s !! member_key guildId (a_id acct) = Some t)
  (Ht : t <> 0)
  (Hold : SEVENTY_TWO_HOURS <= clock s - t)
  (Hknown : member_known (a_id acct) = true)
  (Hadd : roles_add_ok world = true)
  (Hremove : roles_remove_ok world = true)
  (Hcreated : a_createdAt acct = Some created)
  (Hnew : clock s + dt - created < limit * 24 * 60 * 60 * 1000) :
  let key := member_key guildId (a_id acct) in
  let released := snd (scanKey cfg world member_known guildId (a_id acct) s) in
  let rescanned := snd (scanMember cfg world limit guildId acct (advance dt released)) in
  ((key, QUARANTINED_ROLE_NAME cfg) ∉ memberRoles released) /\
  quarantineMap released !! key = None /\
  (key, QUARANTINED_ROLE_NAME cfg) ∈ memberRoles rescanned /\
  quarantineMap rescanned !! key = Some (clock s + dt).
Proof.
  cbv zeta.
  assert (Hz : (t =? 0) = false) by (apply Z.eqb_neq; exact Ht).
  assert (Hge : (SEVENTY_TWO_HOURS <=? clock s - t) = true) by (apply Z.leb_le; exact Hold).
  assert (Hlt : (clock s + dt - created <? limit * 24 * 60 * 60 * 1000) = true)
    by (apply Z.ltb_lt; exact Hnew).
  assert (E : scanKey cfg world member_known guildId (a_id acct) s =
              (Returned tt,
               set_trace (trace s ++ [RoleRemove (member_key guildId (a_id acct))
                                        (QUARANTINED_ROLE_NAME cfg);
                                      Log "role.remove" "" "Quarantine expired (72h)"])
                 (set_quarantineMap (delete (member_key guildId (a_id acct)) (quarantineMap s))
                    (set_memberRoles
                       (memberRoles s ∖ {[ (member_key guildId (a_id acct),
                                            QUARANTINED_ROLE_NAME cfg) ]}) s)))).
  { qred. rewrite Hts, Hz. mred. rewrite Hge. mred.
    rewrite (bool_decide_eq_true_2 _ Hrole), Hknown. cbn [andb]. mred.
    rewrite Hremove. mred. destruct s; cbn. rewrite <- app_assoc. reflexivity. }
  rewrite E. cbn [snd].
  assert (Hnot : (member_key guildId (a_id acct), QUARANTINED_ROLE_NAME cfg) ∉
                 memberRoles s ∖ {[ (member_key guildId (a_id acct),
                                     QUARANTINED_ROLE_NAME cfg) ]}).
  { rewrite elem_of_difference, elem_of_singleton. tauto. }
  splits.
  - destruct s; exact Hnot.
  - destruct s; cbn. apply lookup_delete_eq.
  - qred. rewrite Hbot, Hcreated. destruct s; cbn in *. mred.
    rewrite (bool_decide_eq_false_2 _ Hnot), Hlt. cbn [andb negb]. mred.
    rewrite Hadd. mred.
    apply elem_of_union. left. apply elem_of_singleton. reflexivity.
  - qred. rewrite Hbot, Hcreated. destruct s; cbn in *. mred.
    rewrite (bool_decide_eq_false_2 _ Hnot), Hlt. cbn [andb negb]. mred.
    rewrite Hadd. mred. apply lookup_insert_eq.
Qed.

Lemma a_release_after_72_hours_is_undone_by_the_next_scan_witness :
  let acct := mkAccount "user" false (Some 0) in
  let s := mkState 300000000 0 0 0 ∅ ∅ {[ "guild:user" := 1000 ]} []
             {[ ("guild:user", "Quarantined") ]} [] in
  let released := snd (scanKey default_config (sampling None) (fun _ => true)
                         "guild" "user" s) in
  let rescanned := snd (scanMember default_config (sampling None) 30 "guild" acct
                          (advance 3600000 released)) in
  ((("guild:user", "Quarantined") : string * string) ∉ memberRoles released) /\
  ("guild:user", "Quarantined") ∈ memberRoles rescanned /\
  quarantineMap rescanned !! "guild:user" = Some 303600000.
Proof.
  cbv zeta.
  pose proof (a_release_after_72_hours_is_undone_by_the_next_scan default_config
                (sampling None) 30 (fun _ => true) "guild"
                (mkAccount "user" false (Some 0))
                (mkState 300000000 0 0 0 ∅ ∅ {[ "guild:user" := 1000 ]} []
                   {[ ("guild:user", "Quarantined") ]} [])
                1000 0 3600000) as H.
  cbv zeta in H.
  destruct H as (H1 & _ & H3 & H4);
    try first [ reflexivity | discriminate | lia
              | (cbn; apply elem_of_singleton; reflexivity)
              | (vm_compute; discriminate)
              | (vm_compute; reflexivity) ].
  splits; [exact H1|exact H3|exact H4].
Defined.

(** ** Small helpers *)

Lemma Js_take_length (n : nat) (s : string) :
  String.length (Js.take n s) = Nat.min n (String.length s).
Proof.
  revert s. induction n as [|n IH]; intros [|c s]; cbn; try reflexivity.
  rewrite IH. reflexivity.
Qed.

Lemma string_app_length (a b : string) :
  String.length (a ++ b) = (String.length a + String.length b)%nat.
Proof.
  induction a as [|c a IH]; [reflexivity|].
  change (S (String.length (a ++ b)) = S (String.length a + String.length b)).
  rewrite IH. reflexivity.
Qed.

Lemma startsWith_app (a b : string) : Js.startsWith (a ++ b) a = true.
Proof.
  induction a as [|c a IH].
  - destruct b; reflexivity.
  - change (Js.startsWith (String c (a ++ b)) (String c a) = true).
    cbn [Js.startsWith]. rewrite Ascii.eqb_refl. exact IH.
Qed.

Lemma take_all (n : nat) (s : string) :
  (String.length s <= n)%nat -> Js.take n s = s.
Proof.
  revert s. induction n as [|n IH]; intros [|c s] H; cbn in *; try reflexivity; try lia.
  rewrite IH by lia. reflexivity.
Qed.

Lemma startsWith_take (n : nat) (s : string) : Js.startsWith s (Js.take n s) = true.
Proof.
  revert s. induction n as [|n IH]; intros [|c s]; cbn; try reflexivity.
  rewrite Ascii.eqb_refl. apply IH.
Qed.

(** X26: [safeTruncate] returns a text that begins with the first [n]
    characters of the one it was given.  A text of up to [n] characters
    comes back as it is; a longer one comes back [n + 3] characters long,
    three more than the limit asked for. *)
Theorem safeTruncate_length (s : string) (n : nat) :
  Js.startsWith (safeTruncate s n) (Js.take n s) = true /\
  String.length (safeTruncate s n) =
    (if (String.length s <=? n)%nat then String.length s else n + 3)%nat.
Proof.
  unfold safeTruncate. destruct s as [|c s].
  - cbn. destruct n; split; reflexivity.
  - cbn [Js.truthy negb]. destruct (Nat.leb_spec (String.length (String c s)) n) as [Hle|Hgt].
    + split; [apply startsWith_take|reflexivity].
    + split; [apply startsWith_app|].
      rewrite string_app_length, Js_take_length. cbn [String.length] in *. lia.
Qed.

Module TicketNameFacts.
Import TicketName.

Lemma all_chars_app (p : ascii -> bool) (a b : string) :
  all_chars p (a ++ b) = all_chars p a && all_chars p b.
Proof.
  induction a as [|c a IH]; [reflexivity|].
  change (p c && all_chars p (a ++ b) = p c && all_chars p a && all_chars p b).
  rewrite IH. apply andb_assoc.
Qed.

Lemma all_chars_take (p : ascii -> bool) (n : nat) (s : string) :
  all_chars p s = true -> all_chars p (Js.take n s) = true.
Proof.
  revert s. induction n as [|n IH]; intros [|c s] H; cbn in *; try reflexivity.
  apply andb_true_iff in H as [Hc Hs]. rewrite Hc, (IH s Hs). reflexivity.
Qed.

Lemma all_chars_replace_others (s : string) :
  all_chars name_char (replace_others s) = true.
Proof.
  induction s as [|c s IH]; [reflexivity|].
  unfold replace_others in *. cbn [Js.map_chars all_chars]. rewrite IH, andb_true_r.
  unfold name_char.
  destruct (Js.is_lower c || Js.is_digit c || Ascii.eqb c hyphen) eqn:E; [exact E|].
  reflexivity.
Qed.

Lemma all_chars_collapse_hyphens (p : ascii -> bool) (s : string) :
  all_chars p s = true -> all_chars p (collapse_hyphens s) = true.
Proof.
  induction s as [|c s IH]; intros H; [reflexivity|].
  cbn [all_chars] in H. apply andb_true_iff in H as [Hc Hs].
  cbn [collapse_hyphens].
  destruct (Ascii.eqb c hyphen).
  - destruct s as [|d s']; [cbn; rewrite Hc; reflexivity|].
    destruct (Ascii.eqb d hyphen).
    + apply IH, Hs.
    + cbn [all_chars]. rewrite Hc. apply IH, Hs.
  - cbn [all_chars]. rewrite Hc. apply IH, Hs.
Qed.

Lemma slug_ok (s : string) :
  all_chars name_char (slug s) = true /\ (String.length (slug s) <= 20)%nat.
Proof.
  unfold slug. split.
  - apply all_chars_take, all_chars_collapse_hyphens, all_chars_replace_others.
  - rewrite Js_take_length. lia.
Qed.

Lemma short_numbers : forallb short_number (seq 0 (100 * 100)) = true.
Proof. vm_compute. reflexivity. Qed.

Lemma decimal_ok (z : Z) :
  -10000 < z < 10000 ->
  all_chars name_char (decimal z) = true /\ (String.length (decimal z) <= 5)%nat.
Proof.
  intros Hz.
  assert (Hn : short_number (Z.to_nat (Z.abs z)) = true).
  { pose proof short_numbers as H. rewrite forallb_forall in H.
    apply H. apply in_seq. lia. }
  unfold short_number in Hn. apply andb_true_iff in Hn as [Hc Hl].
  apply Nat.leb_le in Hl.
  unfold decimal. destruct (z <? 0).
  - cbn [all_chars String.length]. rewrite Hc. split; [reflexivity|lia].
  - split; [exact Hc|lia].
Qed.

(** X27: The name made for a ticket channel is always fit for a channel:
    it begins with [ticket-], holds nothing but lower-case letters, digits
    and hyphens, and is at most 54 characters long, whatever the member
    is called and whatever the subject says. *)
Theorem ticketChannelName_is_fit_for_a_channel
  (displayName username subject : string) (now : Z) :
  let name := ticketChannelName displayName username subject now in
  Js.startsWith name "ticket-" = true /\
  all_chars name_char name = true /\
  (String.length name <= 54)%nat.
Proof.
  cbv zeta. unfold ticketChannelName.
  set (base := slug _). set (subj := slug _). set (suffix := decimal _).
  destruct (slug_ok (if Js.truthy displayName then displayName
                     else if Js.truthy username then username else "ticket"))
    as [Hb1 Hb2].
  destruct (slug_ok (if Js.truthy subject then subject else "ticket")) as [Hs1 Hs2].
  destruct (decimal_ok (Z.rem now 10000)) as [Hd1 Hd2].
  { pose proof (Z.rem_bound_abs now 10000). lia. }
  fold base in Hb1, Hb2. fold subj in Hs1, Hs2. fold suffix in Hd1, Hd2.
  splits.
  - apply startsWith_app.
  - rewrite !all_chars_app, Hb1, Hs1, Hd1. reflexivity.
  - rewrite !string_app_length. cbn [String.length]. lia.
Qed.

End TicketNameFacts.

(** ** Reading a channel back *)

Module TranscriptFacts.
Import Transcript.

Lemma fetch_loop_spec (fetch : option string -> option (list Fetched)) (limitAll : Z) :
  forall fuel messages lastId,
    (Z.to_nat (limitAll - Z.of_nat (List.length messages)) < fuel)%nat ->
    (messages = [] \/ Z.of_nat (List.length messages) < limitAll) ->
    exists r, fetch_loop fetch fuel limitAll messages lastId = Some r /\
      ((forall before page, fetch before = Some page -> (List.length page <= 100)%nat) ->
       forall l, r = Some l ->
                 Z.of_nat (List.length l) <= Z.max (limitAll - 1) 0 + 100).
Proof.
  induction fuel as [|fuel IH]; intros messages lastId Hfuel Hinv; [lia|].
  cbn [fetch_loop].
  set (before := match lastId with
                 | Some i => if Js.truthy i then Some i else None
                 | None => None
                 end).
  destruct (fetch before) as [[|m rest]|] eqn:Hf.
  - eexists. split; [reflexivity|]. intros _ l [= <-].
    destruct Hinv as [->|Hlt]; cbn; lia.
  - assert (Hsum : (forall before page, fetch before = Some page ->
                                        (List.length page <= 100)%nat) ->
                   Z.of_nat (List.length (messages ++ m :: rest)) <=
                   Z.max (limitAll - 1) 0 + 100).
    { intros Hpage. pose proof (Hpage _ _ Hf) as Hlen.
      rewrite length_app. destruct Hinv as [->|Hlt]; cbn [List.length] in *; lia. }
    destruct (Z.leb_spec limitAll (Z.of_nat (List.length (messages ++ m :: rest))))
      as [Hfull|Hroom].
    + eexists. split; [reflexivity|]. intros Hpage l [= <-]. exact (Hsum Hpage).
    + destruct (Nat.ltb_spec (List.length (m :: rest)) 100) as [Hshort|Hlong].
      * eexists. split; [reflexivity|]. intros Hpage l [= <-]. exact (Hsum Hpage).
      * apply IH.
        -- rewrite length_app in *. cbn [List.length] in *. lia.
        -- right. exact Hroom.
  - eexists. split; [reflexivity|]. intros _ l H. discriminate H.
Qed.

(** X28: Reading a channel back always ends, with the messages or with
    the error of a fetch, and what it returns is bounded: when no page
    holds more than the 100 messages asked for, the transcript has fewer
    than [limitAll + 100] messages, however many the channel holds. *)
Theorem fetchAllMessages_ends_and_is_bounded
  (fetch : option string -> option (list Fetched)) (limitAll : Z) :
  exists r, fetchAllMessages fetch limitAll = Some r /\
    ((forall before page, fetch before = Some page -> (List.length page <= 100)%nat) ->
     forall l, r = Some l ->
               Z.of_nat (List.length l) <= Z.max (limitAll - 1) 0 + 100).
Proof.
  unfold fetchAllMessages.
  destruct (fetch_loop_spec fetch limitAll (S (Z.to_nat limitAll)) [] None)
    as (r & E & Hr).
  - cbn [List.length]. lia.
  - left. reflexivity.
  - rewrite E. cbn [option_map]. eexists. split; [reflexivity|].
    intros Hpage l Hl. destruct r as [l0|]; [|discriminate Hl].
    cbn [option_map] in Hl. injection Hl as <-. rewrite length_rev.
    apply (Hr Hpage). reflexivity.
Qed.

Lemma fetchAllMessages_ends_and_is_bounded_witness :
  fetchAllMessages two_messages 2000
  = Some (Some [mkFetched "1" "first"; mkFetched "2" "second"]) /\
  Z.of_nat (List.length [mkFetched "1" "first"; mkFetched "2" "second"])
  <= Z.max (2000 - 1) 0 + 100.
Proof.
  split; [reflexivity|].
  destruct (fetchAllMessages_ends_and_is_bounded two_messages 2000) as (r & E & Hr).
  apply Hr.
  - intros before page H. destruct before; injection H as <-; cbn; lia.
  - change (fetchAllMessages two_messages 2000)
      with (Some (Some [mkFetched "1" "first"; mkFetched "2" "second"])) in E.
    injection E as <-. reflexivity.
Defined.

End TranscriptFacts.

(** ** Closing a ticket *)

Module TicketCloseFacts.
Import Ticket.
Import TicketExamples.
Import TicketRelations.
Import TicketClose.
Import TicketFacts.

Ltac cred :=
  unfold closeTicket, saveTranscriptAndLog, getTicketRow, closeTicketRow, channel_delete;
  tred.

(** X29: Only the owner of a ticket and the moderators can close it.
    When the member is neither, or when the ticket or its channel is not
    found, [closeTicket] answers and leaves the table, the channels and
    the log as they are. *)
Theorem only_the_owner_or_a_moderator_closes (w : TWorld)
  (get_ok close_ok transcript_ok : bool) (id memberId : string) (isMod : bool) (now : Z) (s : TState) (reply : CloseReply)
  (s' : TState)
  (Hrun : closeTicket w get_ok close_ok transcript_ok id memberId isMod now s
          = (Returned reply, s'))
  (Hchanged : s' <> s) :
  exists meta, List.find (fun r => String.eqb (channelId r) id) (rows s) = Some meta /\
               (memberId = ownerId meta \/ isMod = true) /\
               id ∈ channels s /\ reply = ClosedAndSaved.
Proof.
  revert Hrun. cred. destruct get_ok; tred; [|discriminate].
  destruct (List.find _ (rows s)) as [meta|] eqn:Hfind; tred.
  2:{ intros [= <- <-]. contradiction. }
  destruct (String.eqb memberId (ownerId meta)) eqn:Hown;
    destruct isMod; cbn [negb andb]; tred;
    try (intros [= <- <-]; contradiction);
    (destruct (bool_decide (id ∈ channels s)) eqn:Hch; cbn [negb]; tred;
     [|intros [= <- <-]; contradiction]);
    apply bool_decide_eq_true_1 in Hch;
    try (apply String.eqb_eq in Hown);
    destruct transcript_ok, close_ok, (channel_delete_ok w); tred;
    intros [= <- _]; exists meta; splits; auto.
Qed.

Lemma only_the_owner_or_a_moderator_closes_witness :
  exists meta,
    List.find (fun r => String.eqb (channelId r) "chan-1") (rows guild_with_open_ticket)
      = Some meta /\
    ("user" = ownerId meta \/ false = true) /\
    "chan-1" ∈ channels guild_with_open_ticket /\ ClosedAndSaved = ClosedAndSaved.
Proof.
  refine (only_the_owner_or_a_moderator_closes calm_world true true true "chan-1" "user"
            false 2000 guild_with_open_ticket ClosedAndSaved
            (snd (closeTicket calm_world true true true "chan-1" "user" false 2000
                    guild_with_open_ticket)) _ _).
  - vm_compute. reflexivity.
  - intros H. apply (f_equal events) in H. vm_compute in H. discriminate H.
Defined.

Lemma filter_singleton_find {A : Type} (p : A -> bool) (l : list A) (r : A) :
  List.filter p l = [r] -> List.find p l = Some r.
Proof.
  induction l as [|x l IH]; intros H; [discriminate H|].
  cbn [List.filter List.find] in *. destruct (p x).
  - injection H as -> _. reflexivity.
  - apply IH, H.
Qed.

Lemma closed_at_not_open (g o id : string) (t : Z) (l : list Row) (r : Row) :
  List.filter (is_open_of g o) l = [r] -> channelId r = id ->
  List.find (is_open_of g o) (map (closed_at id t) l) = None.
Proof.
  intros Hone Hid.
  assert (Hall : forall x, In x l -> is_open_of g o x = true -> x = r).
  { intros x Hx Hopen.
    assert (Hin : In x (List.filter (is_open_of g o) l))
      by (apply List.filter_In; split; assumption).
    rewrite Hone in Hin. destruct Hin as [<-|[]]. reflexivity. }
  clear Hone. induction l as [|x l IH]; [reflexivity|].
  cbn [map List.find].
  assert (Hx : is_open_of g o (closed_at id t x) = false).
  { unfold closed_at. destruct (String.eqb (channelId x) id) eqn:E.
    - unfold is_open_of. cbn. apply andb_false_r.
    - destruct (is_open_of g o x) eqn:Hopen; [|reflexivity].
      rewrite (Hall x (or_introl eq_refl) Hopen), Hid, String.eqb_refl in E.
      discriminate E. }
  rewrite Hx. apply IH. intros y Hy. apply Hall. right. exact Hy.
Qed.

(** X30: Closing a ticket and opening one again gives the owner a fresh
    ticket as long as one of two updates goes through.  The owner closes
    their only open ticket and its channel is deleted.  When the update
    of [closeTicket] succeeded, the next request finds no open ticket; when
    it failed, the request finds the row without its channel and closes it
    itself, if that update succeeds.  Either way the request creates a new
    channel and a new open row.  When both updates fail, the failure of
    the second being swallowed, the old row stays open: a datastore that
    refuses a second open ticket then refuses both inserts of the
    request, which deletes the channel it has created, throws on the send
    into it and leaves the table as it was. *)
Theorem closing_then_opening_needs_one_update_to_succeed (w : TWorld)
  (close_ok transcript_ok : bool) (s : TState) (g o subj id category : string)
  (now later : Z) (r : Row)
  (Hmeta : List.find (fun x => String.eqb (channelId x) id) (rows s) = Some r)
  (Howner : ownerId r = o)
  (Honly : List.filter (is_open_of g o) (rows s) = [r])
  (Hid : channelId r = id)
  (Htruthy : Js.truthy id = true)
  (Hthere : id ∈ channels s)
  (Hdelete : channel_delete_ok w = true)
  (Hfree : (g ++ ":" ++ o)%string ∉ ticketCreationLocks s)
  (Hfind : find_ok w = true)
  (Hcat : categoryOf s !! g = Some category)
  (Hcatch : category ∈ channels s)
  (Hcatne : category <> id)
  (Hcreate : channel_create_ok w = true)
  (Hquiet : forall x, meanwhile w x = x)
  (Hinsert : forall t, insert w (map (closed_at id t) (rows s))
                         (mkRow (new_channel w) g o subj None) = Inserted)
  (Hsend : channel_send_ok w = true)
  (Hnotice : mod_notice_ok w = true) :
  let closed := snd (closeTicket w true close_ok transcript_ok id o false now s) in
  let opened := createTicketChannel w g o subj later closed in
  (close_ok || row_close_ok w = true ->
   fst opened = Returned (new_channel w) /\
   rows (snd opened) =
     (map (closed_at id (if close_ok then now else later)) (rows s)
      ++ [mkRow (new_channel w) g o subj None])%list) /\
  (close_ok || row_close_ok w = false ->
   forall code target,
     insert w (rows s) (mkRow (new_channel w) g o subj None) = DbError code target ->
     isUniqueErr code target = true ->
     new_channel w <> id ->
     fst opened = Thrown "Unknown Channel" /\
     rows (snd opened) = rows s /\
     List.filter (is_open_of g o) (rows (snd opened)) = [r] /\
     new_channel w ∉ channels (snd opened)).
Proof.
  cbv zeta.
  pose proof (filter_singleton_find _ _ _ Honly) as Hopen.
  assert (Hcat' : category ∈ channels s ∖ {[ id ]}).
  { rewrite elem_of_difference, elem_of_singleton. split; assumption. }
  assert (Hgone : id ∉ channels s ∖ {[ id ]}).
  { rewrite elem_of_difference, elem_of_singleton. tauto. }
  cred. rewrite Hmeta. tred. rewrite Howner, String.eqb_refl. cbn [negb andb]. tred.
  rewrite (bool_decide_eq_true_2 _ Hthere). cbn [negb]. tred.
  rewrite Hdelete.
  unfold createTicketChannel, waitForLock.
  assert (Hnew : forall X : gset string, new_channel w ∈ {[ new_channel w ]} ∪ X).
  { intros X. apply elem_of_union. left. apply elem_of_singleton. reflexivity. }
  assert (Hlock : forall X : gset string, (g ++ ":" ++ o)%string ∈ {[ (g ++ ":" ++ o)%string ]} ∪ X).
  { intros X. apply elem_of_union. left. apply elem_of_singleton. reflexivity. }
  destruct transcript_ok; destruct close_ok; tred;
    rewrite (bool_decide_eq_false_2 _ Hfree); tred;
    unfold createBody, getOpenTicketByOwner; rewrite Hfind; tred;
    cbn [orb];
    (split; [intros Hupd|intros Hupd code target Hviolation Hunique Hne]);
    try discriminate Hupd.
  all: try change (map _ (rows s)) with (map (closed_at id now) (rows s)).
  all: try (rewrite (closed_at_not_open g o id now (rows s) r Honly Hid); tred).
  all: try (rewrite Hopen; tred; rewrite Hid, Htruthy; unfold resolveChannel; tred;
            rewrite (bool_decide_eq_false_2 _ Hgone); tred;
            rewrite Hupd; unfold closeTicketRow; tred).
  all: rewrite Hcat; unfold resolveChannel; tred;
    rewrite (bool_decide_eq_true_2 _ Hcat'); tred;
    unfold channels_create; rewrite Hcreate; tred;
    rewrite Hquiet; tred;
    unfold createTicketRow; tred.
  all: try change (map _ (rows s)) with (map (closed_at id later) (rows s)).
  all: try (rewrite Hinsert; tred;
    unfold channel_send; tred; rewrite Hsend;
    rewrite (bool_decide_eq_true_2 _ (Hnew _));
    cbn [andb]; tred; rewrite Hnotice; tred;
    rewrite (bool_decide_eq_true_2 _ (Hlock _));
    tred; split; reflexivity).
  all: rewrite Hviolation; tred; unfold onInsertError; rewrite Hunique; tred;
    unfold getOpenTicketByOwner_or_null, getOpenTicketByOwner; rewrite Hfind; tred;
    rewrite Hopen; tred; rewrite Hid, Htruthy;
    rewrite (proj2 (String.eqb_neq _ _) (not_eq_sym Hne)); cbn [andb negb];
    unfold channel_delete, resolveChannel; tred; rewrite Hdelete; tred.
  all: assert (Hgone2 : id ∉ ({[ new_channel w ]} ∪ channels s ∖ {[ id ]}) ∖ {[ new_channel w ]})
         by (rewrite !elem_of_difference, elem_of_union, !elem_of_singleton; tauto);
    assert (Hdel : new_channel w ∉
                   ({[ new_channel w ]} ∪ channels s ∖ {[ id ]}) ∖ {[ new_channel w ]})
         by (rewrite !elem_of_difference, !elem_of_singleton; tauto).
  all: rewrite (bool_decide_eq_false_2 _ Hgone2); tred;
    unfold createTicketRow; tred; rewrite Hviolation; tred;
    unfold channel_send; tred; rewrite Hsend;
    rewrite (bool_decide_eq_false_2 _ Hdel); cbn [andb]; tred;
    rewrite (bool_decide_eq_true_2 _ (Hlock _)); tred;
    splits; [reflexivity|reflexivity|exact Honly|exact Hdel].
Qed.

Lemma closing_then_opening_needs_one_update_to_succeed_witness :
  let closed := snd (closeTicket calm_world true false true "chan-1" "user" false 2000
                       guild_with_open_ticket) in
  let opened := createTicketChannel calm_world "guild" "user" "again" 3000 closed in
  let stuck := snd (closeTicket stuck_world true false true "chan-1" "user" false 2000
                      guild_with_open_ticket) in
  let refused := createTicketChannel stuck_world "guild" "user" "again" 3000 stuck in
  (fst opened = Returned "chan-2" /\
   rows (snd opened) = [mkRow "chan-1" "guild" "user" "help" (Some 3000);
                        mkRow "chan-2" "guild" "user" "again" None]) /\
  (fst refused = Thrown "Unknown Channel" /\
   rows (snd refused) = [rival_row] /\
   List.filter (is_open_of "guild" "user") (rows (snd refused)) = [rival_row] /\
   "chan-2" ∉ channels (snd refused)).
Proof.
  cbv zeta. split.
  - refine (proj1 (closing_then_opening_needs_one_update_to_succeed calm_world false true
              guild_with_open_ticket "guild" "user" "again" "chan-1" "cat-1" 2000 3000
              rival_row _ _ _ _ _ _ _ _ _ _ _ _ _ _ _ _ _) _);
      try first [ reflexivity | discriminate | apply not_elem_of_empty
                | (intros x; reflexivity)
                | (apply elem_of_union; left; apply elem_of_singleton; reflexivity)
                | (apply elem_of_union; right; apply elem_of_singleton; reflexivity) ].
  - refine (proj2 (closing_then_opening_needs_one_update_to_succeed stuck_world false true
              guild_with_open_ticket "guild" "user" "again" "chan-1" "cat-1" 2000 3000
              rival_row _ _ _ _ _ _ _ _ _ _ _ _ _ _ _ _ _) _ "P2002" true _ _ _);
      try first [ reflexivity | discriminate | apply not_elem_of_empty
                | (intros x; reflexivity)
                | (apply elem_of_union; left; apply elem_of_singleton; reflexivity)
                | (apply elem_of_union; right; apply elem_of_singleton; reflexivity) ].
Defined.

End TicketCloseFacts.
